(** * Debugging & fault simulation monitor (debug_fault_sim.c)

    A shallow embedding of the debug monitor of
    [4 Debugging-Fault Simulation/debug_fault_sim.c]: the bounded event log,
    the fault history, the health tracker with its watchdog, fault injection,
    recovery and shutdown, followed by the properties of the specification
    that concern them.

    Conventions.
    - C [int] and [time_t] values are [Z]; the fixed-width unsigned fields
      ([uint16_t], [uint32_t]) are [Z] with their wrap-around written out.
    - The two gauges are C [float]s that only ever hold [k.0f + (rand() % n)]
      for small integers, which binary32 represents exactly; they are kept
      as the integer they hold, and [> 90.0f] is the integer comparison.
    - The arrays [log_buffer] and [fault_history] are lists holding all
      their slots, indexed with stdpp's lookup and insert.
    - [time(NULL)] and [rand()] read an oracle carried by the world; the
      function-local [static] variables are fields of the world.
    - [assert] is enabled (no NDEBUG): a failed assertion aborts.
    - The keyboard ([kbhit], [getch]) is the list of the keys read, one
      element for each turn of the main loop; the [static int] counters of
      [main] and of the simulated components are integers, valid while they
      stay below [INT_MAX]. *)

From Stdlib Require Import ZArith String Lia.
From stdpp Require Import base list strings pretty.
From Stdlib Require Import Ascii.

Local Open Scope Z_scope.

(** ** Configuration constants *)

Definition MAX_LOG_ENTRIES : Z := 1000.
Definition MAX_FAULT_HISTORY : Z := 50.

(** ** Enumerations *)

Inductive error_code_t :=
| ERR_NONE | ERR_SENSOR_FAILURE | ERR_ACTUATOR_STUCK | ERR_COMMUNICATION_LOST
| ERR_POWER_FLUCTUATION | ERR_MEMORY_CORRUPTION | ERR_WATCHDOG_TIMEOUT
| ERR_INVALID_STATE | ERR_FILE_IO_ERROR | ERR_SYSTEM_OVERLOAD.

Inductive log_level_t :=
| LOG_DEBUG | LOG_INFO | LOG_WARNING | LOG_ERROR | LOG_CRITICAL.

Inductive system_state_t :=
| STATE_INIT | STATE_RUNNING | STATE_FAULT | STATE_RECOVERY | STATE_SHUTDOWN.

Inductive fault_type_t :=
| FAULT_NONE | FAULT_SENSOR_NOISE | FAULT_ACTUATOR_FAIL | FAULT_COMM_BREAK
| FAULT_POWER_SPIKE | FAULT_MEMORY_LEAK.

#[global] Instance error_code_eq_dec : EqDecision error_code_t.
Proof. solve_decision. Defined.
#[global] Instance log_level_eq_dec : EqDecision log_level_t.
Proof. solve_decision. Defined.
#[global] Instance system_state_eq_dec : EqDecision system_state_t.
Proof. solve_decision. Defined.
#[global] Instance fault_type_eq_dec : EqDecision fault_type_t.
Proof. solve_decision. Defined.

(** The integer value of each enumerator, as the C declarations give it. *)
Definition level_value (l : log_level_t) : Z :=
  match l with
  | LOG_DEBUG => 0 | LOG_INFO => 1 | LOG_WARNING => 2
  | LOG_ERROR => 3 | LOG_CRITICAL => 4
  end.

Definition fault_value (f : fault_type_t) : Z :=
  match f with
  | FAULT_NONE => 0 | FAULT_SENSOR_NOISE => 1 | FAULT_ACTUATOR_FAIL => 2
  | FAULT_COMM_BREAK => 3 | FAULT_POWER_SPIKE => 4 | FAULT_MEMORY_LEAK => 5
  end.

(** [level >= bound] on log levels. *)
Definition level_ge (level bound : log_level_t) : bool :=
  level_value bound <=? level_value level.

(** ** Records *)

Record log_entry_t := mk_log_entry {
  le_timestamp : Z;
  le_level : log_level_t;
  le_error_code : error_code_t;
  le_message : string;          (* char message[256] *)
  le_function : string;         (* char function[64] *)
  le_line_number : Z
}.

Record fault_record_t := mk_fault_record {
  fr_timestamp : Z;
  fr_fault_type : fault_type_t;
  fr_error_code : error_code_t;
  fr_resolved : bool;           (* uint8_t, only ever 0 or 1 *)
  fr_description : string       (* char description[128] *)
}.

Record system_health_t := mk_system_health {
  current_state : system_state_t;
  uptime_seconds : Z;           (* uint32_t *)
  h_fault_count : Z;            (* uint16_t health.fault_count *)
  recovery_count : Z;           (* uint16_t *)
  cpu_usage_percent : Z;
  memory_usage_percent : Z;
  last_health_check : Z         (* uint32_t *)
}.

(** The log sink: what this run wrote to it and its error indicator. *)
Record FILE := mk_FILE {
  f_written : list string;
  f_error : bool
}.

Record debug_monitor_t := mk_debug_monitor {
  log_buffer : list log_entry_t;        (* MAX_LOG_ENTRIES slots *)
  log_count : Z;
  fault_history : list fault_record_t;  (* MAX_FAULT_HISTORY slots *)
  fault_count : Z;                      (* records in fault_history *)
  health : system_health_t;
  log_file : option FILE;               (* None is the NULL pointer *)
  fault_injection_enabled : bool;
  active_fault : fault_type_t
}.

(** What [memset (monitor, 0, ...)] leaves in a slot. *)
Definition zero_log_entry : log_entry_t :=
  mk_log_entry 0 LOG_DEBUG ERR_NONE "" "" 0.
Definition zero_fault_record : fault_record_t :=
  mk_fault_record 0 FAULT_NONE ERR_NONE false "".

(** ** Operator-visible output *)

Inductive console_line :=
| OutLog (tag function : string) (line : Z) (message : string)
    (* "[%s] %s:%d - %s\n" of log_message *)
| OutText (text : string)
| OutHealth (h : system_health_t)
| OutLogEntry (tag message : string)
| OutFaultRecord (status description : string).

(** ** The world: monitor, statics, environment, output *)

(** One record per invocation of [log_message]: the state it found and its
    arguments.  The program never reads it; it is the history the
    properties below speak about. *)
Record append_event := mk_append_event {
  ev_state : system_state_t;
  ev_level : log_level_t;
  ev_error : error_code_t;
  ev_message : string;
  ev_function : string;
  ev_line : Z
}.

Record world := mk_world {
  monitor : debug_monitor_t;
  last_watchdog_feed : Z;       (* static time_t of check_system_health *)
  watchdog_logged : bool;       (* static int of check_system_health, 0/1 *)
  clock : nat -> Z;             (* the k-th call of time(NULL) returns clock k *)
  clock_reads : nat;
  rand_src : nat -> Z;          (* the k-th call of rand() returns rand_src k *)
  rand_draws : nat;
  sink_write_fails : bool;      (* whether writing to the sink sets ferror *)
  console : list console_line;  (* stdout, oldest line first *)
  appends : list append_event   (* history of log_message calls, oldest first *)
}.

(** Field updates. *)
Definition set_monitor (f : debug_monitor_t -> debug_monitor_t) (w : world) : world :=
  mk_world (f (monitor w)) (last_watchdog_feed w) (watchdog_logged w)
           (clock w) (clock_reads w) (rand_src w) (rand_draws w)
           (sink_write_fails w) (console w) (appends w).

Definition set_health (f : system_health_t -> system_health_t) (m : debug_monitor_t)
  : debug_monitor_t :=
  mk_debug_monitor (log_buffer m) (log_count m) (fault_history m) (fault_count m)
                   (f (health m)) (log_file m) (fault_injection_enabled m)
                   (active_fault m).

Definition set_log (buf : list log_entry_t) (n : Z) (m : debug_monitor_t)
  : debug_monitor_t :=
  mk_debug_monitor buf n (fault_history m) (fault_count m)
                   (health m) (log_file m) (fault_injection_enabled m)
                   (active_fault m).

Definition set_fault_history (h : list fault_record_t) (n : Z) (m : debug_monitor_t)
  : debug_monitor_t :=
  mk_debug_monitor (log_buffer m) (log_count m) h n
                   (health m) (log_file m) (fault_injection_enabled m)
                   (active_fault m).

Definition set_log_file (f : option FILE) (m : debug_monitor_t) : debug_monitor_t :=
  mk_debug_monitor (log_buffer m) (log_count m) (fault_history m) (fault_count m)
                   (health m) f (fault_injection_enabled m) (active_fault m).

Definition set_injection (en : bool) (f : fault_type_t) (m : debug_monitor_t)
  : debug_monitor_t :=
  mk_debug_monitor (log_buffer m) (log_count m) (fault_history m) (fault_count m)
                   (health m) (log_file m) en f.

Definition set_current_state (s : system_state_t) (h : system_health_t)
  : system_health_t :=
  mk_system_health s (uptime_seconds h) (h_fault_count h) (recovery_count h)
                   (cpu_usage_percent h) (memory_usage_percent h)
                   (last_health_check h).

Definition set_uptime_seconds (u : Z) (h : system_health_t) : system_health_t :=
  mk_system_health (current_state h) u (h_fault_count h) (recovery_count h)
                   (cpu_usage_percent h) (memory_usage_percent h)
                   (last_health_check h).

Definition set_h_fault_count (n : Z) (h : system_health_t) : system_health_t :=
  mk_system_health (current_state h) (uptime_seconds h) n (recovery_count h)
                   (cpu_usage_percent h) (memory_usage_percent h)
                   (last_health_check h).

Definition set_recovery_count (n : Z) (h : system_health_t) : system_health_t :=
  mk_system_health (current_state h) (uptime_seconds h) (h_fault_count h) n
                   (cpu_usage_percent h) (memory_usage_percent h)
                   (last_health_check h).

Definition set_gauges (cpu mem : Z) (h : system_health_t) : system_health_t :=
  mk_system_health (current_state h) (uptime_seconds h) (h_fault_count h)
                   (recovery_count h) cpu mem (last_health_check h).

Definition set_last_health_check (t : Z) (h : system_health_t) : system_health_t :=
  mk_system_health (current_state h) (uptime_seconds h) (h_fault_count h)
                   (recovery_count h) (cpu_usage_percent h)
                   (memory_usage_percent h) t.

Definition set_watchdog (feed : Z) (logged : bool) (w : world) : world :=
  mk_world (monitor w) feed logged
           (clock w) (clock_reads w) (rand_src w) (rand_draws w)
           (sink_write_fails w) (console w) (appends w).

Definition set_clock_reads (n : nat) (w : world) : world :=
  mk_world (monitor w) (last_watchdog_feed w) (watchdog_logged w)
           (clock w) n (rand_src w) (rand_draws w)
           (sink_write_fails w) (console w) (appends w).

Definition set_rand_draws (n : nat) (w : world) : world :=
  mk_world (monitor w) (last_watchdog_feed w) (watchdog_logged w)
           (clock w) (clock_reads w) (rand_src w) n
           (sink_write_fails w) (console w) (appends w).

Definition set_console (c : list console_line) (w : world) : world :=
  mk_world (monitor w) (last_watchdog_feed w) (watchdog_logged w)
           (clock w) (clock_reads w) (rand_src w) (rand_draws w)
           (sink_write_fails w) c (appends w).

Definition set_appends (a : list append_event) (w : world) : world :=
  mk_world (monitor w) (last_watchdog_feed w) (watchdog_logged w)
           (clock w) (clock_reads w) (rand_src w) (rand_draws w)
           (sink_write_fails w) (console w) a.

Definition state_of (w : world) : system_state_t := current_state (health (monitor w)).

(** ** A state monad over the world *)

Definition M (A : Type) : Type := world -> A * world.

Definition ret {A} (a : A) : M A := fun w => (a, w).
Definition bind {A B} (c : M A) (k : A -> M B) : M B :=
  fun w => let (a, w') := c w in k a w'.
Definition exec {A} (c : M A) (w : world) : world := snd (c w).

Notation "x <- c ;; k" := (bind c (fun x => k))
  (at level 100, c at next level, right associativity).
Notation "c ;; k" := (bind c (fun _ => k))
  (at level 100, right associativity).

Definition get_monitor : M debug_monitor_t := fun w => (monitor w, w).
Definition modify (f : debug_monitor_t -> debug_monitor_t) : M unit :=
  fun w => (tt, set_monitor f w).
Definition modify_health (f : system_health_t -> system_health_t) : M unit :=
  modify (set_health f).
Definition when (b : bool) (c : M unit) : M unit := if b then c else ret tt.

Definition get_last_watchdog_feed : M Z := fun w => (last_watchdog_feed w, w).
Definition get_watchdog_logged : M bool := fun w => (watchdog_logged w, w).
Definition set_last_watchdog_feed (t : Z) : M unit :=
  fun w => (tt, set_watchdog t (watchdog_logged w) w).
Definition set_watchdog_logged (b : bool) : M unit :=
  fun w => (tt, set_watchdog (last_watchdog_feed w) b w).
Definition get_sink_write_fails : M bool := fun w => (sink_write_fails w, w).

(** [time(NULL)] *)
Definition time : M Z := fun w =>
  (clock w (clock_reads w), set_clock_reads (S (clock_reads w)) w).

(** [rand()] *)
Definition rand : M Z := fun w =>
  (rand_src w (rand_draws w), set_rand_draws (S (rand_draws w)) w).

(** [printf] of one line *)
Definition printf (l : console_line) : M unit := fun w =>
  (tt, set_console (console w ++ [l]) w).

Definition record_append (e : append_event) : M unit := fun w =>
  (tt, set_appends (appends w ++ [e]) w).

(** ** log_message *)

(** [strncpy (dst, src, n)] into a zeroed field of [n + 1] bytes: the first
    [n] characters of [src]. *)
Definition strncpy (src : string) (n : nat) : string := String.substring 0 n src.

(** [memmove (&log_buffer[0], &log_buffer[1], sizeof(log_entry_t) * (MAX_LOG_ENTRIES - 1))]:
    slots 1 .. MAX_LOG_ENTRIES - 1 are copied one position down, the last
    slot keeps its content. *)
Definition memmove_log_buffer (buf : list log_entry_t) : list log_entry_t :=
  take (Z.to_nat (MAX_LOG_ENTRIES - 1)) (drop 1 buf)
  ++ drop (Z.to_nat (MAX_LOG_ENTRIES - 1)) buf.

(** Lines 367-381: make room if the buffer is full, then fill the slot
    [log_buffer[log_count++]].  (A negative [log_count] would index before
    the array in C; [Z.to_nat] clamps it to slot 0 here.  It never occurs:
    see [wf_monitor].) *)
Definition log_store (level : log_level_t) (error : error_code_t)
    (message function : string) (line : Z) : M unit :=
  when_full <- (m <- get_monitor ;; ret (MAX_LOG_ENTRIES <=? log_count m)) ;;
  when when_full
    (modify (fun m => set_log (memmove_log_buffer (log_buffer m))
                              (MAX_LOG_ENTRIES - 1) m)) ;;
  slot <- (m <- get_monitor ;; ret (log_count m)) ;;
  modify (fun m => set_log (log_buffer m) (log_count m + 1) m) ;;
  now <- time ;;
  modify (fun m =>
    set_log (<[Z.to_nat slot :=
               mk_log_entry now level error (strncpy message 255)
                            (strncpy function 63) line]> (log_buffer m))
            (log_count m) m).

Definition level_tag (level : log_level_t) : string :=
  if decide (level = LOG_WARNING) then "WARN"
  else if decide (level = LOG_ERROR) then "ERROR" else "CRIT".

Definition uint16 (n : Z) : Z := n mod 65536.
Definition uint32 (n : Z) : Z := n mod 4294967296.

(** The body of [log_message].  The function calls itself (through
    LOG_WARNING at line 396) when it escalates to STATE_FAULT, so the
    recursion is bounded by [fuel]; [None] means the fuel ran out. *)
Fixpoint log_message_rec (fuel : nat) (level : log_level_t) (error : error_code_t)
    (message function : string) (line : Z) (w : world) : option world :=
  match fuel with
  | O => None
  | S fuel' =>
    let w0 := exec (record_append
                      (mk_append_event (state_of w) level error message function line)) w in
    let w1 := exec (log_store level error message function line) w0 in
    let w2 := exec (when (level_ge level LOG_WARNING)
                      (printf (OutLog (level_tag level) function line message))) w1 in
    if level_ge level LOG_ERROR then
      let w3 := exec (modify_health
                        (fun h => set_h_fault_count (uint16 (h_fault_count h + 1)) h)) w2 in
      if decide (state_of w3 = STATE_RUNNING) then
        let w4 := exec (modify_health (set_current_state STATE_FAULT)) w3 in
        log_message_rec fuel' LOG_WARNING error "System entered fault state"
                        "log_message" 396 w4
      else Some w3
    else Some w2
  end.

(** Two activations always suffice (see [log_message_rec_enough]). *)
Definition log_message (level : log_level_t) (error : error_code_t)
    (message function : string) (line : Z) : M unit :=
  fun w => (tt, default w (log_message_rec 2 level error message function line w)).

Definition LOG_INFO_ (msg function : string) (line : Z) : M unit :=
  log_message LOG_INFO ERR_NONE msg function line.
Definition LOG_WARNING_ (error : error_code_t) (msg function : string) (line : Z) : M unit :=
  log_message LOG_WARNING error msg function line.
Definition LOG_ERROR_ (error : error_code_t) (msg function : string) (line : Z) : M unit :=
  log_message LOG_ERROR error msg function line.
Definition LOG_CRITICAL_ (error : error_code_t) (msg function : string) (line : Z) : M unit :=
  log_message LOG_CRITICAL error msg function line.

(** ** debug_init *)

Definition zero_monitor : debug_monitor_t :=
  mk_debug_monitor (replicate (Z.to_nat MAX_LOG_ENTRIES) zero_log_entry) 0
                   (replicate (Z.to_nat MAX_FAULT_HISTORY) zero_fault_record) 0
                   (mk_system_health STATE_INIT 0 0 0 0 0 0)
                   None false FAULT_NONE.

(** [fopen_result] is what [fopen (LOG_FILE_PATH, "a")] returns. *)
Definition debug_init (fopen_result : option FILE) : M unit :=
  modify (fun _ => zero_monitor) ;;
  modify (set_log_file fopen_result) ;;
  when (bool_decide (fopen_result = None))
    (printf (OutText "Warning: Could not open log file")) ;;
  modify_health (set_current_state STATE_INIT) ;;
  modify_health (set_uptime_seconds 0) ;;
  now <- time ;;
  modify_health (set_last_health_check (uint32 now)) ;;
  _seed <- time ;;
  LOG_INFO_ "Debug monitoring system initialized" "debug_init" 333 ;;
  modify_health (set_current_state STATE_RUNNING) ;;
  LOG_INFO_ "System transitioned to RUNNING state" "debug_init" 337.

(** The world in which [main] starts: statics zero, nothing printed. *)
Definition boot (clk rnd : nat -> Z) (write_fails : bool) : world :=
  mk_world zero_monitor 0 false clk 0 rnd 0 write_fails [] [].

Definition initial_world (clk rnd : nat -> Z) (fopen_result : option FILE)
    (write_fails : bool) : world :=
  exec (debug_init fopen_result) (boot clk rnd write_fails).

(** ** inject_fault *)

(** The slot [*record] after lines 412-416: [error_code] is not assigned and
    keeps what the slot held. *)
Definition injected_record (now : Z) (fault : fault_type_t) (r : fault_record_t)
  : fault_record_t :=
  mk_fault_record now fault (fr_error_code r) false
                  ("Injected fault: " +:+ pretty (fault_value fault)).

Definition inject_fault (fault : fault_type_t) : M unit :=
  modify (set_injection true fault) ;;
  has_room <- (m <- get_monitor ;; ret (fault_count m <? MAX_FAULT_HISTORY)) ;;
  when has_room
    (slot <- (m <- get_monitor ;; ret (fault_count m)) ;;
     modify (fun m => set_fault_history (fault_history m) (fault_count m + 1) m) ;;
     now <- time ;;
     modify (fun m =>
       set_fault_history
         (alter (injected_record now fault) (Z.to_nat slot) (fault_history m))
         (fault_count m) m)) ;;
  LOG_WARNING_ ERR_NONE "Fault injection activated" "inject_fault" 419.

(** ** check_system_health *)

(** Lines 429-443: uptime, the two simulated gauges and their thresholds. *)
Definition monitor_gauges (current_time : Z) : M unit :=
  modify_health (fun h =>
    set_uptime_seconds (uint32 (current_time - last_health_check h)) h) ;;
  r1 <- rand ;;
  modify_health (fun h => set_gauges (10 + Z.rem r1 40) (memory_usage_percent h) h) ;;
  r2 <- rand ;;
  modify_health (fun h => set_gauges (cpu_usage_percent h) (20 + Z.rem r2 60) h) ;;
  cpu_high <- (m <- get_monitor ;; ret (90 <? cpu_usage_percent (health m))) ;;
  when cpu_high
    (LOG_ERROR_ ERR_SYSTEM_OVERLOAD "CPU usage critical" "check_system_health" 438) ;;
  mem_high <- (m <- get_monitor ;; ret (85 <? memory_usage_percent (health m))) ;;
  when mem_high
    (LOG_ERROR_ ERR_MEMORY_CORRUPTION "Memory usage critical" "check_system_health" 442).

(** Lines 445-459: the watchdog simulation with its two statics. *)
Definition watchdog_simulation (current_time : Z) : M unit :=
  feed <- get_last_watchdog_feed ;;
  if feed =? 0 then
    set_last_watchdog_feed current_time ;;
    set_watchdog_logged false
  else if 5 <=? current_time - feed then
    logged <- get_watchdog_logged ;;
    when (negb logged)
      (LOG_CRITICAL_ ERR_WATCHDOG_TIMEOUT "Watchdog timeout detected"
                     "check_system_health" 454 ;;
       set_watchdog_logged true) ;;
    set_last_watchdog_feed current_time
  else ret tt.

Definition check_system_health : M unit :=
  current_time <- time ;;
  monitor_gauges current_time ;;
  watchdog_simulation current_time ;;
  modify_health (set_last_health_check (uint32 current_time)).

(** ** attempt_fault_recovery *)

(** [fault_history[i].resolved = 1] *)
Definition mark_resolved (r : fault_record_t) : fault_record_t :=
  mk_fault_record (fr_timestamp r) (fr_fault_type r) (fr_error_code r) true
                  (fr_description r).

(** The loop [for (i = 0; i < fault_count; i++)] from index [i], with at
    most [fuel] iterations left. *)
Fixpoint recovery_loop (fuel : nat) (i : Z) : M unit :=
  match fuel with
  | O => ret tt
  | S fuel' =>
    m <- get_monitor ;;
    if i <? fault_count m then
      match fault_history m !! Z.to_nat i with
      | Some r =>
        when (negb (fr_resolved r))
          (modify (fun m =>
             set_fault_history
               (alter mark_resolved (Z.to_nat i) (fault_history m))
               (fault_count m) m) ;;
           LOG_INFO_ "Fault resolved in recovery attempt" "attempt_fault_recovery" 488)
      | None => ret tt   (* outside the array; excluded by [wf_monitor] *)
      end ;;
      recovery_loop fuel' (i + 1)
    else ret tt
  end.

Definition attempt_fault_recovery : M unit :=
  m <- get_monitor ;;
  if negb (bool_decide (current_state (health m) = STATE_FAULT)) then
    LOG_INFO_ "No faults to recover from" "attempt_fault_recovery" 470
  else
    LOG_INFO_ "Attempting fault recovery" "attempt_fault_recovery" 474 ;;
    modify (set_injection false FAULT_NONE) ;;
    modify_health (set_current_state STATE_RECOVERY) ;;
    modify_health (fun h => set_recovery_count (uint16 (recovery_count h + 1)) h) ;;
    m <- get_monitor ;;
    recovery_loop (Z.to_nat (fault_count m)) 0 ;;
    (* usleep (2000000) *)
    modify_health (set_current_state STATE_RUNNING) ;;
    LOG_INFO_ "Fault recovery successful" "attempt_fault_recovery" 498 ;;
    r1 <- rand ;;
    modify_health (fun h => set_gauges (15 + Z.rem r1 20) (memory_usage_percent h) h) ;;
    r2 <- rand ;;
    modify_health (fun h => set_gauges (cpu_usage_percent h) (25 + Z.rem r2 25) h).

(** ** save_log_to_file, debug_shutdown *)

Definition save_log_to_file : M unit :=
  m <- get_monitor ;;
  match log_file m with
  | None => LOG_ERROR_ ERR_FILE_IO_ERROR "Log file not available" "save_log_to_file" 511
  | Some f =>
    fails <- get_sink_write_fails ;;
    modify (set_log_file
              (Some (mk_FILE (f_written f ++ ["=== Log Session End ==="])
                             (f_error f || fails)))) ;;
    when (f_error f || fails)
      (LOG_ERROR_ ERR_FILE_IO_ERROR "Error writing to log file" "save_log_to_file" 520 ;;
       modify (fun m =>
         set_log_file
           (match log_file m with
            | Some f => Some (mk_FILE (f_written f) false)
            | None => None
            end) m))
  end.

(** How a call that may hit [assert] ends. *)
Inductive outcome :=
| Returned (w : world)
| Aborted (w : world).

Definition world_of (o : outcome) : world :=
  match o with Returned w | Aborted w => w end.

(** The macro [ASSERT_STATE (monitor, condition, error, msg)]: log at
    Critical level, then [assert] the condition again. *)
Definition ASSERT_STATE (condition : debug_monitor_t -> bool) (error : error_code_t)
    (msg function : string) (line : Z) (w : world) : outcome :=
  if negb (condition (monitor w)) then
    let w' := exec (LOG_CRITICAL_ error msg function line) w in
    (* assert (condition) *)
    if condition (monitor w') then Returned w' else Aborted w'
  else Returned w.

(** The macro call spans lines 357-358; [__LINE__] is taken as 357. *)
Definition debug_shutdown (w : world) : outcome :=
  let w1 := exec (LOG_INFO_ "Shutting down debug monitoring system" "debug_shutdown" 345 ;;
                  save_log_to_file ;;
                  m <- get_monitor ;;
                  when (negb (bool_decide (log_file m = None)))
                    ((* fclose *) modify (set_log_file None))) w in
  ASSERT_STATE (fun m => negb (bool_decide (current_state (health m) = STATE_FAULT)))
               ERR_INVALID_STATE "System shutdown with unresolved faults"
               "debug_shutdown" 357 w1.

(** ** display_debug_info *)

Definition entry_tag (level : log_level_t) : string :=
  match level with
  | LOG_DEBUG => "DBG" | LOG_INFO => "INF" | LOG_WARNING => "WRN"
  | LOG_ERROR => "ERR" | LOG_CRITICAL => "CRT"
  end.

Fixpoint print_all (ls : list console_line) : M unit :=
  match ls with
  | [] => ret tt
  | l :: ls' => printf l ;; print_all ls'
  end.

Definition display_debug_info : M unit :=
  m <- get_monitor ;;
  printf (OutText "=== Debug Information ===") ;;
  printf (OutHealth (health m)) ;;
  printf (OutText "Recent Log Entries:") ;;
  (let start := if 5 <? log_count m then log_count m - 5 else 0 in
   print_all
     (map (fun e => OutLogEntry (entry_tag (le_level e)) (le_message e))
          (take (Z.to_nat (log_count m - start))
                (drop (Z.to_nat start) (log_buffer m))))) ;;
  printf (OutText "Fault History:") ;;
  print_all
    (map (fun r => OutFaultRecord (if fr_resolved r then "RESOLVED" else "ACTIVE")
                                  (fr_description r))
         (take (Z.to_nat (fault_count m)) (fault_history m))).

(** ** Operations offered to the surrounding program *)

Inductive operation :=
| OpLog (level : log_level_t) (error : error_code_t) (message function : string) (line : Z)
| OpInject (fault : fault_type_t)
| OpTick
| OpRecover
| OpDisplay.

Definition step (op : operation) : M unit :=
  match op with
  | OpLog level error message function line =>
      log_message level error message function line
  | OpInject fault => inject_fault fault
  | OpTick => check_system_health
  | OpRecover => attempt_fault_recovery
  | OpDisplay => display_debug_info
  end.

Fixpoint run (ops : list operation) (w : world) : world :=
  match ops with
  | [] => w
  | op :: ops' => run ops' (exec (step op) w)
  end.

(** * The rest of the program: assertion, simulated components, main loop *)

(** ** assert_system_state *)

Definition state_value (s : system_state_t) : Z :=
  match s with
  | STATE_INIT => 0 | STATE_RUNNING => 1 | STATE_FAULT => 2
  | STATE_RECOVERY => 3 | STATE_SHUTDOWN => 4
  end.

(** Lines 569-577.  The text of [snprintf] is at most 23 characters and fits
    the 128 bytes of [msg]. *)
Definition assert_system_state (expected_state : system_state_t) (w : world) : outcome :=
  if negb (bool_decide (current_state (health (monitor w)) = expected_state)) then
    let msg := "Expected state " +:+ pretty (state_value expected_state)
               +:+ ", got " +:+ pretty (state_value (current_state (health (monitor w)))) in
    let w' := exec (LOG_CRITICAL_ ERR_INVALID_STATE msg "assert_system_state" 574) w in
    (* assert (monitor->health.current_state == expected_state) *)
    if bool_decide (current_state (health (monitor w')) = expected_state)
    then Returned w' else Aborted w'
  else Returned w.

(** ** The statics of [main] and of the simulated components *)

(** The world together with the function-level [static int] counters, all 0
    when the program starts.  They are kept as integers: the [int] of the
    code agrees with them as long as a counter stays below [INT_MAX]. *)
Record sim := mk_sim {
  core : world;
  fault_call_count : Z;        (* main, line 241 *)
  last_fault_trigger : Z;      (* main, line 242 *)
  consecutive_failures : Z;    (* simulate_sensor_reading *)
  noise_count : Z;             (* simulate_sensor_noise *)
  actuator_count : Z;          (* simulate_actuator_failure *)
  comm_count : Z;              (* simulate_communication_break *)
  power_count : Z;             (* simulate_power_fluctuation *)
  memory_count : Z             (* simulate_memory_corruption *)
}.

Definition INT_MAX : Z := 2147483647.

Definition set_core (w : world) (s : sim) : sim :=
  mk_sim w (fault_call_count s) (last_fault_trigger s) (consecutive_failures s)
         (noise_count s) (actuator_count s) (comm_count s) (power_count s)
         (memory_count s).
Definition set_fault_call_count (n : Z) (s : sim) : sim :=
  mk_sim (core s) n (last_fault_trigger s) (consecutive_failures s)
         (noise_count s) (actuator_count s) (comm_count s) (power_count s)
         (memory_count s).
Definition set_last_fault_trigger (n : Z) (s : sim) : sim :=
  mk_sim (core s) (fault_call_count s) n (consecutive_failures s)
         (noise_count s) (actuator_count s) (comm_count s) (power_count s)
         (memory_count s).
Definition set_consecutive_failures (n : Z) (s : sim) : sim :=
  mk_sim (core s) (fault_call_count s) (last_fault_trigger s) n
         (noise_count s) (actuator_count s) (comm_count s) (power_count s)
         (memory_count s).
Definition set_noise_count (n : Z) (s : sim) : sim :=
  mk_sim (core s) (fault_call_count s) (last_fault_trigger s) (consecutive_failures s)
         n (actuator_count s) (comm_count s) (power_count s) (memory_count s).
Definition set_actuator_count (n : Z) (s : sim) : sim :=
  mk_sim (core s) (fault_call_count s) (last_fault_trigger s) (consecutive_failures s)
         (noise_count s) n (comm_count s) (power_count s) (memory_count s).
Definition set_comm_count (n : Z) (s : sim) : sim :=
  mk_sim (core s) (fault_call_count s) (last_fault_trigger s) (consecutive_failures s)
         (noise_count s) (actuator_count s) n (power_count s) (memory_count s).
Definition set_power_count (n : Z) (s : sim) : sim :=
  mk_sim (core s) (fault_call_count s) (last_fault_trigger s) (consecutive_failures s)
         (noise_count s) (actuator_count s) (comm_count s) n (memory_count s).
Definition set_memory_count (n : Z) (s : sim) : sim :=
  mk_sim (core s) (fault_call_count s) (last_fault_trigger s) (consecutive_failures s)
         (noise_count s) (actuator_count s) (comm_count s) (power_count s) n.

(** A computation on the monitor, run inside the program. *)
Definition on_core {A} (c : M A) (s : sim) : A * sim :=
  let (a, w) := c (core s) in (a, set_core w s).
Definition do_core (c : M unit) (s : sim) : sim := set_core (exec c (core s)) s.

(** ** The simulated components *)

(** Lines 581-597. *)
Definition simulate_sensor_reading (s : sim) : Z * sim :=
  let (r1, s) := on_core rand s in
  let reading := Z.rem r1 100 in
  let (r2, s) := on_core rand s in
  if Z.rem r2 100 <? 5 then
    let s := set_consecutive_failures (consecutive_failures s + 1) s in
    if 3 <? consecutive_failures s then
      (-1, do_core (LOG_ERROR_ ERR_SENSOR_FAILURE "Sensor failure detected"
                               "simulate_sensor_reading" 589) s)
    else (reading, s)
  else (reading, set_consecutive_failures 0 s).

(** Lines 599-608. *)
Definition simulate_actuator_control (command : Z) (s : sim) : Z * sim :=
  if (command <? 0) || (100 <? command) then
    (-1, do_core (LOG_WARNING_ ERR_INVALID_STATE "Invalid actuator command"
                               "simulate_actuator_control" 602) s)
  else (command, s).

(** Lines 610-613. *)
Definition simulate_communication (s : sim) : Z * sim := (0, s).

(** Lines 615-623.  The voltage is kept in hundredths of a volt, as the
    integer [2400 + (rand () % 200 - 100)]; the code holds it as a [float],
    [24.0f + x / 100.0f], rounded.  The two comparisons are not affected:
    rounding is monotone and exact at [x = -200] and [x = 200], where the
    float is 22.0 and 26.0. *)
Definition simulate_power_monitoring (s : sim) : Z * sim :=
  let (r, s) := on_core rand s in
  let voltage := 2400 + (Z.rem r 200 - 100) in
  if (voltage <? 2200) || (2600 <? voltage) then
    (voltage, do_core (LOG_WARNING_ ERR_POWER_FLUCTUATION "Power fluctuation detected"
                                    "simulate_power_monitoring" 619) s)
  else (voltage, s).

(** ** The fault generators, lines 627-670 *)

Definition simulate_sensor_noise (s : sim) : sim :=
  let s := set_noise_count (noise_count s + 1) s in
  if Z.rem (noise_count s) 5 =? 0 then
    do_core (LOG_WARNING_ ERR_SENSOR_FAILURE "Sensor noise simulation active"
                          "simulate_sensor_noise" 631) s
  else s.

Definition simulate_actuator_failure (s : sim) : sim :=
  let s := set_actuator_count (actuator_count s + 1) s in
  if Z.rem (actuator_count s) 5 =? 0 then
    do_core (LOG_ERROR_ ERR_ACTUATOR_STUCK "Actuator failure simulation active"
                        "simulate_actuator_failure" 640) s
  else s.

Definition simulate_communication_break (s : sim) : sim :=
  let s := set_comm_count (comm_count s + 1) s in
  if Z.rem (comm_count s) 5 =? 0 then
    do_core (LOG_ERROR_ ERR_COMMUNICATION_LOST "Communication break simulation active"
                        "simulate_communication_break" 649) s
  else s.

Definition simulate_power_fluctuation (s : sim) : sim :=
  let s := set_power_count (power_count s + 1) s in
  if Z.rem (power_count s) 5 =? 0 then
    do_core (LOG_WARNING_ ERR_POWER_FLUCTUATION "Power fluctuation simulation active"
                          "simulate_power_fluctuation" 658) s
  else s.

Definition simulate_memory_corruption (s : sim) : sim :=
  let s := set_memory_count (memory_count s + 1) s in
  if Z.rem (memory_count s) 5 =? 0 then
    do_core (LOG_CRITICAL_ ERR_MEMORY_CORRUPTION "Memory corruption simulation active"
                           "simulate_memory_corruption" 667) s
  else s.

(** ** main *)

(** The [switch] of lines 248-266: the generator of an active fault. *)
Definition simulate_fault (fault : fault_type_t) (s : sim) : sim :=
  match fault with
  | FAULT_SENSOR_NOISE => simulate_sensor_noise s
  | FAULT_ACTUATOR_FAIL => simulate_actuator_failure s
  | FAULT_COMM_BREAK => simulate_communication_break s
  | FAULT_POWER_SPIKE => simulate_power_fluctuation s
  | FAULT_MEMORY_LEAK => simulate_memory_corruption s
  | FAULT_NONE => s
  end.

(** Lines 240-268. *)
Definition fault_effects (s : sim) : sim :=
  if fault_injection_enabled (monitor (core s)) then
    let s := set_fault_call_count (fault_call_count s + 1) s in
    if (Z.rem (fault_call_count s) 4 =? 0)
       && negb (fault_call_count s =? last_fault_trigger s) then
      let s := set_last_fault_trigger (fault_call_count s) s in
      simulate_fault (active_fault (monitor (core s))) s
    else s
  else s.

(** The value [rand () % 5 + 1] as a [fault_type_t].  [rand] returns a value
    in [0, RAND_MAX], so the argument is one of 1 .. 5. *)
Definition fault_of_int (v : Z) : fault_type_t :=
  if v =? 1 then FAULT_SENSOR_NOISE
  else if v =? 2 then FAULT_ACTUATOR_FAIL
  else if v =? 3 then FAULT_COMM_BREAK
  else if v =? 4 then FAULT_POWER_SPIKE
  else if v =? 5 then FAULT_MEMORY_LEAK
  else FAULT_NONE.

(** The [switch] on the key read, lines 273-292; the result is
    [simulation_running]. *)
Definition handle_command (command : ascii) (s : sim) : bool * sim :=
  if Ascii.eqb command "q"%char then
    (false, do_core (LOG_INFO_ "User requested system shutdown" "main" 275) s)
  else if Ascii.eqb command "f"%char then
    let (r, s) := on_core rand s in
    (true, do_core (inject_fault (fault_of_int (Z.rem r 5 + 1))) s)
  else if Ascii.eqb command "r"%char then
    (true, do_core attempt_fault_recovery s)
  else if Ascii.eqb command "d"%char then
    (true, do_core display_debug_info s)
  else
    (true, do_core (printf (OutText "Unknown command. Use: f, r, d, q")) s).

(** Lines 296-299: the four simulated operations; their results are
    discarded. *)
Definition normal_operations (s : sim) : sim :=
  let (_, s) := simulate_sensor_reading s in
  let (r, s) := on_core rand s in
  let (_, s) := simulate_actuator_control (Z.rem r 100) s in
  let (_, s) := simulate_communication s in
  let (_, s) := simulate_power_monitoring s in
  s.

(** One turn of the loop, lines 235-301.  [key] is what the keyboard holds:
    [None] when [kbhit] finds nothing, [Some c] when [getch] returns [c]. *)
Definition iteration (key : option ascii) (s : sim) : bool * sim :=
  let s := do_core check_system_health s in
  let s := fault_effects s in
  let (running, s) := match key with
                      | Some command => handle_command command s
                      | None => (true, s)
                      end in
  let s := normal_operations s in
  (* usleep (100000) *)
  (running, s).

(** The loop over the keys the user presses, one element for each turn; the
    result says whether the loop is still running when the keys are used up. *)
Fixpoint main_loop (keys : list (option ascii)) (s : sim) : bool * sim :=
  match keys with
  | [] => (true, s)
  | key :: keys' =>
      let (running, s') := iteration key s in
      if running then main_loop keys' s' else (false, s')
  end.

(** Lines 224-232. *)
Definition main_start (fopen_result : option FILE) : M unit :=
  printf (OutText "Debugging & Fault Simulation System") ;;
  printf (OutText "===================================") ;;
  debug_init fopen_result ;;
  LOG_INFO_ "System initialization started" "main" 229 ;;
  printf (OutText "System initialized. Starting fault simulation...") ;;
  printf (OutText "Commands: f (inject fault), r (attempt recovery), d (debug info), q (quit)").

Inductive main_result :=
| Exit (code : Z) (w : world)    (* [return 0] *)
| Abort (w : world)              (* the assertion of [debug_shutdown] failed *)
| Looping (s : sim).             (* the keys are used up, the loop goes on *)

(** The program when the loop is entered: the statics are 0. *)
Definition main_init (clk rnd : nat -> Z) (fopen_result : option FILE)
    (write_fails : bool) : sim :=
  mk_sim (exec (main_start fopen_result) (boot clk rnd write_fails))
         0 0 0 0 0 0 0 0.

Definition main (clk rnd : nat -> Z) (fopen_result : option FILE) (write_fails : bool)
    (keys : list (option ascii)) : main_result :=
  let (running, s) := main_loop keys (main_init clk rnd fopen_result write_fails) in
  if running then Looping s
  else match debug_shutdown (core s) with
       | Returned w => Exit 0 (exec (printf (OutText "System shutdown complete.")) w)
       | Aborted w => Abort w
       end.

(** * Properties *)

(** ** What one call of [log_message] does, in closed form *)

Definition new_entry (now : Z) (level : log_level_t) (error : error_code_t)
    (message function : string) (line : Z) : log_entry_t :=
  mk_log_entry now level error (strncpy message 255) (strncpy function 63) line.

(** The effect of lines 367-381 on the monitor. *)
Definition store_entry (e : log_entry_t) (m : debug_monitor_t) : debug_monitor_t :=
  let full := MAX_LOG_ENTRIES <=? log_count m in
  let buf := if full then memmove_log_buffer (log_buffer m) else log_buffer m in
  let cnt := if full then MAX_LOG_ENTRIES - 1 else log_count m in
  set_log (<[Z.to_nat cnt := e]> buf) (cnt + 1) m.

Definition escalates (level : log_level_t) (s : system_state_t) : bool :=
  level_ge level LOG_ERROR && bool_decide (s = STATE_RUNNING).

Definition bump_fault_count (h : system_health_t) : system_health_t :=
  set_h_fault_count (uint16 (h_fault_count h + 1)) h.

Definition fault_state_message : string := "System entered fault state".

Definition log_effect (t1 t2 : Z) (level : log_level_t) (error : error_code_t)
    (message function : string) (line : Z) (m : debug_monitor_t) : debug_monitor_t :=
  let m1 := store_entry (new_entry t1 level error message function line) m in
  if level_ge level LOG_ERROR then
    let m2 := set_health bump_fault_count m1 in
    if bool_decide (current_state (health m) = STATE_RUNNING) then
      store_entry (new_entry t2 LOG_WARNING error fault_state_message "log_message" 396)
                  (set_health (set_current_state STATE_FAULT) m2)
    else m2
  else m1.

Definition log_events (level : log_level_t) (error : error_code_t)
    (message function : string) (line : Z) (s : system_state_t) : list append_event :=
  mk_append_event s level error message function line
  :: (if escalates level s
      then [mk_append_event STATE_FAULT LOG_WARNING error fault_state_message
                            "log_message" 396]
      else []).

Definition log_result (level : log_level_t) (error : error_code_t)
    (message function : string) (line : Z) (w : world) : world :=
  let esc := escalates level (state_of w) in
  mk_world
    (log_effect (clock w (clock_reads w)) (clock w (S (clock_reads w)))
                level error message function line (monitor w))
    (last_watchdog_feed w) (watchdog_logged w)
    (clock w) (if esc then S (S (clock_reads w)) else S (clock_reads w))
    (rand_src w) (rand_draws w) (sink_write_fails w)
    (let out := if level_ge level LOG_WARNING
                then console w ++ [OutLog (level_tag level) function line message]
                else console w in
     if esc then out ++ [OutLog "WARN" "log_message" 396 fault_state_message]
     else out)
    (let evs := appends w
                ++ [mk_append_event (state_of w) level error message function line] in
     if esc
     then evs ++ [mk_append_event STATE_FAULT LOG_WARNING error fault_state_message
                                  "log_message" 396]
     else evs).

Lemma log_store_eq level error message function line w :
  log_store level error message function line w
  = (tt, set_monitor
           (store_entry (new_entry (clock w (clock_reads w)) level error
                                   message function line))
           (set_clock_reads (S (clock_reads w)) w)).
Proof.
  destruct w as [m ? ? ? ? ? ? ? ? ?].
  unfold log_store, store_entry, bind, get_monitor, ret, when, modify, time,
    set_monitor, set_clock_reads, new_entry; simpl.
  destruct (MAX_LOG_ENTRIES <=? log_count m); reflexivity.
Qed.

Lemma log_message_rec_S fuel level error message function line w :
  log_message_rec (S (S fuel)) level error message function line w
  = Some (log_result level error message function line w).
Proof.
  destruct w as [m feed logged clk reads rnd draws fails out evs].
  destruct m as [buf cnt fh fc h lf en af].
  destruct h as [st up hfc rc cpu mem lhc].
  unfold log_result, log_effect, escalates.
  cbn [log_message_rec]. unfold exec. rewrite !log_store_eq.
  destruct level, st; reflexivity.
Qed.

(** [log_message] is total: every fuel of at least two gives its result. *)
Lemma log_message_rec_enough fuel level error message function line w :
  (2 <= fuel)%nat ->
  log_message_rec fuel level error message function line w
  = Some (exec (log_message level error message function line) w).
Proof.
  intros Hfuel. destruct fuel as [|[|fuel]]; [lia | lia |].
  unfold log_message, exec; cbn [snd].
  rewrite !log_message_rec_S. reflexivity.
Qed.

Lemma log_message_eq level error message function line w :
  log_message level error message function line w
  = (tt, log_result level error message function line w).
Proof. unfold log_message. rewrite log_message_rec_S. reflexivity. Qed.

Lemma log_result_state level error message function line w :
  state_of (log_result level error message function line w)
  = if escalates level (state_of w) then STATE_FAULT else state_of w.
Proof.
  unfold log_result, log_effect, escalates, state_of; simpl.
  destruct (level_ge level LOG_ERROR); simpl; [|reflexivity].
  destruct (bool_decide _); reflexivity.
Qed.

Lemma log_result_appends level error message function line w :
  appends (log_result level error message function line w)
  = appends w ++ log_events level error message function line (state_of w).
Proof.
  unfold log_result, log_events; simpl.
  destruct (escalates _ _); [rewrite <- app_assoc|]; reflexivity.
Qed.

(** ** Sequencing rules *)

Lemma exec_bind {A B} (c : M A) (k : A -> M B) w :
  exec (bind c k) w = exec (k (c w).1) (c w).2.
Proof. unfold exec, bind. destruct (c w); reflexivity. Qed.

Lemma exec_when_true c w : exec (when true c) w = exec c w.
Proof. reflexivity. Qed.

Lemma exec_when_false c w : exec (when false c) w = w.
Proof. reflexivity. Qed.

Lemma exec_log_message level error message function line w :
  exec (log_message level error message function line) w
  = log_result level error message function line w.
Proof. unfold exec. rewrite log_message_eq. reflexivity. Qed.

(** [preserves I c]: running [c] from a world in [I] ends in [I]. *)
Definition preserves {A} (I : world -> Prop) (c : M A) : Prop :=
  forall w, I w -> I (c w).2.

Section Preserves.
Context (I : world -> Prop).

Lemma preserves_ret {A} (a : A) : preserves I (ret a).
Proof. intros w Hw; exact Hw. Qed.

Lemma preserves_bind {A B} (c : M A) (k : A -> M B) :
  preserves I c -> (forall a, preserves I (k a)) -> preserves I (bind c k).
Proof.
  intros Hc Hk w Hw. unfold bind. specialize (Hc w Hw).
  destruct (c w) as [a w1]. apply Hk, Hc.
Qed.

Lemma preserves_when b c : preserves I c -> preserves I (when b c).
Proof. intros Hc. destruct b; [exact Hc | apply preserves_ret]. Qed.

Lemma preserves_get_monitor : preserves I get_monitor.
Proof. intros w Hw; exact Hw. Qed.

Lemma preserves_get_last_watchdog_feed : preserves I get_last_watchdog_feed.
Proof. intros w Hw; exact Hw. Qed.

Lemma preserves_get_watchdog_logged : preserves I get_watchdog_logged.
Proof. intros w Hw; exact Hw. Qed.

Lemma preserves_get_sink_write_fails : preserves I get_sink_write_fails.
Proof. intros w Hw; exact Hw. Qed.

Lemma preserves_print_all ls :
  (forall l, preserves I (printf l)) -> preserves I (print_all ls).
Proof.
  intros Hp. induction ls as [|l ls IH]; simpl.
  - apply preserves_ret.
  - apply preserves_bind; [apply Hp | intros _; exact IH].
Qed.
End Preserves.

Lemma preserves_exec {A} (I : world -> Prop) (c : M A) w :
  preserves I c -> I w -> I (exec c w).
Proof. intros Hc Hw. apply Hc, Hw. Qed.

(** ** The state machine seen through the history of appends *)

Definition next_state (s : system_state_t) (e : append_event) : system_state_t :=
  if escalates (ev_level e) s then STATE_FAULT else s.

Fixpoint replay (s : system_state_t) (evs : list append_event) : system_state_t :=
  match evs with
  | [] => s
  | e :: evs' => replay (next_state s e) evs'
  end.

(** Every event carries the state the replay has reached. *)
Fixpoint coherent (s : system_state_t) (evs : list append_event) : Prop :=
  match evs with
  | [] => True
  | e :: evs' => ev_state e = s /\ coherent (next_state s e) evs'
  end.

(** [tracked w0 w]: between [w0] and [w] the state changed only as the
    appended events dictate. *)
Definition tracked (w0 w : world) : Prop :=
  exists new, appends w = appends w0 ++ new
              /\ coherent (state_of w0) new
              /\ state_of w = replay (state_of w0) new.

Lemma replay_app s evs1 evs2 :
  replay s (evs1 ++ evs2) = replay (replay s evs1) evs2.
Proof. revert s. induction evs1 as [|e evs1 IH]; intros s; simpl; auto. Qed.

Lemma coherent_app s evs1 evs2 :
  coherent s (evs1 ++ evs2) <-> coherent s evs1 /\ coherent (replay s evs1) evs2.
Proof.
  revert s. induction evs1 as [|e evs1 IH]; intros s; simpl.
  - tauto.
  - rewrite IH. tauto.
Qed.

Lemma tracked_refl w : tracked w w.
Proof. exists []. rewrite app_nil_r. simpl. auto. Qed.

Lemma tracked_trans w0 w1 w2 : tracked w0 w1 -> tracked w1 w2 -> tracked w0 w2.
Proof.
  intros (n1 & Ha1 & Hc1 & Hs1) (n2 & Ha2 & Hc2 & Hs2).
  exists (n1 ++ n2). split; [|split].
  - rewrite Ha2, Ha1, app_assoc. reflexivity.
  - apply coherent_app. rewrite <- Hs1. auto.
  - rewrite replay_app, <- Hs1. exact Hs2.
Qed.

(** A step that leaves both the history and the state alone. *)
Lemma tracked_quiet w0 w w' :
  appends w' = appends w -> state_of w' = state_of w -> tracked w0 w -> tracked w0 w'.
Proof.
  intros Ha Hs (new & H1 & H2 & H3). exists new.
  rewrite Ha, Hs. auto.
Qed.

Lemma replay_fault evs : replay STATE_FAULT evs = STATE_FAULT.
Proof.
  induction evs as [|e evs IH]; simpl; [reflexivity|].
  unfold next_state, escalates. rewrite bool_decide_eq_false_2 by discriminate.
  rewrite andb_false_r. exact IH.
Qed.

Definition escalating (e : append_event) : Prop :=
  level_ge (ev_level e) LOG_ERROR = true /\ ev_state e = STATE_RUNNING.

Lemma coherent_fault_iff s evs :
  coherent s evs ->
  (s <> STATE_FAULT /\ replay s evs = STATE_FAULT)
  <-> (exists e, e ∈ evs /\ escalating e).
Proof.
  revert s. induction evs as [|e evs IH]; intros s Hc; simpl in *.
  - split.
    + intros [Hne Heq]; contradiction.
    + intros (e & He & _). inversion He.
  - destruct Hc as [Hst Hc]. specialize (IH _ Hc).
    unfold next_state in *.
    destruct (escalates (ev_level e) s) eqn:Hesc.
    + unfold escalates in Hesc. apply andb_true_iff in Hesc as [Hlvl Hrun].
      apply bool_decide_eq_true_1 in Hrun. split.
      * intros _. exists e. split; [left | split; congruence].
      * intros _. split; [congruence | apply replay_fault].
    + assert (Hne : ~ escalating e).
      { intros [Hlvl Hrun]. unfold escalates in Hesc.
        rewrite Hlvl, bool_decide_eq_true_2 in Hesc by congruence. discriminate. }
      rewrite IH. split.
      * intros (e' & He' & H'). exists e'. split; [right; exact He' | exact H'].
      * intros (e' & He' & H'). apply elem_of_cons in He'. destruct He' as [-> | He'].
        -- contradiction.
        -- exists e'. auto.
Qed.

(** ** Walking through a computation, statement by statement *)

Ltac walk_with tac :=
  repeat
    match goal with
    | |- preserves _ (ret _) => apply preserves_ret
    | |- preserves _ get_monitor => apply preserves_get_monitor
    | |- preserves _ get_last_watchdog_feed => apply preserves_get_last_watchdog_feed
    | |- preserves _ get_watchdog_logged => apply preserves_get_watchdog_logged
    | |- preserves _ get_sink_write_fails => apply preserves_get_sink_write_fails
    | |- preserves _ (bind _ _) => apply preserves_bind; [|intros ?]
    | |- preserves _ (when _ _) => apply preserves_when
    | |- preserves _ (print_all _) => apply preserves_print_all; intros ?
    | |- preserves _ (if ?b then _ else _) => destruct b
    | |- preserves _ (match ?x with _ => _ end) => destruct x
    | |- preserves _ _ => tac
    end.

(** *** Steps that follow the history *)

Lemma tracked_modify w0 f :
  (forall m, current_state (health (f m)) = current_state (health m)) ->
  preserves (tracked w0) (modify f).
Proof.
  intros Hf w. apply tracked_quiet; [reflexivity|].
  unfold state_of; simpl. apply Hf.
Qed.

Lemma tracked_modify_health w0 f :
  (forall h, current_state (f h) = current_state h) ->
  preserves (tracked w0) (modify_health f).
Proof. intros Hf. apply tracked_modify. intros m; simpl. apply Hf. Qed.

Lemma tracked_time w0 : preserves (tracked w0) time.
Proof. intros w. apply tracked_quiet; reflexivity. Qed.

Lemma tracked_rand w0 : preserves (tracked w0) rand.
Proof. intros w. apply tracked_quiet; reflexivity. Qed.

Lemma tracked_printf w0 l : preserves (tracked w0) (printf l).
Proof. intros w. apply tracked_quiet; reflexivity. Qed.

Lemma tracked_set_last_watchdog_feed w0 t :
  preserves (tracked w0) (set_last_watchdog_feed t).
Proof. intros w. apply tracked_quiet; reflexivity. Qed.

Lemma tracked_set_watchdog_logged w0 b :
  preserves (tracked w0) (set_watchdog_logged b).
Proof. intros w. apply tracked_quiet; reflexivity. Qed.

Lemma tracked_log_result level error message function line w :
  tracked w (log_result level error message function line w).
Proof.
  exists (log_events level error message function line (state_of w)).
  split; [apply log_result_appends|].
  rewrite log_result_state. unfold log_events, next_state.
  destruct (escalates level (state_of w)) eqn:Hesc; simpl;
    unfold next_state; simpl; rewrite Hesc; auto.
Qed.

Lemma tracked_log_message w0 level error message function line :
  preserves (tracked w0) (log_message level error message function line).
Proof.
  intros w Hw. rewrite log_message_eq; simpl.
  eapply tracked_trans; [exact Hw | apply tracked_log_result].
Qed.

Ltac tracked_prim :=
  idtac;
  match goal with
  | |- preserves _ (log_message _ _ _ _ _) => apply tracked_log_message
  | |- preserves _ time => apply tracked_time
  | |- preserves _ rand => apply tracked_rand
  | |- preserves _ (printf _) => apply tracked_printf
  | |- preserves _ (set_last_watchdog_feed _) => apply tracked_set_last_watchdog_feed
  | |- preserves _ (set_watchdog_logged _) => apply tracked_set_watchdog_logged
  | |- preserves _ (modify_health _) =>
      apply tracked_modify_health; intros ?; reflexivity
  | |- preserves _ (modify _) => apply tracked_modify; intros ?; reflexivity
  end.

Lemma tracked_inject_fault w0 fault : preserves (tracked w0) (inject_fault fault).
Proof. unfold inject_fault, LOG_WARNING_. walk_with tracked_prim. Qed.

Lemma tracked_check_system_health w0 : preserves (tracked w0) check_system_health.
Proof.
  unfold check_system_health, monitor_gauges, watchdog_simulation,
    LOG_ERROR_, LOG_CRITICAL_.
  walk_with tracked_prim.
Qed.

Lemma tracked_display_debug_info w0 : preserves (tracked w0) display_debug_info.
Proof. unfold display_debug_info. walk_with tracked_prim. Qed.

Lemma tracked_save_log_to_file w0 : preserves (tracked w0) save_log_to_file.
Proof. unfold save_log_to_file, LOG_ERROR_. walk_with tracked_prim. Qed.

Lemma tracked_debug_shutdown w : tracked w (world_of (debug_shutdown w)).
Proof.
  unfold debug_shutdown, ASSERT_STATE.
  set (c := bind _ _).
  assert (Hc : tracked w (exec c w)).
  { apply (preserves_exec (tracked w) c); [|apply tracked_refl].
    subst c. unfold LOG_INFO_. walk_with tracked_prim.
    apply tracked_save_log_to_file. }
  destruct (negb _); [|exact Hc].
  assert (Hl : tracked w (exec (LOG_CRITICAL_ ERR_INVALID_STATE
                                  "System shutdown with unresolved faults"
                                  "debug_shutdown" 357) (exec c w))).
  { apply (preserves_exec (tracked w) (LOG_CRITICAL_ _ _ _ _));
      [apply tracked_log_message | exact Hc]. }
  destruct (negb _); exact Hl.
Qed.

(** *** Steps that append Info entries only *)

Definition only_info (w0 w : world) : Prop :=
  exists new, appends w = appends w0 ++ new
              /\ Forall (fun e => ev_level e = LOG_INFO) new.

Lemma only_info_refl w : only_info w w.
Proof. exists []. rewrite app_nil_r. auto. Qed.

Lemma only_info_quiet w0 w w' :
  appends w' = appends w -> only_info w0 w -> only_info w0 w'.
Proof. intros Ha (new & H1 & H2). exists new. rewrite Ha. auto. Qed.

Lemma only_info_modify w0 f : preserves (only_info w0) (modify f).
Proof. intros w. apply only_info_quiet. reflexivity. Qed.

Lemma only_info_rand w0 : preserves (only_info w0) rand.
Proof. intros w. apply only_info_quiet. reflexivity. Qed.

Lemma only_info_log_info w0 msg function line :
  preserves (only_info w0) (log_message LOG_INFO ERR_NONE msg function line).
Proof.
  intros w (new & H1 & H2). rewrite log_message_eq.
  exists (new ++ [mk_append_event (state_of w) LOG_INFO ERR_NONE msg function line]).
  split.
  - cbn [snd]. rewrite log_result_appends, H1, <- app_assoc. reflexivity.
  - apply Forall_app. split; [exact H2|]. repeat constructor.
Qed.

Lemma only_info_recovery_loop w0 fuel i :
  preserves (only_info w0) (recovery_loop fuel i).
Proof.
  revert i. induction fuel as [|fuel IH]; intros i; simpl.
  - apply preserves_ret.
  - unfold LOG_INFO_.
    walk_with ltac:(first [ apply IH | apply only_info_log_info
                          | apply only_info_modify ]).
Qed.

Ltac only_info_prim :=
  idtac;
  match goal with
  | |- preserves _ (log_message LOG_INFO _ _ _ _) => apply only_info_log_info
  | |- preserves _ (recovery_loop _ _) => apply only_info_recovery_loop
  | |- preserves _ rand => apply only_info_rand
  | |- preserves _ (modify_health _) => apply only_info_modify
  | |- preserves _ (modify _) => apply only_info_modify
  end.

(** Outside the Fault state, recovery is one Info append. *)
Lemma attempt_fault_recovery_no_fault w :
  state_of w <> STATE_FAULT ->
  exec attempt_fault_recovery w
  = log_result LOG_INFO ERR_NONE "No faults to recover from"
               "attempt_fault_recovery" 470 w.
Proof.
  intros Hnf. unfold attempt_fault_recovery. rewrite exec_bind.
  cbn [get_monitor fst snd]. fold (state_of w).
  rewrite bool_decide_eq_false_2 by exact Hnf.
  cbn [negb]. apply exec_log_message.
Qed.

Lemma tracked_fault_iff w w' :
  tracked w w' ->
  exists new, appends w' = appends w ++ new
    /\ ((state_of w <> STATE_FAULT /\ state_of w' = STATE_FAULT)
        <-> exists e, e ∈ new /\ escalating e).
Proof.
  intros (new & Ha & Hco & Hs). exists new. split; [exact Ha|].
  rewrite Hs. apply coherent_fault_iff, Hco.
Qed.

(** State and history after one operation. *)
Lemma step_fault_iff op w :
  exists new, appends (exec (step op) w) = appends w ++ new
    /\ ((state_of w <> STATE_FAULT /\ state_of (exec (step op) w) = STATE_FAULT)
        <-> exists e, e ∈ new /\ escalating e).
Proof.
  destruct op as [level error message function line | fault | | |]; simpl.
  - apply tracked_fault_iff, tracked_log_message, tracked_refl.
  - apply tracked_fault_iff, tracked_inject_fault, tracked_refl.
  - apply tracked_fault_iff, tracked_check_system_health, tracked_refl.
  - destruct (decide (state_of w = STATE_FAULT)) as [Hf | Hnf].
    + (* recovery from Fault: Info entries only *)
      assert (Hinfo : only_info w (exec attempt_fault_recovery w)).
      { unfold attempt_fault_recovery. rewrite exec_bind.
        cbn [get_monitor fst snd]. fold (state_of w).
        rewrite bool_decide_eq_true_2 by exact Hf. cbn [negb].
        match goal with
        | |- only_info w (exec ?c w) => apply (preserves_exec (only_info w) c)
        end; [|apply only_info_refl].
        unfold LOG_INFO_. walk_with only_info_prim. }
      destruct Hinfo as (new & Ha & Hall). exists new. split; [exact Ha|].
      split.
      * intros [Hne _]. contradiction.
      * intros (e & He & Hlvl & _). exfalso.
        rewrite Forall_forall in Hall. rewrite (Hall e He) in Hlvl. discriminate.
    + (* nothing to recover: one Info append *)
      rewrite attempt_fault_recovery_no_fault by exact Hnf.
      apply tracked_fault_iff, tracked_log_result.
  - apply tracked_fault_iff, tracked_display_debug_info, tracked_refl.
Qed.

(** ** Well-formed monitors *)

(** The arrays have their declared sizes and the two counters index them. *)
Definition wf_monitor (m : debug_monitor_t) : Prop :=
  length (log_buffer m) = Z.to_nat MAX_LOG_ENTRIES
  /\ 0 <= log_count m <= MAX_LOG_ENTRIES
  /\ length (fault_history m) = Z.to_nat MAX_FAULT_HISTORY
  /\ 0 <= fault_count m <= MAX_FAULT_HISTORY.

Definition wf (w : world) : Prop := wf_monitor (monitor w).

Lemma memmove_log_buffer_length buf :
  length buf = Z.to_nat MAX_LOG_ENTRIES ->
  length (memmove_log_buffer buf) = Z.to_nat MAX_LOG_ENTRIES.
Proof.
  intros Hlen. unfold memmove_log_buffer.
  rewrite length_app, length_take, !length_drop, Hlen.
  unfold MAX_LOG_ENTRIES. lia.
Qed.

Lemma memmove_log_buffer_lookup buf (i : nat) :
  length buf = Z.to_nat MAX_LOG_ENTRIES ->
  (i < Z.to_nat (MAX_LOG_ENTRIES - 1))%nat ->
  memmove_log_buffer buf !! i = buf !! S i.
Proof.
  intros Hlen Hi. unfold memmove_log_buffer.
  rewrite lookup_app_l.
  - rewrite lookup_take_lt by exact Hi. rewrite lookup_drop. reflexivity.
  - rewrite length_take, length_drop, Hlen. unfold MAX_LOG_ENTRIES in *. lia.
Qed.

Lemma store_entry_wf e m : wf_monitor m -> wf_monitor (store_entry e m).
Proof.
  intros (Hlen & Hcnt & Hfh & Hfc). unfold store_entry, wf_monitor; simpl.
  rewrite length_insert.
  destruct (MAX_LOG_ENTRIES <=? log_count m) eqn:Hfull.
  - rewrite memmove_log_buffer_length by exact Hlen.
    unfold MAX_LOG_ENTRIES in *. repeat split; auto; lia.
  - apply Z.leb_gt in Hfull. repeat split; auto; lia.
Qed.

(** An append into a full buffer: slot 0 is dropped, every other entry moves
    one slot down, the new entry takes the last slot. *)
Lemma store_entry_full e m :
  length (log_buffer m) = Z.to_nat MAX_LOG_ENTRIES ->
  MAX_LOG_ENTRIES <= log_count m ->
  log_count (store_entry e m) = MAX_LOG_ENTRIES
  /\ (forall i : nat, (i < Z.to_nat (MAX_LOG_ENTRIES - 1))%nat ->
        log_buffer (store_entry e m) !! i = log_buffer m !! S i)
  /\ log_buffer (store_entry e m) !! Z.to_nat (MAX_LOG_ENTRIES - 1) = Some e.
Proof.
  intros Hlen Hfull. unfold store_entry; simpl.
  apply Z.leb_le in Hfull. rewrite Hfull.
  split; [unfold MAX_LOG_ENTRIES; lia|]. split.
  - intros i Hi. rewrite list_lookup_insert_ne by lia.
    apply memmove_log_buffer_lookup; assumption.
  - apply list_lookup_insert_eq.
    rewrite memmove_log_buffer_length by exact Hlen.
    unfold MAX_LOG_ENTRIES. lia.
Qed.

(** An append into a buffer with room: the entry goes to slot [log_count]. *)
Lemma store_entry_room e m :
  length (log_buffer m) = Z.to_nat MAX_LOG_ENTRIES ->
  0 <= log_count m < MAX_LOG_ENTRIES ->
  log_count (store_entry e m) = log_count m + 1
  /\ log_buffer (store_entry e m) = <[Z.to_nat (log_count m) := e]> (log_buffer m).
Proof.
  intros Hlen Hcnt. unfold store_entry; simpl.
  assert (Hfull : (MAX_LOG_ENTRIES <=? log_count m) = false) by (apply Z.leb_gt; lia).
  rewrite Hfull. auto.
Qed.

Lemma log_effect_wf t1 t2 level error message function line m :
  wf_monitor m -> wf_monitor (log_effect t1 t2 level error message function line m).
Proof.
  intros Hm. unfold log_effect.
  assert (H1 := store_entry_wf (new_entry t1 level error message function line) m Hm).
  destruct (level_ge level LOG_ERROR); [|exact H1].
  destruct (bool_decide _); [|exact H1].
  apply store_entry_wf. exact H1.
Qed.

Lemma wf_log_message level error message function line :
  preserves wf (log_message level error message function line).
Proof.
  intros w Hw. rewrite log_message_eq. apply log_effect_wf, Hw.
Qed.

Lemma wf_modify f :
  (forall m, wf_monitor m -> wf_monitor (f m)) -> preserves wf (modify f).
Proof. intros Hf w Hw. apply Hf, Hw. Qed.

Lemma wf_quiet {A} (c : M A) :
  (forall w, monitor (c w).2 = monitor w) -> preserves wf c.
Proof. intros Hc w Hw. unfold wf. rewrite Hc. exact Hw. Qed.

Lemma wf_alter_fault_history f i :
  preserves wf (modify (fun m =>
    set_fault_history (alter f i (fault_history m)) (fault_count m) m)).
Proof.
  apply wf_modify. intros m (H1 & H2 & H3 & H4).
  unfold wf_monitor; simpl. rewrite length_alter. auto.
Qed.

Ltac wf_prim :=
  idtac;
  match goal with
  | |- preserves _ (log_message _ _ _ _ _) => apply wf_log_message
  | |- preserves _ time => apply wf_quiet; reflexivity
  | |- preserves _ rand => apply wf_quiet; reflexivity
  | |- preserves _ (printf _) => apply wf_quiet; reflexivity
  | |- preserves _ (set_last_watchdog_feed _) => apply wf_quiet; reflexivity
  | |- preserves _ (set_watchdog_logged _) => apply wf_quiet; reflexivity
  | |- preserves _ (modify (fun m => set_fault_history (alter _ _ _) _ _)) =>
      apply wf_alter_fault_history
  | |- preserves _ (modify_health _) =>
      apply wf_modify; intros ? Hm; exact Hm
  | |- preserves _ (modify _) => apply wf_modify; intros ? Hm; exact Hm
  end.

Lemma wf_recovery_loop fuel i : preserves wf (recovery_loop fuel i).
Proof.
  revert i. induction fuel as [|fuel IH]; intros i; simpl.
  - apply preserves_ret.
  - unfold LOG_INFO_. walk_with ltac:(first [apply IH | wf_prim]).
Qed.

Lemma wf_attempt_fault_recovery : preserves wf attempt_fault_recovery.
Proof.
  unfold attempt_fault_recovery, LOG_INFO_.
  walk_with ltac:(first [apply wf_recovery_loop | wf_prim]).
Qed.

Lemma wf_check_system_health : preserves wf check_system_health.
Proof.
  unfold check_system_health, monitor_gauges, watchdog_simulation,
    LOG_ERROR_, LOG_CRITICAL_.
  walk_with wf_prim.
Qed.

Lemma wf_display_debug_info : preserves wf display_debug_info.
Proof. unfold display_debug_info. walk_with wf_prim. Qed.

(** ** What [log_message] leaves alone *)

Lemma log_effect_frame t1 t2 level error message function line m :
  let m' := log_effect t1 t2 level error message function line m in
  fault_history m' = fault_history m
  /\ fault_count m' = fault_count m
  /\ log_file m' = log_file m
  /\ fault_injection_enabled m' = fault_injection_enabled m
  /\ active_fault m' = active_fault m
  /\ uptime_seconds (health m') = uptime_seconds (health m)
  /\ recovery_count (health m') = recovery_count (health m)
  /\ cpu_usage_percent (health m') = cpu_usage_percent (health m)
  /\ memory_usage_percent (health m') = memory_usage_percent (health m)
  /\ last_health_check (health m') = last_health_check (health m).
Proof.
  unfold log_effect, store_entry.
  destruct (level_ge level LOG_ERROR); [destruct (bool_decide _)|];
    simpl; repeat split; reflexivity.
Qed.

(** Below Error level the health record is untouched as a whole. *)
Lemma log_effect_quiet t1 t2 level error message function line m :
  level_ge level LOG_ERROR = false ->
  log_effect t1 t2 level error message function line m
  = store_entry (new_entry t1 level error message function line) m.
Proof. intros Hl. unfold log_effect. rewrite Hl. reflexivity. Qed.

Arguments log_message : simpl never.
Arguments log_result : simpl never.
Arguments log_effect : simpl never.
Arguments store_entry : simpl never.
Arguments strncpy : simpl never.
Arguments memmove_log_buffer : simpl never.

(** ** inject_fault in closed form *)

Lemma inject_fault_monitor fault w :
  let m := monitor w in
  let m' := monitor (exec (inject_fault fault) w) in
  fault_injection_enabled m' = true
  /\ active_fault m' = fault
  /\ fault_count m'
     = (if fault_count m <? MAX_FAULT_HISTORY then fault_count m + 1 else fault_count m)
  /\ fault_history m'
     = (if fault_count m <? MAX_FAULT_HISTORY
        then alter (injected_record (clock w (clock_reads w)) fault)
                   (Z.to_nat (fault_count m)) (fault_history m)
        else fault_history m)
  /\ health m' = health m
  /\ log_file m' = log_file m.
Proof.
  unfold inject_fault, LOG_WARNING_, exec, bind, modify, get_monitor, ret, when, time.
  cbn [fst snd set_monitor monitor set_injection fault_count].
  destruct (fault_count (monitor w) <? MAX_FAULT_HISTORY) eqn:Hroom;
    unfold ret; rewrite log_message_eq; cbn [snd]; unfold log_result; cbn [monitor];
    rewrite log_effect_quiet by reflexivity;
    unfold store_entry; simpl; repeat split; reflexivity.
Qed.

Lemma wf_inject_fault fault : preserves wf (inject_fault fault).
Proof.
  intros w Hw.
  assert (Hlog : forall w1, wf w1 ->
            wf (log_message LOG_WARNING ERR_NONE "Fault injection activated"
                            "inject_fault" 419 w1).2)
    by (intros w1; apply wf_log_message).
  destruct Hw as (H1 & H2 & H3 & H4).
  unfold inject_fault, LOG_WARNING_, bind, modify, get_monitor, ret, when, time.
  cbn [fst snd set_monitor monitor set_injection fault_count].
  destruct (fault_count (monitor w) <? MAX_FAULT_HISTORY) eqn:Hroom; unfold ret.
  - apply Z.ltb_lt in Hroom. apply Hlog.
    unfold wf, wf_monitor; simpl. rewrite length_alter.
    repeat split; auto; lia.
  - apply Hlog. unfold wf, wf_monitor; simpl. auto.
Qed.

Lemma wf_step op : preserves wf (step op).
Proof.
  destruct op; simpl.
  - apply wf_log_message.
  - apply wf_inject_fault.
  - apply wf_check_system_health.
  - apply wf_attempt_fault_recovery.
  - apply wf_display_debug_info.
Qed.

Lemma wf_run ops w : wf w -> wf (run ops w).
Proof.
  revert w. induction ops as [|op ops IH]; intros w Hw; simpl; [exact Hw|].
  apply IH. apply (preserves_exec wf (step op)); [apply wf_step | exact Hw].
Qed.

Lemma wf_zero_monitor : wf_monitor zero_monitor.
Proof.
  unfold wf_monitor, zero_monitor.
  cbn [log_buffer log_count fault_history fault_count].
  rewrite !length_replicate.
  unfold MAX_LOG_ENTRIES, MAX_FAULT_HISTORY. repeat split; lia.
Qed.

Lemma wf_initial_world clk rnd fopen_result write_fails :
  wf (initial_world clk rnd fopen_result write_fails).
Proof.
  unfold initial_world.
  apply (preserves_exec wf (debug_init fopen_result)); [|apply wf_zero_monitor].
  unfold debug_init, LOG_INFO_.
  walk_with ltac:(first [ apply wf_modify; intros ? _; apply wf_zero_monitor
                        | wf_prim ]).
Qed.

(** [debug_init] leaves the monitor Running, with its two Info entries and
    an empty fault history. *)
Lemma initial_world_fields clk rnd fopen_result write_fails :
  let m := monitor (initial_world clk rnd fopen_result write_fails) in
  current_state (health m) = STATE_RUNNING
  /\ log_count m = 2
  /\ fault_count m = 0
  /\ log_file m = fopen_result
  /\ recovery_count (health m) = 0
  /\ h_fault_count (health m) = 0.
Proof. destruct fopen_result; vm_compute; repeat split; reflexivity. Qed.

(** Every world the program can reach is well formed. *)
Lemma wf_reachable clk rnd fopen_result write_fails ops :
  wf (run ops (initial_world clk rnd fopen_result write_fails)).
Proof. apply wf_run, wf_initial_world. Qed.

(** ** Escalation to Fault *)

Lemma log_message_fault_iff level error message function line w :
  (state_of w <> STATE_FAULT
   /\ state_of (exec (log_message level error message function line) w) = STATE_FAULT)
  <-> (level_ge level LOG_ERROR = true /\ state_of w = STATE_RUNNING).
Proof.
  rewrite exec_log_message, log_result_state. unfold escalates.
  destruct (level_ge level LOG_ERROR); simpl.
  - destruct (bool_decide (state_of w = STATE_RUNNING)) eqn:Hrun.
    + apply bool_decide_eq_true_1 in Hrun. split; [auto|].
      intros _. split; [congruence | reflexivity].
    + apply bool_decide_eq_false_1 in Hrun. split.
      * intros [Hne Heq]. contradiction.
      * intros [_ Heq]. contradiction.
  - split.
    + intros [Hne Heq]. contradiction.
    + intros [Hf _]. discriminate.
Qed.

(** C1. From the initialised monitor and after any sequence of operations:
    a call of [log_message] moves the state to Fault exactly when its
    severity is Error or higher and the state is Running; and for every
    operation (log append, inject, health tick, recovery, display) as well
    as for shutdown, the state moves to Fault across the operation exactly
    when one of the log appends the operation performed had severity Error
    or higher and found the state Running.  No operation reaches Fault in
    any other way. *)
Theorem fault_iff_escalating_append clk rnd fopen_result write_fails ops :
  let w := run ops (initial_world clk rnd fopen_result write_fails) in
  (forall level error message function line,
      (state_of w <> STATE_FAULT
       /\ state_of (exec (log_message level error message function line) w)
          = STATE_FAULT)
      <-> (level_ge level LOG_ERROR = true /\ state_of w = STATE_RUNNING))
  /\ (forall op, exists new,
        appends (exec (step op) w) = appends w ++ new
        /\ ((state_of w <> STATE_FAULT
             /\ state_of (exec (step op) w) = STATE_FAULT)
            <-> exists e, e ∈ new
                          /\ level_ge (ev_level e) LOG_ERROR = true
                          /\ ev_state e = STATE_RUNNING))
  /\ (exists new,
        appends (world_of (debug_shutdown w)) = appends w ++ new
        /\ ((state_of w <> STATE_FAULT
             /\ state_of (world_of (debug_shutdown w)) = STATE_FAULT)
            <-> exists e, e ∈ new
                          /\ level_ge (ev_level e) LOG_ERROR = true
                          /\ ev_state e = STATE_RUNNING)).
Proof.
  intros w. split; [|split].
  - intros. apply log_message_fault_iff.
  - intros op. apply step_fault_iff.
  - apply tracked_fault_iff, tracked_debug_shutdown.
Qed.

(** ** The event log *)

Lemma log_store_monitor level error message function line w :
  monitor (exec (log_store level error message function line) w)
  = store_entry (new_entry (clock w (clock_reads w)) level error message function line)
                (monitor w).
Proof. unfold exec. rewrite log_store_eq. reflexivity. Qed.

(** C2. After any sequence of operations from the initialised monitor
    [log_count] lies between 0 and 1000.  When the buffer is full, one
    append (lines 367-381, [log_store]) drops the entry at index 0, moves
    every other entry one slot down and writes the new entry into the last
    slot, leaving [log_count] at 1000; a call of [log_message] that does not
    escalate is exactly one such append, and a call that escalates is two of
    them in a row (the caller's entry, then the fault-state warning). *)
Theorem log_buffer_bounded_fifo clk rnd fopen_result write_fails ops
    level error message function line :
  let w := run ops (initial_world clk rnd fopen_result write_fails) in
  let e := new_entry (clock w (clock_reads w)) level error message function line in
  let last := Z.to_nat (MAX_LOG_ENTRIES - 1) in
  0 <= log_count (monitor w) <= MAX_LOG_ENTRIES
  /\ (log_count (monitor w) = MAX_LOG_ENTRIES ->
      (let m' := monitor (exec (log_store level error message function line) w) in
       log_count m' = MAX_LOG_ENTRIES
       /\ (forall i : nat, (i < last)%nat ->
             log_buffer m' !! i = log_buffer (monitor w) !! S i)
       /\ log_buffer m' !! last = Some e)
      /\ (let m' := monitor (exec (log_message level error message function line) w) in
          if escalates level (state_of w) then
            log_count m' = MAX_LOG_ENTRIES
            /\ (forall i : nat, (S i < last)%nat ->
                  log_buffer m' !! i = log_buffer (monitor w) !! S (S i))
            /\ log_buffer m' !! Nat.pred last = Some e
            /\ log_buffer m' !! last
               = Some (new_entry (clock w (S (clock_reads w))) LOG_WARNING error
                                 fault_state_message "log_message" 396)
          else
            log_count m' = MAX_LOG_ENTRIES
            /\ (forall i : nat, (i < last)%nat ->
                  log_buffer m' !! i = log_buffer (monitor w) !! S i)
            /\ log_buffer m' !! last = Some e)).
Proof.
  intros w e last.
  assert (Hwf : wf w) by apply wf_reachable.
  destruct Hwf as (Hlen & Hcnt & _).
  split; [exact Hcnt|]. intros Hfull.
  assert (Hstore := store_entry_full e (monitor w) Hlen ltac:(lia)).
  split.
  - rewrite log_store_monitor. exact Hstore.
  - rewrite exec_log_message. unfold log_result; cbn [monitor].
    unfold escalates, log_effect. fold e. unfold state_of.
    destruct (level_ge level LOG_ERROR); cbn [andb]; [|exact Hstore].
    destruct (bool_decide _); [|exact Hstore].
    destruct Hstore as (Hc1 & Hshift1 & Hlast1).
    set (m1 := store_entry e (monitor w)) in *.
    set (m2 := set_health (set_current_state STATE_FAULT)
                          (set_health bump_fault_count m1)).
    set (e2 := new_entry _ _ _ _ _ _).
    assert (Hlen1 : length (log_buffer m2) = Z.to_nat MAX_LOG_ENTRIES).
    { subst m2 m1. unfold store_entry; simpl. rewrite length_insert.
      destruct (_ <=? _); [apply memmove_log_buffer_length|]; exact Hlen. }
    destruct (store_entry_full e2 m2 Hlen1) as (Hc2 & Hshift2 & Hlast2).
    { change (log_count m2) with (log_count m1). lia. }
    fold last in Hshift1, Hlast1, Hshift2, Hlast2.
    change (log_buffer m2) with (log_buffer m1) in Hshift2.
    split; [exact Hc2|]. split; [|split].
    + intros i Hi. rewrite Hshift2 by lia. apply Hshift1. lia.
    + rewrite Hshift2 by (subst last; unfold MAX_LOG_ENTRIES; lia).
      replace (S (Nat.pred last)) with last
        by (subst last; unfold MAX_LOG_ENTRIES; lia).
      exact Hlast1.
    + exact Hlast2.
Qed.

Definition info_op (k : nat) : operation :=
  OpLog LOG_INFO ERR_NONE "heartbeat" "main" (Z.of_nat k).

(** A run that fills the buffer: the two entries of [debug_init] and 998 more. *)
Definition full_buffer_ops : list operation := map info_op (seq 0 998).

Lemma log_buffer_bounded_fifo_witness :
  let w := run full_buffer_ops (initial_world (fun _ => 0) (fun _ => 0) None false) in
  log_count (monitor w) = MAX_LOG_ENTRIES
  /\ log_buffer (monitor (exec (log_store LOG_INFO ERR_NONE "m" "f" 1) w))
       !! Z.to_nat (MAX_LOG_ENTRIES - 1)
     = Some (new_entry (clock w (clock_reads w)) LOG_INFO ERR_NONE "m" "f" 1).
Proof.
  intros w.
  assert (Hfull : log_count (monitor w) = MAX_LOG_ENTRIES) by (vm_compute; reflexivity).
  split; [exact Hfull|].
  pose proof (log_buffer_bounded_fifo (fun _ => 0) (fun _ => 0) None false
                full_buffer_ops LOG_INFO ERR_NONE "m" "f" 1) as H.
  cbv zeta in H. destruct H as [_ H]. destruct (H Hfull) as [(_ & _ & Hlast) _].
  exact Hlast.
Defined.

(** ** The fault history *)

Lemma inject_run_count faults w :
  0 <= fault_count (monitor w) <= MAX_FAULT_HISTORY ->
  fault_count (monitor (run (map OpInject faults) w))
  = Z.min (fault_count (monitor w) + Z.of_nat (length faults)) MAX_FAULT_HISTORY.
Proof.
  revert w. induction faults as [|f faults IH]; intros w Hw; simpl.
  - lia.
  - destruct (inject_fault_monitor f w) as (_ & _ & Hcnt & _).
    cbv zeta in Hcnt. rewrite IH; rewrite Hcnt.
    + destruct (fault_count (monitor w) <? MAX_FAULT_HISTORY) eqn:Hroom;
        [apply Z.ltb_lt in Hroom | apply Z.ltb_ge in Hroom]; lia.
    + destruct (fault_count (monitor w) <? MAX_FAULT_HISTORY) eqn:Hroom;
        [apply Z.ltb_lt in Hroom | apply Z.ltb_ge in Hroom]; lia.
Qed.

(** C3. After any sequence of operations from the initialised monitor the
    fault history holds between 0 and 50 records, and after [n] injections
    in a row from the initialised monitor it holds [min n 50].  Every
    injection sets [fault_injection_enabled] and makes the injected kind the
    [active_fault]; performed when the history already holds 50 records it
    leaves the number of records and the history itself unchanged. *)
Theorem fault_history_saturates clk rnd fopen_result write_fails ops fault :
  let w := run ops (initial_world clk rnd fopen_result write_fails) in
  let m' := monitor (exec (inject_fault fault) w) in
  0 <= fault_count (monitor w) <= MAX_FAULT_HISTORY
  /\ (forall faults,
        fault_count (monitor (run (map OpInject faults)
                                  (initial_world clk rnd fopen_result write_fails)))
        = Z.min (Z.of_nat (length faults)) MAX_FAULT_HISTORY)
  /\ fault_injection_enabled m' = true
  /\ active_fault m' = fault
  /\ (fault_count (monitor w) = MAX_FAULT_HISTORY ->
      fault_count m' = MAX_FAULT_HISTORY
      /\ fault_history m' = fault_history (monitor w)).
Proof.
  intros w m'.
  assert (Hwf : wf w) by apply wf_reachable.
  destruct Hwf as (_ & _ & _ & Hfc).
  destruct (inject_fault_monitor fault w) as (Hen & Hact & Hcnt & Hhist & _).
  cbv zeta in Hen, Hact, Hcnt, Hhist. fold m' in Hen, Hact, Hcnt, Hhist.
  split; [exact Hfc|]. split; [|split; [exact Hen|split; [exact Hact|]]].
  - intros faults.
    destruct (initial_world_fields clk rnd fopen_result write_fails)
      as (_ & _ & Hzero & _).
    cbv zeta in Hzero. rewrite inject_run_count; rewrite Hzero.
    + reflexivity.
    + unfold MAX_FAULT_HISTORY. lia.
  - intros Hfull. rewrite Hfull in Hcnt, Hhist.
    rewrite Z.ltb_irrefl in Hcnt, Hhist. rewrite Hcnt, Hhist. auto.
Qed.

Definition saturating_ops : list operation :=
  map OpInject (replicate 50 FAULT_ACTUATOR_FAIL).

Lemma fault_history_saturates_witness :
  let w := run saturating_ops (initial_world (fun _ => 0) (fun _ => 0) None false) in
  let m' := monitor (exec (inject_fault FAULT_COMM_BREAK) w) in
  fault_count (monitor w) = MAX_FAULT_HISTORY
  /\ fault_count m' = MAX_FAULT_HISTORY
  /\ fault_history m' = fault_history (monitor w).
Proof.
  intros w m'.
  assert (Hfull : fault_count (monitor w) = MAX_FAULT_HISTORY)
    by (vm_compute; reflexivity).
  split; [exact Hfull|].
  pose proof (fault_history_saturates (fun _ => 0) (fun _ => 0) None false
                saturating_ops FAULT_COMM_BREAK) as H.
  cbv zeta in H. destruct H as (_ & _ & _ & _ & H).
  exact (H Hfull).
Defined.

(** ** Recovery *)

(** What the recovery code leaves alone in the monitor. *)
Definition recovery_frame (m m' : debug_monitor_t) : Prop :=
  health m' = health m
  /\ fault_count m' = fault_count m
  /\ fault_injection_enabled m' = fault_injection_enabled m
  /\ active_fault m' = active_fault m
  /\ log_file m' = log_file m.

Lemma mark_resolved_id r : fr_resolved r = true -> mark_resolved r = r.
Proof. destruct r; simpl. intros ->. reflexivity. Qed.

(** One iteration of the loop body at index [i]. *)
Lemma recovery_body_spec i w (c : M unit) :
  c = match fault_history (monitor w) !! Z.to_nat i with
      | Some r =>
          when (negb (fr_resolved r))
            (modify (fun m =>
               set_fault_history (alter mark_resolved (Z.to_nat i) (fault_history m))
                                 (fault_count m) m) ;;
             LOG_INFO_ "Fault resolved in recovery attempt" "attempt_fault_recovery" 488)
      | None => ret tt
      end ->
  recovery_frame (monitor w) (monitor (exec c w))
  /\ forall j : nat,
       fault_history (monitor (exec c w)) !! j
       = if decide (j = Z.to_nat i)
         then mark_resolved <$> fault_history (monitor w) !! j
         else fault_history (monitor w) !! j.
Proof.
  intros ->. unfold recovery_frame.
  destruct (fault_history (monitor w) !! Z.to_nat i) as [r|] eqn:Hr.
  - destruct (fr_resolved r) eqn:Hres; cbn [negb].
    + rewrite exec_when_false. repeat split; try reflexivity.
      intros j. destruct (decide _) as [-> | _]; [|reflexivity].
      rewrite Hr. simpl. rewrite mark_resolved_id by exact Hres. reflexivity.
    + rewrite exec_when_true, exec_bind. unfold LOG_INFO_.
      rewrite exec_log_message. unfold log_result; cbn [monitor modify snd fst].
      rewrite log_effect_quiet by reflexivity.
      unfold store_entry; simpl. repeat split; try reflexivity.
      intros j. destruct (decide _) as [-> | Hne].
      * apply list_lookup_alter_eq.
      * apply list_lookup_alter_ne. congruence.
  - change (exec (ret tt) w) with w. repeat split; try reflexivity.
    intros j. destruct (decide _) as [-> | _]; [|reflexivity].
    rewrite Hr. reflexivity.
Qed.

Lemma recovery_loop_spec fuel i w :
  0 <= i ->
  recovery_frame (monitor w) (monitor (exec (recovery_loop fuel i) w))
  /\ forall j : nat,
       fault_history (monitor (exec (recovery_loop fuel i) w)) !! j
       = if bool_decide (i <= Z.of_nat j < fault_count (monitor w)
                         /\ Z.of_nat j < i + Z.of_nat fuel)
         then mark_resolved <$> fault_history (monitor w) !! j
         else fault_history (monitor w) !! j.
Proof.
  revert i w. induction fuel as [|fuel IH]; intros i w Hi.
  - simpl. split; [repeat split; reflexivity|].
    intros j. rewrite bool_decide_eq_false_2 by lia. reflexivity.
  - cbn [recovery_loop]. rewrite exec_bind. cbn [get_monitor fst snd].
    destruct (i <? fault_count (monitor w)) eqn:Hlt.
    + apply Z.ltb_lt in Hlt. rewrite exec_bind.
      match goal with
      | |- context [exec (recovery_loop fuel (i + 1)) (?c w).2] =>
          destruct (recovery_body_spec i w c eq_refl) as [Hfr Hbody];
          change (c w).2 with (exec c w);
          set (w1 := exec c w) in *
      end.
      destruct (IH (i + 1) w1 ltac:(lia)) as [Hfr' Hrest].
      destruct Hfr as (F1 & F2 & F3 & F4 & F5).
      destruct Hfr' as (G1 & G2 & G3 & G4 & G5).
      split; [unfold recovery_frame; repeat split; congruence|].
      intros j. rewrite Hrest, Hbody, F2.
      destruct (decide (j = Z.to_nat i)) as [-> | Hne].
      * rewrite bool_decide_eq_false_2 by lia.
        rewrite bool_decide_eq_true_2 by lia. reflexivity.
      * destruct (bool_decide (i + 1 <= Z.of_nat j < fault_count (monitor w)
                               /\ Z.of_nat j < i + 1 + Z.of_nat fuel)) eqn:Hb.
        -- apply bool_decide_eq_true_1 in Hb.
           rewrite bool_decide_eq_true_2 by lia. reflexivity.
        -- apply bool_decide_eq_false_1 in Hb.
           rewrite bool_decide_eq_false_2 by lia. reflexivity.
    + apply Z.ltb_ge in Hlt. split; [repeat split; reflexivity|].
      intros j. rewrite bool_decide_eq_false_2 by lia. reflexivity.
Qed.

(** The fuel [attempt_fault_recovery] gives the loop is enough: the loop
    has ended by itself when it is used up, so more fuel changes nothing. *)
Lemma recovery_loop_enough fuel extra i w :
  0 <= i ->
  fault_count (monitor w) - i <= Z.of_nat fuel ->
  exec (recovery_loop (fuel + extra) i) w = exec (recovery_loop fuel i) w.
Proof.
  revert i w. induction fuel as [|fuel IH]; intros i w Hi Hfuel.
  - cbn [Nat.add]. destruct extra as [|extra]; [reflexivity|].
    cbn [recovery_loop]. rewrite exec_bind. cbn [get_monitor fst snd].
    rewrite (proj2 (Z.ltb_ge i (fault_count (monitor w)))) by lia. reflexivity.
  - cbn [Nat.add recovery_loop]. rewrite !exec_bind. cbn [get_monitor fst snd].
    destruct (i <? fault_count (monitor w)) eqn:Hlt; [|reflexivity].
    rewrite !exec_bind.
    match goal with
    | |- exec _ (?c w).2 = _ =>
        destruct (recovery_body_spec i w c eq_refl) as [(_ & Hfc & _) _];
        change (c w).2 with (exec c w) in *
    end.
    apply IH; [lia | rewrite Hfc; lia].
Qed.

Lemma exec_seq {A} (c : M A) (k : M unit) w :
  exec (bind c (fun _ => k)) w = exec k (exec c w).
Proof. rewrite exec_bind. reflexivity. Qed.

(** Recovery from the Fault state, field by field. *)
Lemma attempt_fault_recovery_fault w :
  state_of w = STATE_FAULT ->
  let m := monitor w in
  let m' := monitor (exec attempt_fault_recovery w) in
  current_state (health m') = STATE_RUNNING
  /\ recovery_count (health m') = uint16 (recovery_count (health m) + 1)
  /\ h_fault_count (health m') = h_fault_count (health m)
  /\ fault_injection_enabled m' = false
  /\ active_fault m' = FAULT_NONE
  /\ fault_count m' = fault_count m
  /\ (forall (j : nat) r,
        Z.of_nat j < fault_count m ->
        fault_history m !! j = Some r ->
        fault_history m' !! j = Some (mark_resolved r)).
Proof.
  intros Hf m m'. subst m'.
  unfold attempt_fault_recovery. rewrite exec_bind. cbn [get_monitor fst snd].
  fold (state_of w). rewrite bool_decide_eq_true_2 by exact Hf. cbn [negb].
  unfold LOG_INFO_.
  rewrite !exec_seq. rewrite exec_log_message.
  match goal with |- context [exec (bind get_monitor _) ?x] => set (w4 := x) end.
  rewrite exec_bind. cbn [get_monitor fst snd]. rewrite !exec_seq.
  destruct (recovery_loop_spec (Z.to_nat (fault_count (monitor w4))) 0 w4 ltac:(lia))
    as [Hfr Hres].
  set (w5 := exec (recovery_loop _ _) w4) in *.
  rewrite exec_log_message.
  set (w7 := log_result _ _ _ _ _ _).
  rewrite exec_bind. cbn [rand fst snd]. rewrite exec_seq, exec_bind. cbn [rand fst snd].
  assert (H4 : health (monitor w4)
               = set_recovery_count (uint16 (recovery_count (health m) + 1))
                   (set_current_state STATE_RECOVERY (health m))
               /\ fault_count (monitor w4) = fault_count m
               /\ fault_history (monitor w4) = fault_history m
               /\ fault_injection_enabled (monitor w4) = false
               /\ active_fault (monitor w4) = FAULT_NONE).
  { subst w4. unfold log_result.
    cbn [exec modify_health modify snd set_monitor monitor].
    rewrite log_effect_quiet by reflexivity.
    unfold store_entry. simpl. repeat split; reflexivity. }
  destruct H4 as (H4h & H4c & H4f & H4e & H4a).
  destruct Hfr as (F1 & F2 & F3 & F4 & F5).
  subst w7. unfold log_result.
  cbn [exec modify_health modify snd set_monitor set_rand_draws monitor].
  rewrite log_effect_quiet by reflexivity.
  unfold store_entry. simpl.
  rewrite F2, F3, F4, H4c, H4e, H4a, F1, H4h. simpl.
  repeat split; try reflexivity.
  intros j r Hj Hr. rewrite Hres, H4c, H4f, Hr.
  rewrite bool_decide_eq_true_2 by (fold m; lia). reflexivity.
Qed.

(** C4 (amended). From any world in the Fault state, [attempt_fault_recovery]
    ends in Running with fault injection disabled and the active fault
    cleared to None; [recovery_count], a 16-bit counter, is incremented by 1
    modulo 65536, hence by exactly 1 whenever it was below 65535; the number
    of history records is unchanged and every record of the history is the
    record it was with [resolved] set. *)
Theorem recovery_from_fault w :
  state_of w = STATE_FAULT ->
  let m := monitor w in
  let m' := monitor (exec attempt_fault_recovery w) in
  current_state (health m') = STATE_RUNNING
  /\ recovery_count (health m') = uint16 (recovery_count (health m) + 1)
  /\ (0 <= recovery_count (health m) < 65535 ->
      recovery_count (health m') = recovery_count (health m) + 1)
  /\ fault_injection_enabled m' = false
  /\ active_fault m' = FAULT_NONE
  /\ fault_count m' = fault_count m
  /\ (forall (j : nat) r,
        Z.of_nat j < fault_count m ->
        fault_history m !! j = Some r ->
        exists r', fault_history m' !! j = Some r'
                   /\ fr_resolved r' = true
                   /\ r' = mark_resolved r).
Proof.
  intros Hf m m'.
  destruct (attempt_fault_recovery_fault w Hf)
    as (Hst & Hrc & _ & Hen & Hact & Hcnt & Hres).
  cbv zeta in *. fold m m' in Hst, Hrc, Hen, Hact, Hcnt, Hres.
  repeat split; try assumption.
  - intros Hrange. rewrite Hrc. unfold uint16. apply Z.mod_small. lia.
  - intros j r Hj Hr. exists (mark_resolved r).
    split; [apply Hres; assumption | split; reflexivity].
Qed.

Definition sensor_failure : operation :=
  OpLog LOG_ERROR ERR_SENSOR_FAILURE "Sensor failure detected"
        "simulate_sensor_reading" 589.

(** An injected fault followed by a sensor failure: the monitor is in Fault
    with one unresolved record. *)
Definition faulted_world : world :=
  run [OpInject FAULT_ACTUATOR_FAIL; sensor_failure]
      (initial_world (fun _ => 0) (fun _ => 0) None false).

Lemma recovery_from_fault_witness :
  state_of faulted_world = STATE_FAULT
  /\ current_state (health (monitor (exec attempt_fault_recovery faulted_world)))
     = STATE_RUNNING
  /\ recovery_count (health (monitor (exec attempt_fault_recovery faulted_world)))
     = uint16 (recovery_count (health (monitor faulted_world)) + 1).
Proof.
  assert (Hf : state_of faulted_world = STATE_FAULT) by (vm_compute; reflexivity).
  split; [exact Hf|].
  pose proof (recovery_from_fault faulted_world Hf) as H.
  cbv zeta in H. destruct H as (H1 & H2 & _). split; assumption.
Defined.

(** A fault followed by a recovery. *)
Definition fault_cycle : list operation := [sensor_failure; OpRecover].

(** [ops], [n] times over. *)
Fixpoint repeat_run (n : nat) (ops : list operation) (w : world) : world :=
  match n with
  | O => w
  | S n' => repeat_run n' ops (run ops w)
  end.

Definition cycles (n : nat) (w : world) : world := repeat_run n fault_cycle w.

Lemma fault_cycle_spec w :
  state_of w = STATE_RUNNING ->
  state_of (run fault_cycle w) = STATE_RUNNING
  /\ recovery_count (health (monitor (run fault_cycle w)))
     = uint16 (recovery_count (health (monitor w)) + 1).
Proof.
  intros Hrun. cbn [run fault_cycle step sensor_failure].
  rewrite exec_log_message.
  set (w1 := log_result _ _ _ _ _ _).
  assert (Hf : state_of w1 = STATE_FAULT).
  { subst w1. rewrite log_result_state, Hrun. reflexivity. }
  assert (Hrc : recovery_count (health (monitor w1))
                = recovery_count (health (monitor w))).
  { subst w1. unfold log_result; cbn [monitor]. apply log_effect_frame. }
  destruct (attempt_fault_recovery_fault w1 Hf) as (Hst & Hrc' & _).
  cbv zeta in Hst, Hrc'. rewrite Hrc in Hrc'. split; assumption.
Qed.

Lemma cycles_spec n w :
  state_of w = STATE_RUNNING ->
  0 <= recovery_count (health (monitor w)) ->
  recovery_count (health (monitor w)) + Z.of_nat n < 65536 ->
  state_of (cycles n w) = STATE_RUNNING
  /\ recovery_count (health (monitor (cycles n w)))
     = recovery_count (health (monitor w)) + Z.of_nat n.
Proof.
  unfold cycles.
  revert w. induction n as [|n IH]; intros w Hrun Hlo Hhi; cbn [repeat_run].
  - split; [exact Hrun | lia].
  - destruct (fault_cycle_spec w Hrun) as [Hrun' Hrc].
    assert (Hrc1 : recovery_count (health (monitor (run fault_cycle w)))
                   = recovery_count (health (monitor w)) + 1).
    { rewrite Hrc. unfold uint16. apply Z.mod_small. lia. }
    destruct (IH (run fault_cycle w) Hrun') as [Hst Hcnt]; [lia | lia |].
    split; [exact Hst | lia].
Qed.

(** The monitor after 65535 fault-and-recovery cycles and one more fault. *)
Definition worn_world : world :=
  exec (step sensor_failure)
       (cycles (Z.to_nat 65535)
               (initial_world (fun _ => 0) (fun _ => 0) None false)).

(** C4, as stated, fails: in [worn_world] the state is Fault and
    [recovery_count] is 65535; the recovery wraps it to 0 instead of
    incrementing it by 1. *)
Lemma recovery_count_wraps :
  state_of worn_world = STATE_FAULT
  /\ recovery_count (health (monitor worn_world)) = 65535
  /\ recovery_count (health (monitor (exec attempt_fault_recovery worn_world)))
     <> recovery_count (health (monitor worn_world)) + 1.
Proof.
  set (w0 := initial_world (fun _ => 0) (fun _ => 0) None false).
  destruct (initial_world_fields (fun _ => 0) (fun _ => 0) None false)
    as (Hrun & _ & _ & _ & Hrc0 & _).
  cbv zeta in Hrun, Hrc0. fold w0 in Hrun, Hrc0.
  destruct (cycles_spec (Z.to_nat 65535) w0 Hrun) as [Hst Hrc]; [lia | lia |].
  rewrite Hrc0, Z2Nat.id in Hrc by lia. cbn [Z.add] in Hrc.
  assert (Hf : state_of worn_world = STATE_FAULT).
  { unfold worn_world. fold w0. cbn [step sensor_failure].
    rewrite exec_log_message, log_result_state, Hst. reflexivity. }
  assert (Hw : recovery_count (health (monitor worn_world)) = 65535).
  { unfold worn_world. fold w0. cbn [step sensor_failure].
    rewrite exec_log_message. unfold log_result; cbn [monitor].
    match goal with
    | |- recovery_count (health (log_effect ?t1 ?t2 ?l ?e ?m ?f ?ln ?mon)) = _ =>
        destruct (log_effect_frame t1 t2 l e m f ln mon)
          as (_ & _ & _ & _ & _ & _ & Hk & _)
    end.
    cbv zeta in Hk. rewrite Hk. exact Hrc. }
  split; [exact Hf|]. split; [exact Hw|].
  destruct (attempt_fault_recovery_fault worn_world Hf) as (_ & Hrc' & _).
  cbv zeta in Hrc'. rewrite Hrc', Hw. vm_compute. discriminate.
Qed.

(** C5 (amended). Outside the Fault state [attempt_fault_recovery] changes
    no field of the monitor other than the event log: it appends the one
    Info entry "No faults to recover from" ([log_count] grows by one while
    the buffer has room) and leaves the state, the health record, the fault
    history, the sink, the injection flag and the active fault as they
    were. *)
Theorem recovery_without_fault w :
  state_of w <> STATE_FAULT ->
  let m := monitor w in
  let w' := exec attempt_fault_recovery w in
  let m' := monitor w' in
  let e := new_entry (clock w (clock_reads w)) LOG_INFO ERR_NONE
                     "No faults to recover from" "attempt_fault_recovery" 470 in
  m' = store_entry e m
  /\ health m' = health m
  /\ fault_history m' = fault_history m
  /\ fault_count m' = fault_count m
  /\ log_file m' = log_file m
  /\ fault_injection_enabled m' = fault_injection_enabled m
  /\ active_fault m' = active_fault m
  /\ appends w' = appends w ++ [mk_append_event (state_of w) LOG_INFO ERR_NONE
                                  "No faults to recover from"
                                  "attempt_fault_recovery" 470]
  /\ (length (log_buffer m) = Z.to_nat MAX_LOG_ENTRIES ->
      0 <= log_count m < MAX_LOG_ENTRIES ->
      log_count m' = log_count m + 1
      /\ log_buffer m' = <[Z.to_nat (log_count m) := e]> (log_buffer m)).
Proof.
  intros Hnf m w' m' e. subst m' w'.
  rewrite attempt_fault_recovery_no_fault by exact Hnf.
  assert (Hm : monitor (log_result LOG_INFO ERR_NONE "No faults to recover from"
                                   "attempt_fault_recovery" 470 w)
               = store_entry e m).
  { unfold log_result; cbn [monitor]. apply log_effect_quiet. reflexivity. }
  rewrite Hm, log_result_appends.
  split; [reflexivity|].
  unfold store_entry; cbn [health fault_history fault_count log_file
                             fault_injection_enabled active_fault set_log].
  repeat split; try reflexivity.
  - destruct (store_entry_room e m) as [Hc _]; [assumption | assumption | exact Hc].
  - destruct (store_entry_room e m) as [_ Hb]; [assumption | assumption | exact Hb].
Qed.

Definition fresh_world : world :=
  initial_world (fun _ => 0) (fun _ => 0) None false.

Lemma recovery_without_fault_witness :
  state_of fresh_world <> STATE_FAULT
  /\ health (monitor (exec attempt_fault_recovery fresh_world))
     = health (monitor fresh_world)
  /\ fault_count (monitor (exec attempt_fault_recovery fresh_world))
     = fault_count (monitor fresh_world).
Proof.
  assert (Hnf : state_of fresh_world <> STATE_FAULT) by (vm_compute; discriminate).
  split; [exact Hnf|].
  pose proof (recovery_without_fault fresh_world Hnf) as H.
  cbv zeta in H. destruct H as (_ & H1 & _ & H2 & _). split; assumption.
Defined.

(** C5, as stated, fails: right after initialisation the state is Running,
    yet [attempt_fault_recovery] changes [log_count] from 2 to 3, and a
    second call changes it again. *)
Lemma recovery_without_fault_logs :
  state_of fresh_world <> STATE_FAULT
  /\ log_count (monitor fresh_world) = 2
  /\ log_count (monitor (exec attempt_fault_recovery fresh_world)) = 3
  /\ log_count (monitor (exec attempt_fault_recovery
                              (exec attempt_fault_recovery fresh_world))) = 4
  /\ monitor (exec attempt_fault_recovery fresh_world) <> monitor fresh_world.
Proof.
  split; [vm_compute; discriminate|].
  split; [vm_compute; reflexivity|].
  split; [vm_compute; reflexivity|].
  split; [vm_compute; reflexivity|].
  intros H. apply (f_equal log_count) in H. vm_compute in H. discriminate.
Qed.

(** ** A Critical append while Running *)

(** After an append the new entry is the newest one, at [log_count - 1]. *)
Lemma store_entry_last e m :
  wf_monitor m ->
  log_count (store_entry e m) = Z.min (log_count m + 1) MAX_LOG_ENTRIES
  /\ log_buffer (store_entry e m) !! Z.to_nat (log_count (store_entry e m) - 1) = Some e.
Proof.
  intros (Hlen & Hcnt & _).
  destruct (Z.eq_dec (log_count m) MAX_LOG_ENTRIES) as [Hfull | Hroom].
  - destruct (store_entry_full e m Hlen ltac:(lia)) as (Hc & _ & Hl).
    rewrite Hc. split; [lia | exact Hl].
  - destruct (store_entry_room e m Hlen ltac:(lia)) as (Hc & Hb).
    rewrite Hc, Hb. split; [lia|].
    replace (log_count m + 1 - 1) with (log_count m) by lia.
    apply list_lookup_insert_eq. unfold MAX_LOG_ENTRIES in *. lia.
Qed.

(** ... and the entry that was the newest is now at [log_count - 2]. *)
Lemma store_entry_prev e x m :
  wf_monitor m ->
  log_buffer m !! Z.to_nat (log_count m - 1) = Some x ->
  1 <= log_count m ->
  log_buffer (store_entry e m) !! Z.to_nat (log_count (store_entry e m) - 2) = Some x.
Proof.
  intros (Hlen & Hcnt & _) Hx Hpos.
  destruct (Z.eq_dec (log_count m) MAX_LOG_ENTRIES) as [Hfull | Hroom].
  - destruct (store_entry_full e m Hlen ltac:(lia)) as (Hc & Hs & _).
    rewrite Hc, Hs by (unfold MAX_LOG_ENTRIES; lia).
    rewrite <- Hx. f_equal. unfold MAX_LOG_ENTRIES in *. lia.
  - destruct (store_entry_room e m Hlen ltac:(lia)) as (Hc & Hb).
    rewrite Hc, Hb. rewrite list_lookup_insert_ne by lia.
    rewrite <- Hx. f_equal. lia.
Qed.

Lemma log_effect_fault_count t1 t2 level error message function line m :
  level_ge level LOG_ERROR = true ->
  h_fault_count (health (log_effect t1 t2 level error message function line m))
  = uint16 (h_fault_count (health m) + 1).
Proof.
  intros Hl. unfold log_effect, store_entry. rewrite Hl.
  destruct (bool_decide _); reflexivity.
Qed.

(** The two entries a Critical append leaves behind while Running. *)
Lemma critical_append_running error message function line w :
  state_of w = STATE_RUNNING ->
  wf w ->
  let w' := exec (log_message LOG_CRITICAL error message function line) w in
  let e1 := new_entry (clock w (clock_reads w)) LOG_CRITICAL error message function line in
  let e2 := new_entry (clock w (S (clock_reads w))) LOG_WARNING error
                      fault_state_message "log_message" 396 in
  state_of w' = STATE_FAULT
  /\ h_fault_count (health (monitor w')) = uint16 (h_fault_count (health (monitor w)) + 1)
  /\ appends w'
     = appends w ++ [mk_append_event STATE_RUNNING LOG_CRITICAL error message function line;
                     mk_append_event STATE_FAULT LOG_WARNING error fault_state_message
                                     "log_message" 396]
  /\ log_count (monitor w') = Z.min (log_count (monitor w) + 2) MAX_LOG_ENTRIES
  /\ log_buffer (monitor w') !! Z.to_nat (log_count (monitor w') - 2) = Some e1
  /\ log_buffer (monitor w') !! Z.to_nat (log_count (monitor w') - 1) = Some e2.
Proof.
  intros Hrun Hwf w' e1 e2. subst w'. rewrite exec_log_message.
  split; [rewrite log_result_state, Hrun; reflexivity|].
  split; [unfold log_result; cbn [monitor];
          apply log_effect_fault_count; reflexivity|].
  split; [rewrite log_result_appends, Hrun; reflexivity|].
  unfold log_result; cbn [monitor]. unfold log_effect.
  change (level_ge LOG_CRITICAL LOG_ERROR) with true. cbv iota.
  fold (state_of w). rewrite bool_decide_eq_true_2 by exact Hrun.
  fold e1 e2.
  destruct (store_entry_last e1 (monitor w) Hwf) as [Hc1 Hl1].
  assert (Hwf1 := store_entry_wf e1 (monitor w) Hwf).
  set (m1 := store_entry e1 (monitor w)) in *.
  set (m2 := set_health (set_current_state STATE_FAULT)
                        (set_health bump_fault_count m1)).
  assert (Hwf2 : wf_monitor m2) by exact Hwf1.
  assert (Hpos : 1 <= log_count m2).
  { change (log_count m2) with (log_count m1). destruct Hwf as (_ & Hcnt & _).
    unfold MAX_LOG_ENTRIES in *. lia. }
  destruct (store_entry_last e2 m2 Hwf2) as [Hc2 Hl2].
  pose proof (store_entry_prev e2 e1 m2 Hwf2 Hl1 Hpos) as Hp2.
  change (log_count m2) with (log_count m1) in Hc2.
  split; [|split; assumption].
  rewrite Hc2, Hc1. lia.
Qed.

(** C7 (amended). A Critical append while Running ends in Fault, increments
    the health [fault_count] once (by 1 modulo 65536: it is a 16-bit
    counter), and performs exactly two appends: the Critical entry, then one
    Warning "System entered fault state" entry which finds the state already
    Fault and escalates no further.  The two entries end up as the two
    newest of the log; [log_count] grows by 2 when it was at most 998 and
    otherwise ends at the capacity 1000. *)
Theorem critical_append_escalates_once error message function line w :
  state_of w = STATE_RUNNING ->
  wf w ->
  let w' := exec (log_message LOG_CRITICAL error message function line) w in
  let e1 := new_entry (clock w (clock_reads w)) LOG_CRITICAL error message function line in
  let e2 := new_entry (clock w (S (clock_reads w))) LOG_WARNING error
                      fault_state_message "log_message" 396 in
  state_of w' = STATE_FAULT
  /\ h_fault_count (health (monitor w')) = uint16 (h_fault_count (health (monitor w)) + 1)
  /\ (0 <= h_fault_count (health (monitor w)) < 65535 ->
      h_fault_count (health (monitor w')) = h_fault_count (health (monitor w)) + 1)
  /\ appends w'
     = appends w ++ [mk_append_event STATE_RUNNING LOG_CRITICAL error message function line;
                     mk_append_event STATE_FAULT LOG_WARNING error fault_state_message
                                     "log_message" 396]
  /\ log_count (monitor w') = Z.min (log_count (monitor w) + 2) MAX_LOG_ENTRIES
  /\ (log_count (monitor w) <= MAX_LOG_ENTRIES - 2 ->
      log_count (monitor w') = log_count (monitor w) + 2)
  /\ log_buffer (monitor w') !! Z.to_nat (log_count (monitor w') - 2) = Some e1
  /\ log_buffer (monitor w') !! Z.to_nat (log_count (monitor w') - 1) = Some e2.
Proof.
  intros Hrun Hwf w' e1 e2.
  destruct (critical_append_running error message function line w Hrun Hwf)
    as (H1 & H2 & H3 & H4 & H5 & H6).
  cbv zeta in *. fold w' in H1, H2, H3, H4, H5, H6.
  split; [exact H1|]. split; [exact H2|]. split.
  { intros Hrange. rewrite H2. unfold uint16. apply Z.mod_small. lia. }
  split; [exact H3|]. split; [exact H4|]. split.
  { intros Hroom. rewrite H4. lia. }
  split; assumption.
Qed.

Lemma critical_append_escalates_once_witness :
  state_of fresh_world = STATE_RUNNING
  /\ wf fresh_world
  /\ state_of (exec (log_message LOG_CRITICAL ERR_WATCHDOG_TIMEOUT
                                 "Watchdog timeout detected" "check_system_health" 454)
                    fresh_world) = STATE_FAULT
  /\ log_count (monitor (exec (log_message LOG_CRITICAL ERR_WATCHDOG_TIMEOUT
                                 "Watchdog timeout detected" "check_system_health" 454)
                              fresh_world))
     = Z.min (log_count (monitor fresh_world) + 2) MAX_LOG_ENTRIES.
Proof.
  assert (Hrun : state_of fresh_world = STATE_RUNNING) by (vm_compute; reflexivity).
  assert (Hwf : wf fresh_world) by apply wf_initial_world.
  split; [exact Hrun|]. split; [exact Hwf|].
  pose proof (critical_append_escalates_once ERR_WATCHDOG_TIMEOUT
                "Watchdog timeout detected" "check_system_health" 454
                fresh_world Hrun Hwf) as H.
  cbv zeta in H. destruct H as (H1 & _ & _ & _ & H4 & _). split; assumption.
Defined.

(** The buffer filled by Info entries, the monitor still Running. *)
Definition full_world : world := run full_buffer_ops fresh_world.

Lemma error_append_spec w :
  state_of w = STATE_RUNNING \/ state_of w = STATE_FAULT ->
  state_of (exec (step sensor_failure) w) = STATE_FAULT
  /\ h_fault_count (health (monitor (exec (step sensor_failure) w)))
     = uint16 (h_fault_count (health (monitor w)) + 1).
Proof.
  intros Hst. cbn [step sensor_failure]. rewrite exec_log_message. split.
  - rewrite log_result_state. destruct Hst as [-> | ->]; reflexivity.
  - unfold log_result; cbn [monitor]. apply log_effect_fault_count. reflexivity.
Qed.

Lemma errors_spec n w :
  state_of w = STATE_RUNNING \/ state_of w = STATE_FAULT ->
  0 <= h_fault_count (health (monitor w)) ->
  h_fault_count (health (monitor w)) + Z.of_nat n < 65536 ->
  let w' := repeat_run n [sensor_failure] w in
  (state_of w' = STATE_RUNNING \/ state_of w' = STATE_FAULT)
  /\ ((0 < n)%nat -> state_of w' = STATE_FAULT)
  /\ h_fault_count (health (monitor w')) = h_fault_count (health (monitor w)) + Z.of_nat n.
Proof.
  revert w. induction n as [|n IH]; intros w Hst Hlo Hhi; cbn [repeat_run run].
  - split; [exact Hst|]. split; [lia | lia].
  - destruct (error_append_spec w Hst) as [Hf Hc].
    assert (Hc1 : h_fault_count (health (monitor (exec (step sensor_failure) w)))
                  = h_fault_count (health (monitor w)) + 1).
    { rewrite Hc. unfold uint16. apply Z.mod_small. lia. }
    destruct (IH (exec (step sensor_failure) w)) as (Hst' & Hpos & Hcnt);
      [right; exact Hf | lia | lia |].
    cbv zeta in *. split; [exact Hst'|]. split.
    + intros _. destruct n as [|n]; [exact Hf | apply Hpos; lia].
    + rewrite Hcnt, Hc1. lia.
Qed.

(** The monitor after 65535 Error appends and a recovery: Running, with the
    health [fault_count] at 65535. *)
Definition overflowing_world : world :=
  exec (step OpRecover) (repeat_run (Z.to_nat 65535) [sensor_failure] fresh_world).

Lemma overflowing_world_spec :
  state_of overflowing_world = STATE_RUNNING
  /\ h_fault_count (health (monitor overflowing_world)) = 65535.
Proof.
  unfold overflowing_world, fresh_world.
  destruct (initial_world_fields (fun _ => 0) (fun _ => 0) None false)
    as (Hrun & _ & _ & _ & _ & Hfc0).
  cbv zeta in Hrun, Hfc0.
  set (w0 := initial_world (fun _ => 0) (fun _ => 0) None false) in *.
  destruct (errors_spec (Z.to_nat 65535) w0) as (_ & Hf & Hcnt);
    [left; exact Hrun | lia | lia |].
  cbv zeta in Hf, Hcnt. rewrite Hfc0, Z2Nat.id in Hcnt by lia. cbn [Z.add] in Hcnt.
  assert (Hpos : (0 < Z.to_nat 65535)%nat) by (apply Nat2Z.inj_lt; rewrite Z2Nat.id; lia).
  specialize (Hf Hpos).
  destruct (attempt_fault_recovery_fault _ Hf) as (Hst & _ & Hfc & _).
  cbv zeta in Hst, Hfc. cbn [step].
  split; [exact Hst | rewrite Hfc; exact Hcnt].
Qed.

(** C7, as stated, fails twice over.  With the buffer full and the state
    Running, a Critical append leaves [log_count] at 1000 instead of
    raising it by 2; and with the health [fault_count] at 65535 it wraps the
    counter to 0 instead of incrementing it by 1. *)
Lemma critical_append_count_capped :
  (state_of full_world = STATE_RUNNING
   /\ log_count (monitor full_world) = 1000
   /\ log_count (monitor (exec (log_message LOG_CRITICAL ERR_MEMORY_CORRUPTION
                                  "Memory corruption simulation active"
                                  "simulate_memory_corruption" 667) full_world))
      <> log_count (monitor full_world) + 2)
  /\ (state_of overflowing_world = STATE_RUNNING
      /\ h_fault_count (health (monitor overflowing_world)) = 65535
      /\ h_fault_count
           (health (monitor (exec (log_message LOG_CRITICAL ERR_MEMORY_CORRUPTION
                                     "Memory corruption simulation active"
                                     "simulate_memory_corruption" 667)
                                  overflowing_world)))
         <> h_fault_count (health (monitor overflowing_world)) + 1).
Proof.
  split.
  - split; [vm_compute; reflexivity|]. split; [vm_compute; reflexivity|].
    vm_compute. discriminate.
  - destruct overflowing_world_spec as [Hrun Hfc].
    split; [exact Hrun|]. split; [exact Hfc|].
    rewrite exec_log_message. unfold log_result; cbn [monitor].
    rewrite log_effect_fault_count by reflexivity.
    rewrite Hfc. vm_compute. discriminate.
Qed.

(** ** The health tick *)

Lemma rem_below (r n : Z) : 0 < n -> Z.rem r n < n.
Proof.
  intros Hn. pose proof (Z.rem_bound_abs r n ltac:(lia)). lia.
Qed.

(** The world after lines 429-443: neither threshold test succeeds, so the
    block only advances the random source and rewrites three health fields. *)
Definition gauges_result (current_time : Z) (w : world) : world :=
  set_monitor
    (set_health (fun h =>
       mk_system_health (current_state h)
                        (uint32 (current_time - last_health_check h))
                        (h_fault_count h) (recovery_count h)
                        (10 + Z.rem (rand_src w (rand_draws w)) 40)
                        (20 + Z.rem (rand_src w (S (rand_draws w))) 60)
                        (last_health_check h)))
    (set_rand_draws (S (S (rand_draws w))) w).

Lemma monitor_gauges_eq current_time w :
  exec (monitor_gauges current_time) w = gauges_result current_time w.
Proof.
  unfold monitor_gauges.
  rewrite exec_seq, exec_bind. cbn [rand fst snd].
  rewrite exec_seq, exec_bind. cbn [rand fst snd].
  rewrite exec_seq.
  match goal with |- context [exec (bind (bind get_monitor _) _) ?x] => set (w1 := x) end.
  assert (Hw1 : w1 = gauges_result current_time w) by reflexivity.
  assert (Hcpu : cpu_usage_percent (health (monitor w1)) < 50).
  { rewrite Hw1. simpl. pose proof (rem_below (rand_src w (rand_draws w)) 40). lia. }
  assert (Hmem : memory_usage_percent (health (monitor w1)) < 80).
  { rewrite Hw1. simpl. pose proof (rem_below (rand_src w (S (rand_draws w))) 60). lia. }
  clearbody w1.
  rewrite exec_bind. cbn [bind get_monitor ret fst snd].
  replace (90 <? cpu_usage_percent (health (monitor w1))) with false
    by (symmetry; apply Z.ltb_ge; lia).
  rewrite exec_seq, exec_when_false.
  rewrite exec_bind. cbn [bind get_monitor ret fst snd].
  replace (85 <? memory_usage_percent (health (monitor w1))) with false
    by (symmetry; apply Z.ltb_ge; lia).
  rewrite exec_when_false. exact Hw1.
Qed.

(** A tick is: read the clock, rewrite the gauges, run the watchdog, note
    the time of the check. *)
Lemma check_system_health_eq w :
  let now := clock w (clock_reads w) in
  exec check_system_health w
  = exec (modify_health (set_last_health_check (uint32 now)))
         (exec (watchdog_simulation now)
               (gauges_result now (set_clock_reads (S (clock_reads w)) w))).
Proof.
  intros now. unfold check_system_health.
  rewrite exec_bind. cbn [time fst snd]. fold now.
  rewrite !exec_seq, monitor_gauges_eq. reflexivity.
Qed.

(** Steps that keep uptime and gauges and append watchdog events at most. *)
Definition watchdog_only (w0 w : world) : Prop :=
  uptime_seconds (health (monitor w)) = uptime_seconds (health (monitor w0))
  /\ cpu_usage_percent (health (monitor w)) = cpu_usage_percent (health (monitor w0))
  /\ memory_usage_percent (health (monitor w))
     = memory_usage_percent (health (monitor w0))
  /\ exists new, appends w = appends w0 ++ new
                 /\ Forall (fun e => ev_error e = ERR_WATCHDOG_TIMEOUT) new.

Lemma watchdog_only_refl w : watchdog_only w w.
Proof.
  repeat split. exists []. rewrite app_nil_r. auto.
Qed.

Lemma watchdog_only_quiet w0 w w' :
  appends w' = appends w ->
  uptime_seconds (health (monitor w')) = uptime_seconds (health (monitor w)) ->
  cpu_usage_percent (health (monitor w')) = cpu_usage_percent (health (monitor w)) ->
  memory_usage_percent (health (monitor w'))
  = memory_usage_percent (health (monitor w)) ->
  watchdog_only w0 w -> watchdog_only w0 w'.
Proof.
  intros Ha Hu Hc Hm (H0 & H1 & H2 & new & H3 & H4).
  split; [congruence|]. split; [congruence|]. split; [congruence|].
  exists new. rewrite Ha. auto.
Qed.

Lemma watchdog_only_log_message w0 level message function line :
  preserves (watchdog_only w0)
            (log_message level ERR_WATCHDOG_TIMEOUT message function line).
Proof.
  intros w (H0 & H1 & H2 & new & H3 & H4). rewrite log_message_eq. cbn [snd].
  destruct (log_effect_frame (clock w (clock_reads w)) (clock w (S (clock_reads w)))
              level ERR_WATCHDOG_TIMEOUT message function line (monitor w))
    as (_ & _ & _ & _ & _ & Hu & _ & Hc & Hm & _).
  cbv zeta in Hu, Hc, Hm.
  split; [unfold log_result; cbn [monitor]; congruence|].
  split; [unfold log_result; cbn [monitor]; congruence|].
  split; [unfold log_result; cbn [monitor]; congruence|].
  exists (new ++ log_events level ERR_WATCHDOG_TIMEOUT message function line (state_of w)).
  split.
  - rewrite log_result_appends, H3, app_assoc. reflexivity.
  - apply Forall_app. split; [exact H4|].
    unfold log_events. destruct (escalates _ _); repeat constructor.
Qed.

Ltac watchdog_prim :=
  idtac;
  match goal with
  | |- preserves _ (log_message _ ERR_WATCHDOG_TIMEOUT _ _ _) =>
      apply watchdog_only_log_message
  | |- preserves _ _ =>
      let w := fresh "w" in
      intros w; apply watchdog_only_quiet; reflexivity
  end.

Lemma watchdog_only_tail w0 current_time :
  preserves (watchdog_only w0)
            (watchdog_simulation current_time ;;
             modify_health (set_last_health_check (uint32 current_time))).
Proof.
  unfold watchdog_simulation, LOG_CRITICAL_. walk_with watchdog_prim.
Qed.

(** C10. Whatever [rand()] returns, the gauges a health tick regenerates
    satisfy [cpu_usage_percent < 50] and [memory_usage_percent < 80], so
    the comparisons with 90 and 85 fail: every entry the tick appends
    carries the watchdog error kind, none is a SystemOverload or a
    MemoryCorruption entry. *)
Theorem health_tick_never_overloads w :
  let w' := exec check_system_health w in
  cpu_usage_percent (health (monitor w')) < 50
  /\ memory_usage_percent (health (monitor w')) < 80
  /\ (90 <? cpu_usage_percent (health (monitor w'))) = false
  /\ (85 <? memory_usage_percent (health (monitor w'))) = false
  /\ exists new,
       appends w' = appends w ++ new
       /\ forall e, e ∈ new ->
            ev_error e = ERR_WATCHDOG_TIMEOUT
            /\ ev_error e <> ERR_SYSTEM_OVERLOAD
            /\ ev_error e <> ERR_MEMORY_CORRUPTION.
Proof.
  intros w'. subst w'. rewrite check_system_health_eq. cbv zeta.
  set (now := clock w (clock_reads w)).
  set (w1 := gauges_result now _).
  rewrite <- exec_seq.
  destruct (watchdog_only_tail w1 now w1 (watchdog_only_refl w1))
    as (_ & Hc & Hm & new & Ha & Hall).
  change (bind _ _ w1).2 with
    (exec (watchdog_simulation now ;;
           modify_health (set_last_health_check (uint32 now))) w1) in *.
  rewrite Hc, Hm.
  assert (Hcpu : cpu_usage_percent (health (monitor w1)) < 50).
  { subst w1. simpl. pose proof (rem_below (rand_src w (rand_draws w)) 40). lia. }
  assert (Hmem : memory_usage_percent (health (monitor w1)) < 80).
  { subst w1. simpl. pose proof (rem_below (rand_src w (S (rand_draws w))) 60). lia. }
  split; [exact Hcpu|]. split; [exact Hmem|].
  split; [apply Z.ltb_ge; lia|]. split; [apply Z.ltb_ge; lia|].
  exists new. split; [rewrite Ha; reflexivity|].
  intros e He. rewrite Forall_forall in Hall. rewrite (Hall e He).
  repeat split; discriminate.
Qed.

(** After a tick [uptime_seconds] is the time elapsed since the previous
    check, and that check time is replaced by the current one. *)
Lemma check_system_health_uptime w :
  let w' := exec check_system_health w in
  uptime_seconds (health (monitor w'))
  = uint32 (clock w (clock_reads w) - last_health_check (health (monitor w))).
Proof.
  intros w'. subst w'. rewrite check_system_health_eq. cbv zeta.
  set (now := clock w (clock_reads w)).
  set (w1 := gauges_result now _).
  rewrite <- exec_seq.
  destruct (watchdog_only_tail w1 now w1 (watchdog_only_refl w1)) as (Hu & _).
  change (bind _ _ w1).2 with
    (exec (watchdog_simulation now ;;
           modify_health (set_last_health_check (uint32 now))) w1) in *.
  rewrite Hu. reflexivity.
Qed.

(** ** The watchdog latch *)

Definition is_watchdog_entry (e : append_event) : bool :=
  bool_decide (ev_level e = LOG_CRITICAL)
  && bool_decide (ev_error e = ERR_WATCHDOG_TIMEOUT).

(** The Critical/WatchdogTimeout appends made so far. *)
Definition watchdog_entries (w : world) : list append_event :=
  filter (fun e => is_watchdog_entry e = true) (appends w).

(** Either nothing was logged yet, or one entry was and the flag is set for
    good: with a clock that never reads 0 the first-call branch, the only
    one that clears [watchdog_logged], is not taken again. *)
Definition watchdog_latched (w : world) : Prop :=
  (forall k, clock w k <> 0)
  /\ ((watchdog_logged w = false /\ watchdog_entries w = [])
      \/ (watchdog_logged w = true
          /\ last_watchdog_feed w <> 0
          /\ length (watchdog_entries w) = 1%nat)).

Lemma watchdog_entries_log_critical message function line w :
  watchdog_entries (log_result LOG_CRITICAL ERR_WATCHDOG_TIMEOUT message function line w)
  = watchdog_entries w
    ++ [mk_append_event (state_of w) LOG_CRITICAL ERR_WATCHDOG_TIMEOUT
                        message function line].
Proof.
  unfold watchdog_entries. rewrite log_result_appends, filter_app. f_equal.
  unfold log_events. destruct (escalates _ _); reflexivity.
Qed.

Lemma watchdog_latched_simulation w :
  watchdog_latched w ->
  watchdog_latched (exec (watchdog_simulation (clock w (clock_reads w)))
                         (gauges_result (clock w (clock_reads w))
                                        (set_clock_reads (S (clock_reads w)) w))).
Proof.
  intros [Hclk Hcase].
  set (now := clock w (clock_reads w)).
  set (w1 := gauges_result now _).
  assert (Hnow : now <> 0) by apply Hclk.
  assert (H1 : clock w1 = clock w /\ watchdog_logged w1 = watchdog_logged w
               /\ last_watchdog_feed w1 = last_watchdog_feed w
               /\ watchdog_entries w1 = watchdog_entries w)
    by (repeat split; reflexivity).
  destruct H1 as (Hc1 & Hl1 & Hf1 & He1). clearbody w1.
  unfold watchdog_latched, watchdog_simulation.
  rewrite exec_bind. cbn [get_last_watchdog_feed fst snd]. rewrite Hf1.
  destruct (last_watchdog_feed w =? 0) eqn:Hzero.
  - (* first call: the feed time is taken, the flag cleared *)
    apply Z.eqb_eq in Hzero.
    cbn [exec bind set_last_watchdog_feed set_watchdog_logged fst snd clock
         set_watchdog watchdog_logged last_watchdog_feed].
    split; [rewrite Hc1; exact Hclk|]. left. split; [reflexivity|].
    change (watchdog_entries w1 = []). rewrite He1.
    destruct Hcase as [[_ Hnone] | (_ & Hfeed & _)]; [exact Hnone | contradiction].
  - destruct (5 <=? now - last_watchdog_feed w) eqn:Hdue.
    + rewrite exec_bind. cbn [get_watchdog_logged fst snd]. rewrite Hl1.
      destruct (watchdog_logged w) eqn:Hlogged; cbn [negb].
      * (* already logged: only the feed time moves *)
        rewrite exec_seq, exec_when_false.
        cbn [exec set_last_watchdog_feed snd clock set_watchdog watchdog_logged
             last_watchdog_feed].
        split; [rewrite Hc1; exact Hclk|]. right.
        split; [exact Hl1|]. split; [exact Hnow|].
        change (length (watchdog_entries w1) = 1%nat). rewrite He1.
        destruct Hcase as [[Hfalse _] | (_ & _ & Hone)]; [discriminate | exact Hone].
      * (* the one timeout entry *)
        rewrite exec_seq, exec_when_true, exec_seq. unfold LOG_CRITICAL_.
        rewrite exec_log_message.
        set (w2 := log_result _ _ _ _ _ _).
        cbn [exec set_last_watchdog_feed set_watchdog_logged snd clock set_watchdog
             watchdog_logged last_watchdog_feed].
        split; [change (forall k, clock w1 k <> 0); rewrite Hc1; exact Hclk|]. right.
        split; [reflexivity|]. split; [exact Hnow|].
        change (length (watchdog_entries w2) = 1%nat). subst w2.
        rewrite watchdog_entries_log_critical, He1.
        destruct Hcase as [[_ Hnone] | (Htrue & _)]; [|discriminate].
        rewrite Hnone. reflexivity.
    + (* within the window: nothing happens *)
      change (exec (ret tt) w1) with w1.
      rewrite Hc1, Hl1, Hf1, He1. split; assumption.
Qed.

Lemma watchdog_latched_tick : preserves watchdog_latched check_system_health.
Proof.
  intros w Hw. change (check_system_health w).2 with (exec check_system_health w).
  rewrite check_system_health_eq. cbv zeta.
  apply watchdog_latched_simulation in Hw. exact Hw.
Qed.

(** However many ticks follow the initialisation and however they are
    spaced, the log receives at most one watchdog entry. *)
Lemma watchdog_at_most_once clk rnd fopen_result write_fails n :
  (forall k, clk k <> 0) ->
  (length (watchdog_entries (run (replicate n OpTick)
                                 (initial_world clk rnd fopen_result write_fails)))
   <= 1)%nat.
Proof.
  intros Hclk.
  assert (Hinit : watchdog_latched (initial_world clk rnd fopen_result write_fails)).
  { split.
    - replace (clock (initial_world clk rnd fopen_result write_fails)) with clk
        by (destruct fopen_result; reflexivity).
      exact Hclk.
    - left. destruct fopen_result; vm_compute; split; reflexivity. }
  assert (Hrun : forall w, watchdog_latched w ->
                   watchdog_latched (run (replicate n OpTick) w)).
  { induction n as [|n IH]; intros w Hw; simpl; [exact Hw|].
    apply IH. apply watchdog_latched_tick, Hw. }
  destruct (Hrun _ Hinit) as [_ [[_ Hnone] | (_ & _ & Hone)]].
  - rewrite Hnone. simpl. lia.
  - rewrite Hone. lia.
Qed.

(** ** Scenarios *)

(** A clock given by the list of its successive readings. *)
Definition clock_of (readings : list Z) (k : nat) : Z :=
  match readings !! k with
  | Some t => t
  | None => 0
  end.

(** Thirteen ticks one second apart, from second 1000 to second 1012.  The
    first four readings are those of [debug_init]; the tick at second 1005
    reads the clock three times (itself, the Critical entry, the fault-state
    warning). *)
Definition twelve_seconds : list Z :=
  [1000; 1000; 1000; 1000;
   1000; 1001; 1002; 1003; 1004;
   1005; 1005; 1005;
   1006; 1007; 1008; 1009; 1010; 1011; 1012].

Definition after_twelve_seconds : world :=
  run (replicate 13 OpTick)
      (initial_world (clock_of twelve_seconds) (fun _ => 0) None false).

(** C6 (the code departs from the claim). Over ticks spanning twelve
    seconds the code produces one Critical/WatchdogTimeout entry, at second
    1005, and none at second 1010: [watchdog_logged] is still set there,
    although the feed timestamp has been moved to 1010. *)
Theorem watchdog_fires_once_in_twelve_seconds :
  watchdog_entries after_twelve_seconds
  = [mk_append_event STATE_RUNNING LOG_CRITICAL ERR_WATCHDOG_TIMEOUT
                     "Watchdog timeout detected" "check_system_health" 454]
  /\ length (watchdog_entries after_twelve_seconds) = 1%nat
  /\ log_buffer (monitor after_twelve_seconds) !! 2%nat
     = Some (mk_log_entry 1005 LOG_CRITICAL ERR_WATCHDOG_TIMEOUT
                          "Watchdog timeout detected" "check_system_health" 454)
  /\ last_watchdog_feed after_twelve_seconds = 1010
  /\ watchdog_logged after_twelve_seconds = true
  /\ clock_reads after_twelve_seconds = length twelve_seconds.
Proof. vm_compute. repeat split; reflexivity. Qed.

(** Three ticks: at second 1000, at second 1001 and again within second
    1001, as a polling loop faster than the clock makes them. *)
Definition same_second : list Z :=
  [1000; 1000; 1000; 1000; 1000; 1001; 1001].

Definition after_two_ticks : world :=
  run [OpTick; OpTick] (initial_world (clock_of same_second) (fun _ => 0) None false).

(** C8 (the code departs from the claim). [uptime_seconds] is the time since
    the previous tick: with the monitor Running throughout, it is 1 after
    the tick at second 1001 and 0 after the next tick within that second. *)
Theorem uptime_seconds_decreases :
  state_of after_two_ticks = STATE_RUNNING
  /\ state_of (exec (step OpTick) after_two_ticks) = STATE_RUNNING
  /\ uptime_seconds (health (monitor after_two_ticks)) = 1
  /\ uptime_seconds (health (monitor (exec (step OpTick) after_two_ticks))) = 0
  /\ ~ (uptime_seconds (health (monitor after_two_ticks))
        <= uptime_seconds (health (monitor (exec (step OpTick) after_two_ticks)))).
Proof.
  vm_compute. repeat split; try reflexivity. intros H. apply H. reflexivity.
Qed.

(** Shutdown without a sink, from Running, in general. *)
Lemma shutdown_prefix w :
  log_file (monitor w) = None ->
  state_of w = STATE_RUNNING ->
  state_of (exec (LOG_INFO_ "Shutting down debug monitoring system" "debug_shutdown" 345 ;;
                  save_log_to_file ;;
                  m <- get_monitor ;;
                  when (negb (bool_decide (log_file m = None)))
                    (modify (set_log_file None))) w) = STATE_FAULT.
Proof.
  intros Hnull Hrun. unfold LOG_INFO_.
  rewrite exec_seq, exec_log_message.
  set (w1 := log_result _ _ _ _ _ _).
  assert (H1 : log_file (monitor w1) = None /\ state_of w1 = STATE_RUNNING).
  { subst w1. split.
    - unfold log_result; cbn [monitor]. rewrite <- Hnull. apply log_effect_frame.
    - rewrite log_result_state, Hrun. reflexivity. }
  destruct H1 as [Hnull1 Hrun1].
  rewrite exec_seq. unfold save_log_to_file at 1.
  rewrite (exec_bind get_monitor _ w1). cbn [get_monitor fst snd]. rewrite Hnull1.
  unfold LOG_ERROR_. rewrite exec_log_message.
  set (w2 := log_result _ _ _ _ _ _).
  assert (H2 : log_file (monitor w2) = None /\ state_of w2 = STATE_FAULT).
  { subst w2. split.
    - unfold log_result; cbn [monitor]. rewrite <- Hnull1. apply log_effect_frame.
    - rewrite log_result_state, Hrun1. reflexivity. }
  destruct H2 as [Hnull2 Hf2].
  rewrite exec_bind. cbn [get_monitor fst snd]. rewrite Hnull2.
  rewrite bool_decide_eq_true_2 by reflexivity. cbn [negb].
  rewrite exec_when_false. exact Hf2.
Qed.
Lemma shutdown_without_sink_aborts w :
  log_file (monitor w) = None ->
  state_of w = STATE_RUNNING ->
  exists w', debug_shutdown w = Aborted w' /\ state_of w' = STATE_FAULT.
Proof.
  intros Hnull Hrun. unfold debug_shutdown.
  pose proof (shutdown_prefix w Hnull Hrun) as Hpre.
  set (w1 := exec _ w) in *. cbv zeta.
  unfold ASSERT_STATE. fold (state_of w1). rewrite Hpre.
  rewrite bool_decide_eq_true_2 by reflexivity. cbn [negb].
  unfold LOG_CRITICAL_. rewrite exec_log_message.
  set (w3 := log_result _ _ _ _ _ _).
  assert (Hf3 : state_of w3 = STATE_FAULT).
  { subst w3. rewrite log_result_state, Hpre. reflexivity. }
  fold (state_of w3). rewrite Hf3.
  rewrite bool_decide_eq_true_2 by reflexivity. cbn [negb].
  exists w3. split; [reflexivity | exact Hf3].
Qed.

(** Shutdown with a healthy sink, from Running. *)
Lemma shutdown_with_sink_returns w f :
  log_file (monitor w) = Some f ->
  f_error f = false ->
  sink_write_fails w = false ->
  state_of w = STATE_RUNNING ->
  exists w', debug_shutdown w = Returned w' /\ state_of w' = STATE_RUNNING.
Proof.
  intros Hsink Herr Hfails Hrun. unfold debug_shutdown.
  match goal with
  | |- context [exec ?c w] =>
      assert (Hpre : state_of (exec c w) = STATE_RUNNING); [|set (w1 := exec c w) in *]
  end.
  { unfold LOG_INFO_. rewrite exec_seq, exec_log_message.
    set (w1 := log_result _ _ _ _ _ _).
    assert (H1 : log_file (monitor w1) = Some f /\ state_of w1 = STATE_RUNNING
                 /\ sink_write_fails w1 = false).
    { subst w1. split; [|split].
      - unfold log_result; cbn [monitor]. rewrite <- Hsink. apply log_effect_frame.
      - rewrite log_result_state, Hrun. reflexivity.
      - exact Hfails. }
    destruct H1 as (Hsink1 & Hrun1 & Hfails1).
    rewrite exec_seq. unfold save_log_to_file at 1.
    rewrite (exec_bind get_monitor _ w1). cbn [get_monitor fst snd]. rewrite Hsink1.
    rewrite (exec_bind get_sink_write_fails _ w1). cbn [get_sink_write_fails fst snd].
    rewrite Hfails1, Herr. cbn [orb].
    rewrite (exec_seq (modify _) _ w1), exec_when_false.
    rewrite exec_bind. cbn [get_monitor modify exec fst snd set_monitor monitor
                            set_log_file log_file].
    rewrite bool_decide_eq_false_2 by discriminate. cbn [negb when].
    exact Hrun1. }
  cbv zeta. unfold ASSERT_STATE. fold (state_of w1). rewrite Hpre.
  rewrite bool_decide_eq_false_2 by discriminate. cbn [negb].
  exists w1. split; [reflexivity | exact Hpre].
Qed.

Lemma initial_world_sink_write_fails clk rnd fopen_result write_fails :
  sink_write_fails (initial_world clk rnd fopen_result write_fails) = write_fails.
Proof. destruct fopen_result; vm_compute; reflexivity. Qed.

(** C9 (the code departs from the claim). Whatever the clock, when the sink
    could not be opened the monitor initialises to Running, and shutting it
    down aborts: [save_log_to_file] logs the missing sink at Error level,
    which escalates Running to Fault, and the final assertion fires.  With
    the sink open and writable the same shutdown returns. *)
Theorem missing_sink_aborts_shutdown clk rnd write_fails :
  let w := initial_world clk rnd None write_fails in
  state_of w = STATE_RUNNING
  /\ log_file (monitor w) = None
  /\ (exists w', debug_shutdown w = Aborted w' /\ state_of w' = STATE_FAULT)
  /\ map ev_message (appends (world_of (debug_shutdown w)))
     = ["Debug monitoring system initialized";
        "System transitioned to RUNNING state";
        "Shutting down debug monitoring system";
        "Log file not available";
        "System entered fault state";
        "System shutdown with unresolved faults"]
  /\ (forall written, exists w',
        debug_shutdown (initial_world clk rnd (Some (mk_FILE written false)) false)
        = Returned w'
        /\ state_of w' = STATE_RUNNING).
Proof.
  intros w. subst w.
  destruct (initial_world_fields clk rnd None write_fails)
    as (Hrun & _ & _ & Hnull & _).
  cbv zeta in Hrun, Hnull.
  split; [exact Hrun|]. split; [exact Hnull|]. split; [|split].
  - apply shutdown_without_sink_aborts; assumption.
  - vm_compute. reflexivity.
  - intros written.
    destruct (initial_world_fields clk rnd (Some (mk_FILE written false)) false)
      as (Hrun' & _ & _ & Hsink & _).
    cbv zeta in Hrun', Hsink.
    apply (shutdown_with_sink_returns _ (mk_FILE written false));
      [exact Hsink | reflexivity | apply initial_world_sink_write_fails | exact Hrun'].
Qed.

(** ** Sanity checks on concrete runs *)

Example init_leaves_two_entries :
  log_count (monitor fresh_world) = 2
  /\ state_of fresh_world = STATE_RUNNING
  /\ console fresh_world = [OutText "Warning: Could not open log file"].
Proof. vm_compute. repeat split; reflexivity. Qed.

Example inject_fills_first_record :
  fault_history (monitor (exec (inject_fault FAULT_ACTUATOR_FAIL) fresh_world)) !! 0%nat
  = Some (mk_fault_record 0 FAULT_ACTUATOR_FAIL ERR_NONE false "Injected fault: 2").
Proof. vm_compute. reflexivity. Qed.

Example error_append_mirrors_two_lines :
  console (exec (step sensor_failure) fresh_world)
  = [OutText "Warning: Could not open log file";
     OutLog "ERROR" "simulate_sensor_reading" 589 "Sensor failure detected";
     OutLog "WARN" "log_message" 396 "System entered fault state"].
Proof. vm_compute. reflexivity. Qed.

Example recovery_resolves_the_record :
  fr_resolved <$> fault_history (monitor (exec attempt_fault_recovery faulted_world)) !! 0%nat
  = Some true
  /\ state_of (exec attempt_fault_recovery faulted_world) = STATE_RUNNING
  /\ fault_injection_enabled (monitor (exec attempt_fault_recovery faulted_world)) = false.
Proof. vm_compute. repeat split; reflexivity. Qed.

(** * Further properties of the code *)

(** * Further properties of the monitor *)

Lemma run_invariant (I : world -> Prop) :
  (forall op, preserves I (step op)) ->
  forall ops w, I w -> I (run ops w).
Proof.
  intros Hstep ops. induction ops as [|op ops IH]; intros w Hw; simpl; [exact Hw|].
  apply IH. apply (Hstep op w), Hw.
Qed.

(** ** The buffer holds the newest appends *)

(** What an entry and an append have in common: everything but the
    timestamp, the texts cut to the size of their fields. *)
Definition entry_fields (e : log_entry_t)
  : log_level_t * error_code_t * string * string * Z :=
  (le_level e, le_error_code e, le_message e, le_function e, le_line_number e).

Definition event_fields (ev : append_event)
  : log_level_t * error_code_t * string * string * Z :=
  (ev_level ev, ev_error ev, strncpy (ev_message ev) 255,
   strncpy (ev_function ev) 63, ev_line ev).

(** The entries in use: slots [0 .. log_count - 1]. *)
Definition log_view (m : debug_monitor_t) : list log_entry_t :=
  take (Z.to_nat (log_count m)) (log_buffer m).

(** The last [k] elements of a list. *)
Definition newest {A} (k : nat) (l : list A) : list A := drop (length l - k) l.

Definition mirrors (m : debug_monitor_t) (evs : list append_event) : Prop :=
  length (log_buffer m) = Z.to_nat MAX_LOG_ENTRIES
  /\ log_count m = Z.min (Z.of_nat (length evs)) MAX_LOG_ENTRIES
  /\ entry_fields <$> log_view m
     = event_fields <$> newest (Z.to_nat (log_count m)) evs.

Definition log_mirrors (w : world) : Prop := mirrors (monitor w) (appends w).

Lemma log_view_store e m :
  length (log_buffer m) = Z.to_nat MAX_LOG_ENTRIES ->
  0 <= log_count m <= MAX_LOG_ENTRIES ->
  log_view (store_entry e m)
  = (if MAX_LOG_ENTRIES <=? log_count m then drop 1 (log_view m) else log_view m)
    ++ [e].
Proof.
  intros Hlen Hcnt. unfold log_view.
  destruct (MAX_LOG_ENTRIES <=? log_count m) eqn:Hfull.
  - apply Z.leb_le in Hfull.
    destruct (store_entry_full e m Hlen Hfull) as (Hc & Hshift & Hlast).
    assert (Hlen' : length (log_buffer (store_entry e m)) = Z.to_nat MAX_LOG_ENTRIES).
    { unfold store_entry; simpl. rewrite length_insert.
      destruct (_ <=? _); [apply memmove_log_buffer_length|]; exact Hlen. }
    rewrite Hc. rewrite !take_ge by (unfold MAX_LOG_ENTRIES in *; lia).
    apply list_eq. intros i.
    destruct (decide (i < Z.to_nat (MAX_LOG_ENTRIES - 1))%nat) as [Hi | Hi].
    + rewrite Hshift by exact Hi.
      rewrite lookup_app_l by (rewrite length_drop, Hlen; unfold MAX_LOG_ENTRIES in *; lia).
      rewrite lookup_drop. reflexivity.
    + destruct (decide (i = Z.to_nat (MAX_LOG_ENTRIES - 1))) as [-> | Hne].
      * rewrite Hlast. rewrite lookup_app_r
          by (rewrite length_drop, Hlen; unfold MAX_LOG_ENTRIES; lia).
        rewrite length_drop, Hlen.
        replace (Z.to_nat (MAX_LOG_ENTRIES - 1) - (Z.to_nat MAX_LOG_ENTRIES - 1))%nat
          with 0%nat by (unfold MAX_LOG_ENTRIES; lia).
        reflexivity.
      * rewrite !lookup_ge_None_2; [reflexivity | |].
        -- rewrite length_app, length_drop, Hlen. simpl.
           unfold MAX_LOG_ENTRIES in *. lia.
        -- rewrite Hlen'. unfold MAX_LOG_ENTRIES in *. lia.
  - apply Z.leb_gt in Hfull.
    destruct (store_entry_room e m Hlen ltac:(lia)) as (Hc & Hb).
    rewrite Hc, Hb.
    replace (Z.to_nat (log_count m + 1)) with (S (Z.to_nat (log_count m))) by lia.
    rewrite (take_S_r _ _ e).
    + rewrite take_insert_ge by lia. reflexivity.
    + apply list_lookup_insert_eq. unfold MAX_LOG_ENTRIES in *. lia.
Qed.

Lemma log_count_store e m :
  length (log_buffer m) = Z.to_nat MAX_LOG_ENTRIES ->
  0 <= log_count m <= MAX_LOG_ENTRIES ->
  log_count (store_entry e m) = Z.min (log_count m + 1) MAX_LOG_ENTRIES.
Proof.
  intros Hlen Hcnt.
  destruct (Z.eq_dec (log_count m) MAX_LOG_ENTRIES) as [Hfull | Hroom].
  - destruct (store_entry_full e m Hlen ltac:(lia)) as (Hc & _). lia.
  - destruct (store_entry_room e m Hlen ltac:(lia)) as (Hc & _). lia.
Qed.

Lemma mirrors_store e ev m evs :
  entry_fields e = event_fields ev ->
  mirrors m evs -> mirrors (store_entry e m) (evs ++ [ev]).
Proof.
  intros Hfields (Hlen & Hcnt & Hview).
  assert (Hrange : 0 <= log_count m <= MAX_LOG_ENTRIES)
    by (unfold MAX_LOG_ENTRIES in *; lia).
  pose proof (log_count_store e m Hlen Hrange) as Hc.
  split; [|split].
  - unfold store_entry; simpl. rewrite length_insert.
    destruct (_ <=? _); [apply memmove_log_buffer_length|]; exact Hlen.
  - rewrite Hc, length_app. simpl. unfold MAX_LOG_ENTRIES in *. lia.
  - rewrite log_view_store by assumption. rewrite fmap_app.
    unfold newest in *. rewrite length_app.
    set (c' := log_count (store_entry e m)) in *. clearbody c'.
    cbn [fmap list_fmap length].
    destruct (MAX_LOG_ENTRIES <=? log_count m) eqn:Hfull.
    + apply Z.leb_le in Hfull.
      rewrite drop_app_le by (rewrite Hc; unfold MAX_LOG_ENTRIES in *; lia).
      rewrite fmap_app. cbn [fmap list_fmap]. rewrite Hfields. f_equal.
      rewrite fmap_drop, Hview, <- fmap_drop, drop_drop. do 2 f_equal.
      rewrite Hc. unfold MAX_LOG_ENTRIES in *. lia.
    + apply Z.leb_gt in Hfull.
      replace (length evs + 1 - Z.to_nat c')%nat with 0%nat
        by (rewrite Hc; unfold MAX_LOG_ENTRIES in *; lia).
      replace (length evs - Z.to_nat (log_count m))%nat with 0%nat in Hview
        by (unfold MAX_LOG_ENTRIES in *; lia).
      rewrite drop_0 in *. rewrite fmap_app. cbn [fmap list_fmap].
      rewrite Hview, Hfields. reflexivity.
Qed.

Lemma mirrors_log_result level error message function line w :
  log_mirrors w -> log_mirrors (log_result level error message function line w).
Proof.
  unfold log_mirrors. intros Hm. rewrite log_result_appends.
  unfold log_result; cbn [monitor]. unfold log_effect, log_events, escalates.
  fold (state_of w).
  assert (H1 := mirrors_store
                  (new_entry (clock w (clock_reads w)) level error message function line)
                  (mk_append_event (state_of w) level error message function line)
                  _ _ eq_refl Hm).
  destruct (level_ge level LOG_ERROR); cbn [andb]; [|exact H1].
  destruct (bool_decide (state_of w = STATE_RUNNING)); [|exact H1].
  change (appends w ++ [?a; ?b]) with (appends w ++ [a] ++ [b]).
  rewrite app_assoc.
  apply (mirrors_store _ _ (set_health (set_current_state STATE_FAULT)
                              (set_health bump_fault_count _))); [reflexivity|].
  exact H1.
Qed.

Lemma log_mirrors_quiet w w' :
  log_buffer (monitor w') = log_buffer (monitor w) ->
  log_count (monitor w') = log_count (monitor w) ->
  appends w' = appends w ->
  log_mirrors w -> log_mirrors w'.
Proof.
  unfold log_mirrors, mirrors, log_view. intros -> -> ->. auto.
Qed.

Ltac mirrors_prim :=
  idtac;
  match goal with
  | |- preserves _ (log_message _ _ _ _ _) =>
      let w := fresh "w" in
      intros w; rewrite log_message_eq; apply mirrors_log_result
  | |- preserves _ (recovery_loop _ _) => fail 1
  | |- preserves _ _ =>
      let w := fresh "w" in
      intros w; apply log_mirrors_quiet; reflexivity
  end.

Lemma mirrors_recovery_loop fuel i : preserves log_mirrors (recovery_loop fuel i).
Proof.
  revert i. induction fuel as [|fuel IH]; intros i; simpl.
  - apply preserves_ret.
  - unfold LOG_INFO_. walk_with ltac:(first [apply IH | mirrors_prim]).
Qed.

Lemma mirrors_step op : preserves log_mirrors (step op).
Proof.
  destruct op; cbn [step].
  - mirrors_prim.
  - unfold inject_fault, LOG_WARNING_. walk_with mirrors_prim.
  - unfold check_system_health, monitor_gauges, watchdog_simulation,
      LOG_ERROR_, LOG_CRITICAL_.
    walk_with mirrors_prim.
  - unfold attempt_fault_recovery, LOG_INFO_.
    walk_with ltac:(first [apply mirrors_recovery_loop | mirrors_prim]).
  - unfold display_debug_info. walk_with mirrors_prim.
Qed.

Lemma mirrors_initial_world clk rnd fopen_result write_fails :
  log_mirrors (initial_world clk rnd fopen_result write_fails).
Proof.
  unfold log_mirrors, mirrors, log_view, newest.
  destruct fopen_result; vm_compute; repeat split; reflexivity.
Qed.

(** X1. On every world reachable from [debug_init], the entries in use are
    the newest [min n 1000] of the [n] appends made so far, in the order they
    were made: level, error kind, line and the (truncated) texts agree. *)
Theorem log_buffer_holds_newest_appends clk rnd fopen_result write_fails ops :
  let w := run ops (initial_world clk rnd fopen_result write_fails) in
  log_count (monitor w) = Z.min (Z.of_nat (length (appends w))) MAX_LOG_ENTRIES
  /\ entry_fields <$> log_view (monitor w)
     = event_fields <$> newest (Z.to_nat (log_count (monitor w))) (appends w).
Proof.
  intros w.
  assert (H : log_mirrors w).
  { apply run_invariant; [apply mirrors_step | apply mirrors_initial_world]. }
  destruct H as (_ & H1 & H2). split; assumption.
Qed.

(** ** display_debug_info in closed form *)

Lemma print_all_eq ls w :
  exec (print_all ls) w = set_console (console w ++ ls) w.
Proof.
  revert w. induction ls as [|l ls IH]; intros w; cbn [print_all].
  - destruct w. unfold exec, ret, set_console; simpl. rewrite app_nil_r. reflexivity.
  - rewrite exec_seq, IH. destruct w. unfold exec, printf, set_console; simpl.
    rewrite <- app_assoc. reflexivity.
Qed.

(** The lines [display_debug_info] prints for a monitor. *)
Definition display_lines (m : debug_monitor_t) : list console_line :=
  [OutText "=== Debug Information ==="; OutHealth (health m);
   OutText "Recent Log Entries:"]
  ++ ((fun e => OutLogEntry (entry_tag (le_level e)) (le_message e))
        <$> drop (Z.to_nat (log_count m - 5)) (log_view m))
  ++ [OutText "Fault History:"]
  ++ ((fun r => OutFaultRecord (if fr_resolved r then "RESOLVED" else "ACTIVE")
                               (fr_description r))
        <$> take (Z.to_nat (fault_count m)) (fault_history m)).

Lemma recent_entries_eq (c : Z) (buf : list log_entry_t) :
  take (Z.to_nat (c - (if 5 <? c then c - 5 else 0)))
       (drop (Z.to_nat (if 5 <? c then c - 5 else 0)) buf)
  = drop (Z.to_nat (c - 5)) (take (Z.to_nat c) buf).
Proof.
  destruct (5 <? c) eqn:H5; [apply Z.ltb_lt in H5 | apply Z.ltb_ge in H5].
  - rewrite take_drop_commute. do 2 f_equal. lia.
  - replace (Z.to_nat (c - 5)) with 0%nat by lia.
    replace (Z.to_nat 0) with 0%nat by lia.
    rewrite !drop_0. f_equal. lia.
Qed.

Lemma printf_eq l w : exec (printf l) w = set_console (console w ++ [l]) w.
Proof. reflexivity. Qed.

Lemma set_console_twice c1 c2 w : set_console c2 (set_console c1 w) = set_console c2 w.
Proof. reflexivity. Qed.

Lemma console_set_console c w : console (set_console c w) = c.
Proof. reflexivity. Qed.

Lemma map_is_fmap {A B} (f : A -> B) (l : list A) : map f l = f <$> l.
Proof. reflexivity. Qed.

Lemma display_debug_info_eq w :
  exec display_debug_info w = set_console (console w ++ display_lines (monitor w)) w.
Proof.
  unfold display_debug_info. rewrite exec_bind. cbn [get_monitor fst snd].
  rewrite !exec_seq, !print_all_eq, !printf_eq, recent_entries_eq, !map_is_fmap.
  rewrite !console_set_console, !set_console_twice.
  unfold display_lines, log_view. f_equal.
  rewrite <- !app_assoc. reflexivity.
Qed.

(** Evaluate [level_ge] on two given levels. *)
Ltac eval_level_ge :=
  repeat match goal with
         | |- context [level_ge ?a ?b] =>
             let v := eval vm_compute in (level_ge a b) in
             change (level_ge a b) with v
         end.

(** ** The health fault counter counts the Error-or-higher appends *)

Definition fault_events (evs : list append_event) : list append_event :=
  filter (fun ev => level_ge (ev_level ev) LOG_ERROR = true) evs.

Definition counts_faults (w : world) : Prop :=
  h_fault_count (health (monitor w))
  = uint16 (Z.of_nat (length (fault_events (appends w)))).

Lemma counts_faults_quiet w w' :
  h_fault_count (health (monitor w')) = h_fault_count (health (monitor w)) ->
  appends w' = appends w ->
  counts_faults w -> counts_faults w'.
Proof. unfold counts_faults. intros -> ->. auto. Qed.

Lemma fault_events_log_events level error message function line s :
  fault_events (log_events level error message function line s)
  = if level_ge level LOG_ERROR
    then [mk_append_event s level error message function line] else [].
Proof.
  unfold fault_events, log_events, escalates.
  destruct level; eval_level_ge; cbn [andb];
    try reflexivity; destruct (bool_decide _); reflexivity.
Qed.

Lemma counts_faults_log_result level error message function line w :
  counts_faults w -> counts_faults (log_result level error message function line w).
Proof.
  unfold counts_faults. intros Hw. rewrite log_result_appends.
  unfold fault_events in *. rewrite filter_app, length_app.
  fold (fault_events (log_events level error message function line (state_of w))).
  rewrite fault_events_log_events.
  unfold log_result; cbn [monitor].
  destruct (level_ge level LOG_ERROR) eqn:Hl.
  - rewrite log_effect_fault_count by exact Hl. rewrite Hw.
    unfold uint16. cbn [length]. rewrite Zplus_mod_idemp_l. f_equal. lia.
  - rewrite log_effect_quiet by exact Hl.
    unfold store_entry; cbn [health set_log]. rewrite Hw. cbn [length].
    f_equal. lia.
Qed.

Ltac counts_prim :=
  idtac;
  match goal with
  | |- preserves _ (log_message _ _ _ _ _) =>
      let w := fresh "w" in
      intros w; rewrite log_message_eq; apply counts_faults_log_result
  | |- preserves _ (recovery_loop _ _) => fail 1
  | |- preserves _ _ =>
      let w := fresh "w" in
      intros w; apply counts_faults_quiet; reflexivity
  end.

Lemma counts_faults_recovery_loop fuel i : preserves counts_faults (recovery_loop fuel i).
Proof.
  revert i. induction fuel as [|fuel IH]; intros i; simpl.
  - apply preserves_ret.
  - unfold LOG_INFO_. walk_with ltac:(first [apply IH | counts_prim]).
Qed.

Lemma counts_faults_step op : preserves counts_faults (step op).
Proof.
  destruct op; cbn [step].
  - counts_prim.
  - unfold inject_fault, LOG_WARNING_. walk_with counts_prim.
  - unfold check_system_health, monitor_gauges, watchdog_simulation,
      LOG_ERROR_, LOG_CRITICAL_.
    walk_with counts_prim.
  - unfold attempt_fault_recovery, LOG_INFO_.
    walk_with ltac:(first [apply counts_faults_recovery_loop | counts_prim]).
  - unfold display_debug_info. walk_with counts_prim.
Qed.

Lemma counts_faults_initial_world clk rnd fopen_result write_fails :
  counts_faults (initial_world clk rnd fopen_result write_fails).
Proof. destruct fopen_result; vm_compute; reflexivity. Qed.

(** X2. On every world reachable from [debug_init], the health
    [fault_count] is the number of appends of level Error or Critical made
    so far, modulo 65536; recovery never resets it, and the fault-state
    warning of an escalation is not counted. *)
Theorem health_fault_count_counts_errors clk rnd fopen_result write_fails ops :
  let w := run ops (initial_world clk rnd fopen_result write_fails) in
  h_fault_count (health (monitor w))
  = Z.of_nat (length (fault_events (appends w))) mod 65536.
Proof.
  intros w. apply (run_invariant counts_faults);
    [apply counts_faults_step | apply counts_faults_initial_world].
Qed.

(** ** Every Warning-or-higher append is mirrored on the console *)

Definition mirror_line (ev : append_event) : console_line :=
  OutLog (level_tag (ev_level ev)) (ev_function ev) (ev_line ev) (ev_message ev).

Definition is_mirror_line (l : console_line) : bool :=
  match l with
  | OutLog _ _ _ _ => true
  | _ => false
  end.

Definition mirrored_lines (w : world) : list console_line :=
  filter (fun l => is_mirror_line l = true) (console w).

Definition loud_events (evs : list append_event) : list append_event :=
  filter (fun ev => level_ge (ev_level ev) LOG_WARNING = true) evs.

Definition console_mirrors (w : world) : Prop :=
  mirrored_lines w = mirror_line <$> loud_events (appends w).

Lemma console_mirrors_quiet w w' :
  console w' = console w -> appends w' = appends w ->
  console_mirrors w -> console_mirrors w'.
Proof. unfold console_mirrors, mirrored_lines. intros -> ->. auto. Qed.

Lemma console_mirrors_print ls w :
  Forall (fun l => is_mirror_line l = false) ls ->
  console_mirrors w -> console_mirrors (set_console (console w ++ ls) w).
Proof.
  unfold console_mirrors, mirrored_lines. intros Hls Hw.
  cbn [console appends set_console]. rewrite filter_app, Hw.
  replace (filter (fun l => is_mirror_line l = true) ls) with (@nil console_line);
    [apply app_nil_r|].
  symmetry. induction Hls as [|l ls Hl _ IH]; [reflexivity|].
  rewrite filter_cons_False by congruence. exact IH.
Qed.

Lemma console_mirrors_log_result level error message function line w :
  console_mirrors w -> console_mirrors (log_result level error message function line w).
Proof.
  unfold console_mirrors, mirrored_lines. intros Hw.
  rewrite log_result_appends. unfold loud_events in *.
  rewrite filter_app, fmap_app, <- Hw.
  unfold log_result, log_events, escalates; cbn [console]. fold (state_of w).
  destruct level; eval_level_ge; cbn [andb];
    try (rewrite app_nil_r; reflexivity);
    try (destruct (bool_decide (state_of w = STATE_RUNNING)));
    rewrite ?filter_app, <- ?app_assoc; reflexivity.
Qed.

Lemma console_mirrors_printf l :
  is_mirror_line l = false -> preserves console_mirrors (printf l).
Proof.
  intros Hl w Hw. apply (console_mirrors_print [l]); [|exact Hw].
  constructor; [exact Hl | constructor].
Qed.

Ltac console_prim :=
  idtac;
  match goal with
  | |- preserves _ (log_message _ _ _ _ _) =>
      let w := fresh "w" in
      intros w; rewrite log_message_eq; apply console_mirrors_log_result
  | |- preserves _ (printf _) => apply console_mirrors_printf; reflexivity
  | |- preserves _ (recovery_loop _ _) => fail 1
  | |- preserves _ _ =>
      let w := fresh "w" in
      intros w; apply console_mirrors_quiet; reflexivity
  end.

Lemma console_mirrors_recovery_loop fuel i :
  preserves console_mirrors (recovery_loop fuel i).
Proof.
  revert i. induction fuel as [|fuel IH]; intros i; simpl.
  - apply preserves_ret.
  - unfold LOG_INFO_. walk_with ltac:(first [apply IH | console_prim]).
Qed.

Lemma display_lines_not_mirror m :
  Forall (fun l => is_mirror_line l = false) (display_lines m).
Proof.
  unfold display_lines. rewrite !Forall_app. repeat split.
  - repeat constructor.
  - rewrite Forall_fmap. apply Forall_forall. intros; reflexivity.
  - repeat constructor.
  - rewrite Forall_fmap. apply Forall_forall. intros; reflexivity.
Qed.

Lemma console_mirrors_step op : preserves console_mirrors (step op).
Proof.
  destruct op; cbn [step].
  - console_prim.
  - unfold inject_fault, LOG_WARNING_. walk_with console_prim.
  - unfold check_system_health, monitor_gauges, watchdog_simulation,
      LOG_ERROR_, LOG_CRITICAL_.
    walk_with console_prim.
  - unfold attempt_fault_recovery, LOG_INFO_.
    walk_with ltac:(first [apply console_mirrors_recovery_loop | console_prim]).
  - intros w Hw. change (display_debug_info w).2 with (exec display_debug_info w).
    rewrite display_debug_info_eq.
    apply console_mirrors_print; [apply display_lines_not_mirror | exact Hw].
Qed.

Lemma console_mirrors_initial_world clk rnd fopen_result write_fails :
  console_mirrors (initial_world clk rnd fopen_result write_fails).
Proof. destruct fopen_result; vm_compute; reflexivity. Qed.

(** X3. On every world reachable from [debug_init], the "[TAG] function:line
    - message" lines on the console are, in order, exactly the appends of
    level Warning or higher (tag WARN, ERROR or CRIT, with the caller's
    untruncated texts); Debug and Info appends are never printed. *)
Theorem warnings_are_mirrored_to_console clk rnd fopen_result write_fails ops :
  let w := run ops (initial_world clk rnd fopen_result write_fails) in
  mirrored_lines w = mirror_line <$> loud_events (appends w).
Proof.
  intros w. apply (run_invariant console_mirrors);
    [apply console_mirrors_step | apply console_mirrors_initial_world].
Qed.

(** ** Between operations the monitor is Running or in Fault *)

Definition settled (s : system_state_t) : Prop :=
  s = STATE_RUNNING \/ s = STATE_FAULT.

Lemma replay_settled s evs : settled s -> settled (replay s evs).
Proof.
  revert s. induction evs as [|e evs IH]; intros s Hs; simpl; [exact Hs|].
  apply IH. unfold next_state. destruct (escalates _ _); [right; reflexivity | exact Hs].
Qed.

Lemma tracked_settled w w' :
  tracked w w' -> settled (state_of w) -> settled (state_of w').
Proof. intros (new & _ & _ & ->). apply replay_settled. Qed.

Lemma settled_step op w :
  settled (state_of w) -> settled (state_of (exec (step op) w)).
Proof.
  intros Hs. destruct op; cbn [step].
  - eapply tracked_settled; [apply tracked_log_message, tracked_refl | exact Hs].
  - eapply tracked_settled; [apply tracked_inject_fault, tracked_refl | exact Hs].
  - eapply tracked_settled; [apply tracked_check_system_health, tracked_refl | exact Hs].
  - destruct (decide (state_of w = STATE_FAULT)) as [Hf | Hnf].
    + destruct (attempt_fault_recovery_fault w Hf) as (Hrun & _). left. exact Hrun.
    + rewrite attempt_fault_recovery_no_fault by exact Hnf.
      eapply tracked_settled; [apply tracked_log_result | exact Hs].
  - eapply tracked_settled; [apply tracked_display_debug_info, tracked_refl | exact Hs].
Qed.

Lemma settled_run ops w :
  settled (state_of w) -> settled (state_of (run ops w)).
Proof.
  revert w. induction ops as [|op ops IH]; intros w Hs; simpl; [exact Hs|].
  apply IH, settled_step, Hs.
Qed.

Lemma settled_reachable clk rnd fopen_result write_fails ops :
  settled (state_of (run ops (initial_world clk rnd fopen_result write_fails))).
Proof.
  apply settled_run. left.
  apply (initial_world_fields clk rnd fopen_result write_fails).
Qed.

(** X4. After [debug_init] and any sequence of operations the state is
    Running or Fault: Init is left for good, Recovery is only passed through
    inside [attempt_fault_recovery], and no code path, shutdown included,
    ever enters Shutdown. *)
Theorem state_is_running_or_fault clk rnd fopen_result write_fails ops :
  let w := run ops (initial_world clk rnd fopen_result write_fails) in
  (state_of w = STATE_RUNNING \/ state_of w = STATE_FAULT)
  /\ (state_of (world_of (debug_shutdown w)) = STATE_RUNNING
      \/ state_of (world_of (debug_shutdown w)) = STATE_FAULT).
Proof.
  intros w. pose proof (settled_reachable clk rnd fopen_result write_fails ops) as Hs.
  split; [exact Hs|].
  eapply tracked_settled; [apply tracked_debug_shutdown | exact Hs].
Qed.

(** ** The fault history only grows *)

(** A record as it may look later: the same, possibly resolved meanwhile. *)
Definition record_kept (r r' : fault_record_t) : Prop :=
  fr_timestamp r' = fr_timestamp r
  /\ fr_fault_type r' = fr_fault_type r
  /\ fr_error_code r' = fr_error_code r
  /\ fr_description r' = fr_description r
  /\ (fr_resolved r = true -> fr_resolved r' = true).

Definition history_grows (w w' : world) : Prop :=
  fault_count (monitor w) <= fault_count (monitor w')
  /\ forall (j : nat) r,
       Z.of_nat j < fault_count (monitor w) ->
       fault_history (monitor w) !! j = Some r ->
       exists r', fault_history (monitor w') !! j = Some r' /\ record_kept r r'.

Lemma record_kept_refl r : record_kept r r.
Proof. repeat split; auto. Qed.

Lemma record_kept_trans r1 r2 r3 :
  record_kept r1 r2 -> record_kept r2 r3 -> record_kept r1 r3.
Proof.
  intros (A1 & A2 & A3 & A4 & A5) (B1 & B2 & B3 & B4 & B5).
  repeat split; try congruence. auto.
Qed.

Lemma history_grows_same w w' :
  fault_history (monitor w') = fault_history (monitor w) ->
  fault_count (monitor w') = fault_count (monitor w) ->
  history_grows w w'.
Proof.
  intros Hh Hc. split; [lia|]. intros j r _ Hr. exists r.
  split; [congruence | apply record_kept_refl].
Qed.

Lemma history_grows_trans w1 w2 w3 :
  history_grows w1 w2 -> history_grows w2 w3 -> history_grows w1 w3.
Proof.
  intros [Hc1 H1] [Hc2 H2]. split; [lia|].
  intros j r Hj Hr. destruct (H1 j r Hj Hr) as (r2 & Hr2 & Hk2).
  destruct (H2 j r2 ltac:(lia) Hr2) as (r3 & Hr3 & Hk3).
  exists r3. split; [exact Hr3 | eapply record_kept_trans; eassumption].
Qed.

(** Steps that leave the history as it is. *)
Definition history_same (w0 w : world) : Prop :=
  fault_history (monitor w) = fault_history (monitor w0)
  /\ fault_count (monitor w) = fault_count (monitor w0).

Lemma history_same_quiet w0 w w' :
  fault_history (monitor w') = fault_history (monitor w) ->
  fault_count (monitor w') = fault_count (monitor w) ->
  history_same w0 w -> history_same w0 w'.
Proof. unfold history_same. intros -> ->. auto. Qed.

Lemma history_same_log_result level error message function line w :
  history_same w (log_result level error message function line w).
Proof.
  unfold history_same, log_result; cbn [monitor].
  split; apply log_effect_frame.
Qed.

Lemma history_same_log_message w0 level error message function line :
  preserves (history_same w0) (log_message level error message function line).
Proof.
  intros w [H1 H2]. rewrite log_message_eq. cbn [snd].
  destruct (history_same_log_result level error message function line w) as [G1 G2].
  split; congruence.
Qed.

Ltac history_prim :=
  idtac;
  match goal with
  | |- preserves _ (log_message _ _ _ _ _) => apply history_same_log_message
  | |- preserves _ _ =>
      let w := fresh "w" in
      intros w; apply history_same_quiet; reflexivity
  end.

Lemma history_same_check_system_health w0 :
  preserves (history_same w0) check_system_health.
Proof.
  unfold check_system_health, monitor_gauges, watchdog_simulation,
    LOG_ERROR_, LOG_CRITICAL_.
  walk_with history_prim.
Qed.

Lemma history_grows_step op w : history_grows w (exec (step op) w).
Proof.
  destruct op as [level error message function line | fault | | |]; cbn [step].
  - rewrite exec_log_message.
    destruct (history_same_log_result level error message function line w).
    apply history_grows_same; assumption.
  - destruct (inject_fault_monitor fault w) as (_ & _ & Hc & Hh & _).
    cbv zeta in Hc, Hh. split.
    + rewrite Hc. destruct (_ <? _); lia.
    + intros j r Hj Hr. exists r. split; [|apply record_kept_refl].
      rewrite Hh. destruct (_ <? _); [|exact Hr].
      rewrite list_lookup_alter_ne by lia. exact Hr.
  - destruct (history_same_check_system_health w w) as [Hh Hc];
      [split; reflexivity|].
    apply history_grows_same; assumption.
  - destruct (decide (state_of w = STATE_FAULT)) as [Hf | Hnf].
    + destruct (attempt_fault_recovery_fault w Hf) as (_ & _ & _ & _ & _ & Hc & Hres).
      cbv zeta in Hc, Hres. split; [lia|].
      intros j r Hj Hr. exists (mark_resolved r). split; [apply Hres; assumption|].
      repeat split; reflexivity.
    + rewrite attempt_fault_recovery_no_fault by exact Hnf.
      destruct (history_same_log_result LOG_INFO ERR_NONE "No faults to recover from"
                  "attempt_fault_recovery" 470 w).
      apply history_grows_same; assumption.
  - rewrite display_debug_info_eq. apply history_grows_same; reflexivity.
Qed.

Lemma history_grows_run ops w : history_grows w (run ops w).
Proof.
  revert w. induction ops as [|op ops IH]; intros w; simpl.
  - apply history_grows_same; reflexivity.
  - eapply history_grows_trans; [apply history_grows_step | apply IH].
Qed.

(** X5. Whatever operations follow, a record of the fault history is never
    removed, moved or overwritten: the number of records does not decrease
    and each existing record keeps its timestamp, kind, error kind and
    description, and once resolved stays resolved. *)
Theorem fault_history_is_append_only ops w (j : nat) r :
  Z.of_nat j < fault_count (monitor w) ->
  fault_history (monitor w) !! j = Some r ->
  fault_count (monitor w) <= fault_count (monitor (run ops w))
  /\ exists r', fault_history (monitor (run ops w)) !! j = Some r'
                /\ fr_timestamp r' = fr_timestamp r
                /\ fr_fault_type r' = fr_fault_type r
                /\ fr_error_code r' = fr_error_code r
                /\ fr_description r' = fr_description r
                /\ (fr_resolved r = true -> fr_resolved r' = true).
Proof.
  intros Hj Hr. destruct (history_grows_run ops w) as [Hc Hk].
  split; [exact Hc|].
  destruct (Hk j r Hj Hr) as (r' & Hr' & K1 & K2 & K3 & K4 & K5).
  exists r'. repeat split; assumption.
Qed.

Lemma fault_history_is_append_only_witness :
  exists r',
    fault_history (monitor (run [OpRecover; OpInject FAULT_POWER_SPIKE] faulted_world))
      !! 0%nat = Some r'
    /\ fr_fault_type r' = FAULT_ACTUATOR_FAIL.
Proof.
  destruct (fault_history_is_append_only
              [OpRecover; OpInject FAULT_POWER_SPIKE] faulted_world 0
              (mk_fault_record 0 FAULT_ACTUATOR_FAIL ERR_NONE false "Injected fault: 2"))
    as (_ & r' & Hr' & _ & Hty & _).
  - vm_compute. reflexivity.
  - vm_compute. reflexivity.
  - exists r'. split; assumption.
Defined.

(** ** No record ever carries an error kind *)

Definition no_error_kinds (w : world) : Prop :=
  Forall (fun r => fr_error_code r = ERR_NONE) (fault_history (monitor w)).

Lemma no_error_kinds_quiet w w' :
  fault_history (monitor w') = fault_history (monitor w) ->
  no_error_kinds w -> no_error_kinds w'.
Proof. unfold no_error_kinds. intros ->. auto. Qed.

Lemma no_error_kinds_alter f i :
  (forall r, fr_error_code (f r) = fr_error_code r) ->
  preserves no_error_kinds
    (modify (fun m => set_fault_history (alter f i (fault_history m)) (fault_count m) m)).
Proof.
  intros Hf w Hw. unfold no_error_kinds in *. cbn.
  apply Forall_alter; [exact Hw|]. intros r _ Hr. rewrite Hf. exact Hr.
Qed.

Ltac kinds_prim :=
  idtac;
  match goal with
  | |- preserves _ (log_message _ _ _ _ _) =>
      let w := fresh "w" in
      intros w; rewrite log_message_eq; apply no_error_kinds_quiet;
      apply history_same_log_result
  | |- preserves _ (modify (fun m => set_fault_history (alter _ _ _) _ _)) =>
      apply no_error_kinds_alter; intros ?; reflexivity
  | |- preserves _ (recovery_loop _ _) => fail 1
  | |- preserves _ _ =>
      let w := fresh "w" in
      intros w; apply no_error_kinds_quiet; reflexivity
  end.

Lemma no_error_kinds_recovery_loop fuel i :
  preserves no_error_kinds (recovery_loop fuel i).
Proof.
  revert i. induction fuel as [|fuel IH]; intros i; simpl.
  - apply preserves_ret.
  - unfold LOG_INFO_. walk_with ltac:(first [apply IH | kinds_prim]).
Qed.

Lemma no_error_kinds_step op : preserves no_error_kinds (step op).
Proof.
  destruct op; cbn [step].
  - kinds_prim.
  - unfold inject_fault, LOG_WARNING_. walk_with kinds_prim.
  - unfold check_system_health, monitor_gauges, watchdog_simulation,
      LOG_ERROR_, LOG_CRITICAL_.
    walk_with kinds_prim.
  - unfold attempt_fault_recovery, LOG_INFO_.
    walk_with ltac:(first [apply no_error_kinds_recovery_loop | kinds_prim]).
  - unfold display_debug_info. walk_with kinds_prim.
Qed.

Lemma no_error_kinds_initial_world clk rnd fopen_result write_fails :
  no_error_kinds (initial_world clk rnd fopen_result write_fails).
Proof.
  unfold no_error_kinds.
  replace (fault_history (monitor (initial_world clk rnd fopen_result write_fails)))
    with (replicate (Z.to_nat MAX_FAULT_HISTORY) zero_fault_record)
    by (destruct fopen_result; vm_compute; reflexivity).
  apply Forall_replicate. reflexivity.
Qed.

(** X6. On every world reachable from [debug_init] every slot of the fault
    history has error kind None: [inject_fault] fills in timestamp, kind,
    resolved flag and description but never the [error_code] field, and
    nothing else writes it. *)
Theorem fault_records_carry_no_error_kind clk rnd fopen_result write_fails ops
    (j : nat) r :
  fault_history (monitor (run ops (initial_world clk rnd fopen_result write_fails)))
    !! j = Some r ->
  fr_error_code r = ERR_NONE.
Proof.
  intros Hr.
  assert (H : no_error_kinds (run ops (initial_world clk rnd fopen_result write_fails))).
  { apply run_invariant; [apply no_error_kinds_step | apply no_error_kinds_initial_world]. }
  unfold no_error_kinds in H. rewrite Forall_lookup in H. exact (H j r Hr).
Qed.

Lemma fault_records_carry_no_error_kind_witness :
  fr_error_code (mk_fault_record 0 FAULT_ACTUATOR_FAIL ERR_NONE true "Injected fault: 2")
  = ERR_NONE.
Proof.
  apply (fault_records_carry_no_error_kind (fun _ => 0) (fun _ => 0) None false
           [OpInject FAULT_ACTUATOR_FAIL; sensor_failure; OpRecover] 0).
  vm_compute. reflexivity.
Defined.

(** ** An injection with room in the history *)

Lemma inject_fault_appends fault w :
  appends (exec (inject_fault fault) w)
  = appends w ++ [mk_append_event (state_of w) LOG_WARNING ERR_NONE
                    "Fault injection activated" "inject_fault" 419].
Proof.
  unfold inject_fault, LOG_WARNING_, exec, bind, modify, get_monitor, ret, when, time.
  cbn [fst snd set_monitor monitor set_injection fault_count].
  destruct (fault_count (monitor w) <? MAX_FAULT_HISTORY);
    unfold ret; rewrite log_message_eq; cbn [snd];
    rewrite log_result_appends; reflexivity.
Qed.

(** X7. While the history holds fewer than 50 records, [inject_fault]
    adds exactly one: it goes to the first free slot, unresolved, stamped
    with the clock reading, with the injected kind and the description
    "Injected fault: <kind number>"; the other slots are untouched.  The
    call appends one Warning entry and leaves the state as it was. *)
Theorem inject_fault_records_one fault w :
  wf w ->
  fault_count (monitor w) < MAX_FAULT_HISTORY ->
  let w' := exec (inject_fault fault) w in
  let slot := Z.to_nat (fault_count (monitor w)) in
  fault_count (monitor w') = fault_count (monitor w) + 1
  /\ (exists r, fault_history (monitor w') !! slot = Some r
                /\ fr_timestamp r = clock w (clock_reads w)
                /\ fr_fault_type r = fault
                /\ fr_resolved r = false
                /\ fr_description r = "Injected fault: " +:+ pretty (fault_value fault))
  /\ (forall j : nat, j <> slot ->
        fault_history (monitor w') !! j = fault_history (monitor w) !! j)
  /\ state_of w' = state_of w
  /\ appends w' = appends w ++ [mk_append_event (state_of w) LOG_WARNING ERR_NONE
                                  "Fault injection activated" "inject_fault" 419].
Proof.
  intros (_ & _ & Hlen & Hfc) Hroom w' slot.
  destruct (inject_fault_monitor fault w) as (_ & _ & Hc & Hh & Hhealth & _).
  cbv zeta in Hc, Hh, Hhealth. fold w' in Hc, Hh, Hhealth.
  apply Z.ltb_lt in Hroom. rewrite Hroom in Hc, Hh.
  split; [exact Hc|]. split; [|split; [|split]].
  - destruct (lookup_lt_is_Some_2 (fault_history (monitor w)) slot) as [r0 Hr0].
    { rewrite Hlen. subst slot. apply Z.ltb_lt in Hroom. lia. }
    exists (injected_record (clock w (clock_reads w)) fault r0).
    split; [|repeat split; reflexivity].
    rewrite Hh, list_lookup_alter_eq. fold slot. rewrite Hr0. reflexivity.
  - intros j Hj. rewrite Hh. apply list_lookup_alter_ne. fold slot. congruence.
  - unfold state_of. rewrite Hhealth. reflexivity.
  - apply inject_fault_appends.
Qed.

Lemma inject_fault_records_one_witness :
  fault_count (monitor (exec (inject_fault FAULT_COMM_BREAK) fresh_world))
  = fault_count (monitor fresh_world) + 1.
Proof.
  apply (inject_fault_records_one FAULT_COMM_BREAK fresh_world).
  - apply wf_initial_world.
  - vm_compute. reflexivity.
Defined.

(** ** What a recovery logs *)

Definition resolved_event (s : system_state_t) : append_event :=
  mk_append_event s LOG_INFO ERR_NONE "Fault resolved in recovery attempt"
                  "attempt_fault_recovery" 488.

Definition unresolved_in (rs : list fault_record_t) : nat :=
  length (filter (fun r => fr_resolved r = false) rs).

Lemma take_S_drop {A} (l : list A) (i n : nat) :
  take (S n) (drop i l)
  = match l !! i with
    | Some x => x :: take n (drop (S i) l)
    | None => []
    end.
Proof.
  revert i. induction l as [|x l IH]; intros i.
  - rewrite drop_nil. reflexivity.
  - destruct i as [|i]; [reflexivity|]. simpl. apply IH.
Qed.

Lemma recovery_loop_appends fuel i w :
  0 <= i ->
  Z.of_nat fuel <= Z.max 0 (fault_count (monitor w) - i) ->
  appends (exec (recovery_loop fuel i) w)
  = appends w
    ++ replicate (unresolved_in (take fuel (drop (Z.to_nat i) (fault_history (monitor w)))))
                 (resolved_event (state_of w)).
Proof.
  revert i w. induction fuel as [|fuel IH]; intros i w Hi Hfuel.
  - simpl. rewrite app_nil_r. reflexivity.
  - cbn [recovery_loop]. rewrite exec_bind. cbn [get_monitor fst snd].
    rewrite (proj2 (Z.ltb_lt i (fault_count (monitor w)))) by lia.
    rewrite exec_bind.
    match goal with
    | |- context [exec (recovery_loop fuel (i + 1)) (?c w).2] =>
        destruct (recovery_body_spec i w c eq_refl) as [(Hh & Hfc & _) Hbody];
        assert (Happ : appends (exec c w)
                       = appends w
                         ++ match fault_history (monitor w) !! Z.to_nat i with
                            | Some r => if fr_resolved r then []
                                        else [resolved_event (state_of w)]
                            | None => []
                            end);
        [|change (c w).2 with (exec c w); set (w1 := exec c w) in *]
    end.
    { destruct (fault_history (monitor w) !! Z.to_nat i) as [r|].
      - destruct (fr_resolved r); cbn [negb].
        + rewrite exec_when_false, app_nil_r. reflexivity.
        + rewrite exec_when_true, exec_seq. unfold LOG_INFO_.
          rewrite exec_log_message, log_result_appends. reflexivity.
      - change (exec (ret tt) w) with w. rewrite app_nil_r. reflexivity. }
    rewrite IH by (try rewrite Hfc; lia).
    assert (Hst : state_of w1 = state_of w) by (unfold state_of; rewrite Hh; reflexivity).
    assert (Hrest : take fuel (drop (Z.to_nat (i + 1)) (fault_history (monitor w1)))
                    = take fuel (drop (S (Z.to_nat i)) (fault_history (monitor w)))).
    { replace (Z.to_nat (i + 1)) with (S (Z.to_nat i)) by lia.
      apply list_eq. intros j.
      destruct (decide (j < fuel)%nat) as [Hj | Hj].
      - rewrite !lookup_take_lt by exact Hj. rewrite !lookup_drop, Hbody.
        destruct (decide _); [lia | reflexivity].
      - rewrite !lookup_take_ge by lia. reflexivity. }
    rewrite Hrest, Hst, Happ, take_S_drop, <- app_assoc. f_equal.
    destruct (fault_history (monitor w) !! Z.to_nat i) as [r|] eqn:Hr.
    + unfold unresolved_in. destruct (fr_resolved r) eqn:Hres.
      * rewrite filter_cons_False by congruence. reflexivity.
      * rewrite filter_cons_True by exact Hres. reflexivity.
    + apply lookup_ge_None_1 in Hr.
      rewrite drop_ge by lia. rewrite take_nil. reflexivity.
Qed.

(** The records in use that are not resolved. *)
Definition unresolved_records (m : debug_monitor_t) : nat :=
  unresolved_in (take (Z.to_nat (fault_count m)) (fault_history m)).

Lemma attempt_fault_recovery_appends w :
  state_of w = STATE_FAULT ->
  appends (exec attempt_fault_recovery w)
  = appends w
    ++ [mk_append_event STATE_FAULT LOG_INFO ERR_NONE "Attempting fault recovery"
                        "attempt_fault_recovery" 474]
    ++ replicate (unresolved_records (monitor w)) (resolved_event STATE_RECOVERY)
    ++ [mk_append_event STATE_RUNNING LOG_INFO ERR_NONE "Fault recovery successful"
                        "attempt_fault_recovery" 498].
Proof.
  intros Hf.
  unfold attempt_fault_recovery. rewrite exec_bind. cbn [get_monitor fst snd].
  fold (state_of w). rewrite bool_decide_eq_true_2 by exact Hf. cbn [negb].
  unfold LOG_INFO_.
  rewrite !exec_seq. rewrite exec_log_message.
  match goal with |- context [exec (bind get_monitor _) ?x] => set (w4 := x) end.
  rewrite exec_bind. cbn [get_monitor fst snd]. rewrite !exec_seq.
  assert (H4 : state_of w4 = STATE_RECOVERY
               /\ fault_count (monitor w4) = fault_count (monitor w)
               /\ fault_history (monitor w4) = fault_history (monitor w)
               /\ appends w4 = appends w
                               ++ [mk_append_event STATE_FAULT LOG_INFO ERR_NONE
                                     "Attempting fault recovery"
                                     "attempt_fault_recovery" 474]).
  { subst w4. unfold state_of.
    cbn [exec modify_health modify snd set_monitor monitor appends].
    split; [reflexivity|].
    change (appends (exec ?c ?x)) with (appends x).
    rewrite log_result_appends, Hf.
    unfold log_result; cbn [monitor].
    rewrite log_effect_quiet by reflexivity.
    unfold store_entry. simpl. repeat split; reflexivity. }
  destruct H4 as (Hst4 & Hc4 & Hh4 & Ha4).
  pose proof (recovery_loop_appends (Z.to_nat (fault_count (monitor w4))) 0 w4
                ltac:(lia) ltac:(lia)) as Hloop.
  destruct (recovery_loop_spec (Z.to_nat (fault_count (monitor w4))) 0 w4 ltac:(lia))
    as [(Hh5 & _) _].
  set (w5 := exec (recovery_loop _ _) w4) in *.
  rewrite exec_log_message.
  set (w7 := log_result _ _ _ _ _ _).
  rewrite exec_bind. cbn [rand fst snd]. rewrite exec_seq, exec_bind. cbn [rand fst snd].
  change (appends (exec ?c (set_rand_draws ?n (exec ?d (set_rand_draws ?k w7)))))
    with (appends w7).
  subst w7. rewrite log_result_appends.
  change (appends (exec (modify_health (set_current_state STATE_RUNNING)) w5))
    with (appends w5).
  change (state_of (exec (modify_health (set_current_state STATE_RUNNING)) w5))
    with STATE_RUNNING.
  rewrite Hloop, Ha4, Hst4, Hc4, Hh4. change (Z.to_nat 0) with 0%nat.
  rewrite drop_0, <- !app_assoc. reflexivity.
Qed.

(** X8. A recovery from Fault appends Info entries only: "Attempting fault
    recovery", then one "Fault resolved in recovery attempt" for each record
    that was unresolved (and none for the records already resolved), then
    "Fault recovery successful". *)
Theorem recovery_logs_each_resolution w :
  state_of w = STATE_FAULT ->
  (fun ev => (ev_level ev, ev_message ev))
    <$> drop (length (appends w)) (appends (exec attempt_fault_recovery w))
  = [(LOG_INFO, "Attempting fault recovery")]
    ++ replicate (unresolved_records (monitor w))
                 (LOG_INFO, "Fault resolved in recovery attempt")
    ++ [(LOG_INFO, "Fault recovery successful")].
Proof.
  intros Hf. rewrite attempt_fault_recovery_appends by exact Hf.
  rewrite drop_app_length. rewrite !fmap_app, fmap_replicate. reflexivity.
Qed.

Lemma recovery_logs_each_resolution_witness :
  (fun ev => (ev_level ev, ev_message ev))
    <$> drop (length (appends faulted_world))
             (appends (exec attempt_fault_recovery faulted_world))
  = [(LOG_INFO, "Attempting fault recovery")]
    ++ replicate (unresolved_records (monitor faulted_world))
                 (LOG_INFO, "Fault resolved in recovery attempt")
    ++ [(LOG_INFO, "Fault recovery successful")].
Proof.
  apply (recovery_logs_each_resolution faulted_world).
  vm_compute. reflexivity.
Defined.

(** ** The gauges after a recovery *)

(** The random source and the number of draws made from it. *)
Definition draws_at (r : nat -> Z) (n : nat) (w : world) : Prop :=
  rand_src w = r /\ rand_draws w = n.

Ltac draws_prim :=
  idtac;
  match goal with
  | |- preserves _ (log_message _ _ _ _ _) =>
      let w := fresh "w" in
      let H := fresh "H" in
      intros w H; rewrite log_message_eq; exact H
  | |- preserves _ (recovery_loop _ _) => fail 1
  | |- preserves _ _ =>
      let w := fresh "w" in
      let H := fresh "H" in
      intros w H; exact H
  end.

Lemma draws_recovery_loop r n fuel i : preserves (draws_at r n) (recovery_loop fuel i).
Proof.
  revert i. induction fuel as [|fuel IH]; intros i; simpl.
  - apply preserves_ret.
  - unfold LOG_INFO_. walk_with ltac:(first [apply IH | draws_prim]).
Qed.

Lemma attempt_fault_recovery_gauges w :
  state_of w = STATE_FAULT ->
  let w' := exec attempt_fault_recovery w in
  cpu_usage_percent (health (monitor w')) = 15 + Z.rem (rand_src w (rand_draws w)) 20
  /\ memory_usage_percent (health (monitor w'))
     = 25 + Z.rem (rand_src w (S (rand_draws w))) 25
  /\ rand_draws w' = S (S (rand_draws w)).
Proof.
  intros Hf w'. subst w'.
  unfold attempt_fault_recovery. rewrite exec_bind. cbn [get_monitor fst snd].
  fold (state_of w). rewrite bool_decide_eq_true_2 by exact Hf. cbn [negb].
  unfold LOG_INFO_.
  rewrite !exec_seq. rewrite exec_log_message.
  match goal with |- context [exec (bind get_monitor _) ?x] => set (w4 := x) end.
  rewrite exec_bind. cbn [get_monitor fst snd]. rewrite !exec_seq.
  assert (H4 : draws_at (rand_src w) (rand_draws w) w4) by (split; reflexivity).
  apply (preserves_exec _ _ w4 (draws_recovery_loop _ _
           (Z.to_nat (fault_count (monitor w4))) 0)) in H4.
  set (w5 := exec (recovery_loop _ _) w4) in *.
  destruct H4 as [Hsrc Hn].
  rewrite exec_log_message.
  set (w7 := log_result _ _ _ _ _ _).
  rewrite exec_bind. cbn [rand fst snd]. rewrite exec_seq, exec_bind. cbn [rand fst snd].
  assert (H7 : rand_src w7 = rand_src w /\ rand_draws w7 = rand_draws w)
    by (split; [exact Hsrc | exact Hn]).
  destruct H7 as [Hsrc7 Hn7].
  cbn [exec modify_health modify snd set_monitor set_rand_draws monitor rand_src
       rand_draws set_health health set_gauges cpu_usage_percent memory_usage_percent].
  rewrite Hsrc7, Hn7. repeat split; reflexivity.
Qed.

(** X9. A recovery from Fault resets both gauges from the next two random
    draws: CPU to [15 + r1 % 20] and memory to [25 + r2 % 25].  As [rand]
    never returns a negative number, CPU ends in [15, 35) and memory in
    [25, 50): below the levels (90 and 85) at which the next health check
    would report an overload. *)
Theorem recovery_resets_gauges w :
  state_of w = STATE_FAULT ->
  (forall n, 0 <= rand_src w n) ->
  let h' := health (monitor (exec attempt_fault_recovery w)) in
  cpu_usage_percent h' = 15 + Z.rem (rand_src w (rand_draws w)) 20
  /\ memory_usage_percent h' = 25 + Z.rem (rand_src w (S (rand_draws w))) 25
  /\ 15 <= cpu_usage_percent h' < 35
  /\ 25 <= memory_usage_percent h' < 50.
Proof.
  intros Hf Hrand h'.
  destruct (attempt_fault_recovery_gauges w Hf) as (Hcpu & Hmem & _).
  fold h' in Hcpu, Hmem. rewrite Hcpu, Hmem.
  pose proof (Z.rem_bound_pos (rand_src w (rand_draws w)) 20 (Hrand _) ltac:(lia)).
  pose proof (Z.rem_bound_pos (rand_src w (S (rand_draws w))) 25 (Hrand _) ltac:(lia)).
  repeat split; lia.
Qed.

Lemma recovery_resets_gauges_witness :
  15 <= cpu_usage_percent (health (monitor (exec attempt_fault_recovery faulted_world))) < 35
  /\ 25 <= memory_usage_percent
             (health (monitor (exec attempt_fault_recovery faulted_world))) < 50.
Proof.
  assert (Hf : state_of faulted_world = STATE_FAULT) by (vm_compute; reflexivity).
  assert (Hr : forall n, 0 <= rand_src faulted_world n)
    by (intros n; vm_compute; discriminate).
  destruct (recovery_resets_gauges faulted_world Hf Hr) as (_ & _ & H1 & H2).
  split; [exact H1 | exact H2].
Defined.

(** ** Which shutdowns abort *)

(** The sink cannot take the end marker: it was never opened, or the write
    fails. *)
Definition sink_bad (w : world) : bool :=
  match log_file (monitor w) with
  | None => true
  | Some f => f_error f || sink_write_fails w
  end.

Lemma save_log_to_file_state w :
  state_of (exec save_log_to_file w)
  = if sink_bad w && bool_decide (state_of w = STATE_RUNNING)
    then STATE_FAULT else state_of w.
Proof.
  unfold save_log_to_file, sink_bad.
  rewrite exec_bind. cbn [get_monitor fst snd].
  destruct (log_file (monitor w)) as [f|].
  - rewrite exec_bind. cbn [get_sink_write_fails fst snd].
    rewrite exec_seq.
    destruct (f_error f || sink_write_fails w).
    + rewrite exec_when_true, exec_seq. unfold LOG_ERROR_. rewrite exec_log_message.
      change (state_of (exec (modify ?g) ?x)) with (state_of x).
      rewrite log_result_state.
      change (state_of (exec (modify ?g) ?x)) with (state_of x).
      reflexivity.
    + rewrite exec_when_false. reflexivity.
  - unfold LOG_ERROR_. rewrite exec_log_message, log_result_state. reflexivity.
Qed.

Lemma shutdown_prefix_spec w :
  let w1 := exec (LOG_INFO_ "Shutting down debug monitoring system" "debug_shutdown" 345 ;;
                  save_log_to_file ;;
                  m <- get_monitor ;;
                  when (negb (bool_decide (log_file m = None)))
                    (modify (set_log_file None))) w in
  state_of w1 = (if sink_bad w && bool_decide (state_of w = STATE_RUNNING)
                 then STATE_FAULT else state_of w)
  /\ log_file (monitor w1) = None.
Proof.
  cbv zeta. unfold LOG_INFO_.
  rewrite exec_seq, exec_log_message.
  set (w1 := log_result _ _ _ _ _ _).
  assert (H1 : sink_bad w1 = sink_bad w /\ state_of w1 = state_of w).
  { subst w1. split.
    - unfold sink_bad, log_result; cbn [monitor sink_write_fails].
      rewrite (proj1 (proj2 (proj2 (log_effect_frame _ _ _ _ _ _ _ _)))). reflexivity.
    - rewrite log_result_state. reflexivity. }
  destruct H1 as [Hbad Hst].
  rewrite exec_seq. pose proof (save_log_to_file_state w1) as H2.
  set (w2 := exec save_log_to_file w1) in *.
  rewrite Hbad, Hst in H2.
  rewrite exec_bind. cbn [get_monitor fst snd].
  destruct (bool_decide (log_file (monitor w2) = None)) eqn:Hnull; cbn [negb].
  - rewrite exec_when_false. split; [exact H2|].
    apply bool_decide_eq_true_1 in Hnull. exact Hnull.
  - rewrite exec_when_true. split; [exact H2 | reflexivity].
Qed.

Lemma debug_shutdown_spec w :
  let s1 := if sink_bad w && bool_decide (state_of w = STATE_RUNNING)
            then STATE_FAULT else state_of w in
  (exists w', debug_shutdown w = (if bool_decide (s1 = STATE_FAULT)
                                  then Aborted w' else Returned w')
              /\ state_of w' = s1
              /\ log_file (monitor w') = None).
Proof.
  cbv zeta. unfold debug_shutdown.
  destruct (shutdown_prefix_spec w) as [Hst Hnull]. cbv zeta in Hst, Hnull.
  set (w1 := exec _ w) in *. cbv zeta.
  unfold ASSERT_STATE. fold (state_of w1). rewrite Hst.
  set (s1 := if sink_bad w && _ then _ else _) in *.
  destruct (bool_decide (s1 = STATE_FAULT)) eqn:Hs1; cbn [negb].
  - apply bool_decide_eq_true_1 in Hs1.
    unfold LOG_CRITICAL_. rewrite exec_log_message.
    set (w3 := log_result _ _ _ _ _ _).
    assert (H3 : state_of w3 = STATE_FAULT /\ log_file (monitor w3) = None).
    { subst w3. split.
      - rewrite log_result_state, Hst, Hs1. reflexivity.
      - unfold log_result; cbn [monitor]. rewrite <- Hnull. apply log_effect_frame. }
    destruct H3 as [Hf3 Hnull3].
    fold (state_of w3). rewrite Hf3.
    rewrite bool_decide_eq_true_2 by reflexivity. cbn [negb].
    exists w3. repeat split; congruence.
  - exists w1. repeat split; assumption.
Qed.

(** X10. [debug_shutdown] aborts on its final assertion exactly when the
    state is Fault already, or the state is Running and the end marker cannot
    be written (the sink was never opened, or the write fails): the Error
    entry for the sink then moves Running to Fault.  From every other state
    it returns, whatever the sink.  In both outcomes the sink is closed. *)
Theorem shutdown_aborts_iff w :
  ((exists w', debug_shutdown w = Aborted w')
   <-> state_of w = STATE_FAULT
       \/ (state_of w = STATE_RUNNING /\ sink_bad w = true))
  /\ log_file (monitor (world_of (debug_shutdown w))) = None.
Proof.
  destruct (debug_shutdown_spec w) as (w' & Hres & Hst & Hnull). cbv zeta in Hres, Hst.
  split.
  - split.
    + intros [w'' Hab]. rewrite Hab in Hres.
      destruct (bool_decide _) eqn:Hs1 in Hres; [|discriminate].
      apply bool_decide_eq_true_1 in Hs1.
      destruct (sink_bad w); cbn [andb] in Hs1; [|left; exact Hs1].
      destruct (bool_decide (state_of w = STATE_RUNNING)) eqn:Hrun in Hs1.
      * right. apply bool_decide_eq_true_1 in Hrun. split; [exact Hrun | reflexivity].
      * left. exact Hs1.
    + intros H. exists w'. rewrite Hres.
      rewrite bool_decide_eq_true_2; [reflexivity|].
      destruct H as [Hf | [Hrun Hbad]].
      * rewrite Hf. destruct (sink_bad w); reflexivity.
      * rewrite Hbad, Hrun. reflexivity.
  - rewrite Hres. destruct (bool_decide _); exact Hnull.
Qed.

(** ** What the display shows *)

Definition recent_line (ev : append_event) : console_line :=
  OutLogEntry (entry_tag (ev_level ev)) (strncpy (ev_message ev) 255).

Definition record_line (r : fault_record_t) : console_line :=
  OutFaultRecord (if fr_resolved r then "RESOLVED" else "ACTIVE") (fr_description r).

Lemma recent_entries_mirror m evs :
  mirrors m evs ->
  (fun e => OutLogEntry (entry_tag (le_level e)) (le_message e))
    <$> drop (Z.to_nat (log_count m - 5)) (log_view m)
  = recent_line <$> newest 5 evs.
Proof.
  intros (_ & Hc & Hv).
  set (h := fun p : log_level_t * error_code_t * string * string * Z =>
              OutLogEntry (entry_tag p.1.1.1.1) p.1.1.2).
  change (fun e => OutLogEntry (entry_tag (le_level e)) (le_message e))
    with (h ∘ entry_fields).
  change recent_line with (h ∘ event_fields).
  rewrite !list_fmap_compose. f_equal.
  rewrite (fmap_drop entry_fields), Hv, <- (fmap_drop event_fields). f_equal.
  unfold newest. rewrite drop_drop. f_equal.
  unfold MAX_LOG_ENTRIES in Hc. lia.
Qed.

(** X11. [display_debug_info] changes nothing but the console.  After
    [debug_init] and any sequence of operations it prints, in this order,
    the header and the health record, the newest five appends (all of them
    when fewer were made) with their level tag and text, and one line for
    each fault record in use, marked RESOLVED or ACTIVE. *)
Theorem display_shows_newest_appends clk rnd fopen_result write_fails ops :
  let w := run ops (initial_world clk rnd fopen_result write_fails) in
  let w' := exec display_debug_info w in
  monitor w' = monitor w
  /\ appends w' = appends w
  /\ console w'
     = console w
       ++ [OutText "=== Debug Information ==="; OutHealth (health (monitor w));
           OutText "Recent Log Entries:"]
       ++ (recent_line <$> newest 5 (appends w))
       ++ [OutText "Fault History:"]
       ++ (record_line
             <$> take (Z.to_nat (fault_count (monitor w))) (fault_history (monitor w))).
Proof.
  intros w w'. subst w'. rewrite display_debug_info_eq.
  split; [reflexivity|]. split; [reflexivity|].
  cbn [console set_console]. f_equal. unfold display_lines.
  rewrite (recent_entries_mirror (monitor w) (appends w)); [reflexivity|].
  apply (run_invariant log_mirrors mirrors_step), mirrors_initial_world.
Qed.

(** ** assert_system_state *)

Lemma escalates_critical s :
  escalates LOG_CRITICAL s = bool_decide (s = STATE_RUNNING).
Proof. reflexivity. Qed.

Lemma escalates_error s :
  escalates LOG_ERROR s = bool_decide (s = STATE_RUNNING).
Proof. reflexivity. Qed.

(** X12. [assert_system_state] changes nothing when the state is the
    expected one.  Otherwise it logs at Critical level and aborts, with one
    exception: when the state is Running and Fault is expected, the Critical
    entry itself moves the state to Fault, the assertion holds and the call
    returns. *)
Theorem assert_system_state_aborts_iff expected w :
  assert_system_state (state_of w) w = Returned w
  /\ ((exists w', assert_system_state expected w = Aborted w')
      <-> state_of w <> expected
          /\ ~ (state_of w = STATE_RUNNING /\ expected = STATE_FAULT))
  /\ (forall w', assert_system_state expected w = Aborted w' ->
        state_of w' <> expected
        /\ appends w'
           = appends w
             ++ log_events LOG_CRITICAL ERR_INVALID_STATE
                  ("Expected state " +:+ pretty (state_value expected)
                   +:+ ", got " +:+ pretty (state_value (state_of w)))
                  "assert_system_state" 574 (state_of w)).
Proof.
  split; [|split].
  - unfold assert_system_state. fold (state_of w).
    rewrite bool_decide_eq_true_2 by reflexivity. reflexivity.
  - unfold assert_system_state. fold (state_of w).
    destruct (decide (state_of w = expected)) as [He | He].
    + rewrite bool_decide_eq_true_2 by exact He. cbn [negb].
      split; [intros [w' Hw']; discriminate | intros [Hne _]; contradiction].
    + rewrite bool_decide_eq_false_2 by exact He. cbn [negb]; cbv zeta.
      unfold LOG_CRITICAL_. rewrite exec_log_message.
      set (w1 := log_result _ _ _ _ _ _).
      fold (state_of w1).
      assert (H1 : state_of w1
                   = if bool_decide (state_of w = STATE_RUNNING)
                     then STATE_FAULT else state_of w).
      { subst w1. rewrite log_result_state, escalates_critical. reflexivity. }
      rewrite H1.
      destruct (decide (state_of w = STATE_RUNNING)) as [Hr | Hr].
      * rewrite (bool_decide_eq_true_2 _ Hr).
        destruct (decide (STATE_FAULT = expected)) as [Hf | Hf].
        -- rewrite bool_decide_eq_true_2 by exact Hf.
           split; [intros [w' Hw']; discriminate|].
           intros [_ Hn]. exfalso. apply Hn. split; [exact Hr | congruence].
        -- rewrite bool_decide_eq_false_2 by exact Hf.
           split; [|intros _; exists w1; reflexivity].
           intros _. split; [exact He|]. intros [_ Hx]. congruence.
      * rewrite (bool_decide_eq_false_2 _ Hr).
        rewrite bool_decide_eq_false_2 by exact He.
        split; [|intros _; exists w1; reflexivity].
        intros _. split; [exact He|]. intros [Hx _]. contradiction.
  - intros w'. unfold assert_system_state. fold (state_of w).
    destruct (bool_decide (state_of w = expected)); cbn [negb]; cbv zeta;
      [discriminate|].
    unfold LOG_CRITICAL_. rewrite exec_log_message.
    set (w1 := log_result _ _ _ _ _ _). fold (state_of w1).
    destruct (bool_decide (state_of w1 = expected)) eqn:H1; [discriminate|].
    intros [= <-]. split; [eapply bool_decide_eq_false_1; exact H1|].
    subst w1. apply log_result_appends.
Qed.

(** ** The fault generators *)

(** The counter of a fault's generator. *)
Definition generator_count (fault : fault_type_t) (s : sim) : Z :=
  match fault with
  | FAULT_NONE => 0
  | FAULT_SENSOR_NOISE => noise_count s
  | FAULT_ACTUATOR_FAIL => actuator_count s
  | FAULT_COMM_BREAK => comm_count s
  | FAULT_POWER_SPIKE => power_count s
  | FAULT_MEMORY_LEAK => memory_count s
  end.

(** What a fault's generator logs: level, error kind, text, function, line. *)
Definition generator_entry (fault : fault_type_t)
  : log_level_t * error_code_t * string * string * Z :=
  match fault with
  | FAULT_NONE => (LOG_DEBUG, ERR_NONE, "", "", 0)
  | FAULT_SENSOR_NOISE =>
      (LOG_WARNING, ERR_SENSOR_FAILURE, "Sensor noise simulation active",
       "simulate_sensor_noise", 631)
  | FAULT_ACTUATOR_FAIL =>
      (LOG_ERROR, ERR_ACTUATOR_STUCK, "Actuator failure simulation active",
       "simulate_actuator_failure", 640)
  | FAULT_COMM_BREAK =>
      (LOG_ERROR, ERR_COMMUNICATION_LOST, "Communication break simulation active",
       "simulate_communication_break", 649)
  | FAULT_POWER_SPIKE =>
      (LOG_WARNING, ERR_POWER_FLUCTUATION, "Power fluctuation simulation active",
       "simulate_power_fluctuation", 658)
  | FAULT_MEMORY_LEAK =>
      (LOG_CRITICAL, ERR_MEMORY_CORRUPTION, "Memory corruption simulation active",
       "simulate_memory_corruption", 667)
  end.

Definition generator_log (fault : fault_type_t) : M unit :=
  let '(level, error, message, function, line) := generator_entry fault in
  log_message level error message function line.

Definition event_id (ev : append_event)
  : log_level_t * error_code_t * string * string * Z :=
  (ev_level ev, ev_error ev, ev_message ev, ev_function ev, ev_line ev).

Definition generator_names : list string :=
  ["simulate_sensor_noise"; "simulate_actuator_failure";
   "simulate_communication_break"; "simulate_power_fluctuation";
   "simulate_memory_corruption"].

(** The appends made by the generators. *)
Definition generator_events (evs : list append_event) : list append_event :=
  filter (fun ev => ev_function ev ∈ generator_names) evs.

(** The statics a generator does not own. *)
Definition other_statics (fault : fault_type_t) (s s' : sim) : Prop :=
  fault_call_count s' = fault_call_count s
  /\ last_fault_trigger s' = last_fault_trigger s
  /\ consecutive_failures s' = consecutive_failures s
  /\ forall g, g <> fault -> generator_count g s' = generator_count g s.

Lemma simulate_fault_spec fault s :
  fault <> FAULT_NONE ->
  let c := generator_count fault s + 1 in
  let s' := simulate_fault fault s in
  generator_count fault s' = c
  /\ other_statics fault s s'
  /\ core s' = if Z.rem c 5 =? 0 then exec (generator_log fault) (core s) else core s.
Proof.
  intros Hf c s'. subst c s'.
  destruct fault; [contradiction|..];
    cbn [simulate_fault generator_count];
    unfold simulate_sensor_noise, simulate_actuator_failure,
      simulate_communication_break, simulate_power_fluctuation,
      simulate_memory_corruption;
    cbn [noise_count actuator_count comm_count power_count memory_count
         set_noise_count set_actuator_count set_comm_count set_power_count
         set_memory_count];
    match goal with |- context [Z.rem ?x 5 =? 0] => destruct (Z.rem x 5 =? 0) end;
    (split; [reflexivity|]); (split; [|reflexivity]);
    (repeat split; try reflexivity);
    intros g Hg; destruct g; try reflexivity; contradiction.
Qed.

Lemma generator_events_log_events level error message function line s :
  "log_message" ∉ generator_names ->
  generator_events (log_events level error message function line s)
  = if bool_decide (function ∈ generator_names)
    then [mk_append_event s level error message function line] else [].
Proof.
  intros Hlm. unfold generator_events, log_events.
  destruct (decide (function ∈ generator_names)) as [Hin | Hin].
  - rewrite filter_cons_True by exact Hin.
    rewrite bool_decide_eq_true_2 by exact Hin. f_equal.
    destruct (escalates level s); [|reflexivity].
    rewrite filter_cons_False by exact Hlm. reflexivity.
  - rewrite filter_cons_False by exact Hin.
    rewrite bool_decide_eq_false_2 by exact Hin.
    destruct (escalates level s); [|reflexivity].
    rewrite filter_cons_False by exact Hlm. reflexivity.
Qed.

Lemma log_message_not_generator : "log_message" ∉ generator_names.
Proof. exact (bool_decide_eq_false_1 ("log_message" ∈ generator_names) eq_refl). Qed.

(** Evaluate a closed [bool_decide]. *)
Ltac eval_bool_decide :=
  match goal with
  | |- context [bool_decide ?P] =>
      let v := eval vm_compute in (bool_decide P) in
      change (bool_decide P) with v
  end.

Lemma generator_events_log_result level error message function line w :
  event_id <$> generator_events (appends (log_result level error message function line w))
  = (event_id <$> generator_events (appends w))
    ++ if bool_decide (function ∈ generator_names)
       then [(level, error, message, function, line)] else [].
Proof.
  rewrite log_result_appends. unfold generator_events.
  rewrite filter_app, fmap_app. f_equal.
  fold (generator_events (log_events level error message function line (state_of w))).
  rewrite generator_events_log_events by exact log_message_not_generator.
  destruct (bool_decide _); reflexivity.
Qed.

Lemma generator_log_events fault w :
  fault <> FAULT_NONE ->
  event_id <$> generator_events (appends (exec (generator_log fault) w))
  = (event_id <$> generator_events (appends w)) ++ [generator_entry fault].
Proof.
  intros Hf.
  destruct fault; [contradiction|..]; unfold generator_log; cbn [generator_entry];
    rewrite exec_log_message, generator_events_log_result;
    eval_bool_decide; reflexivity.
Qed.

Lemma div_succ (x k : Z) :
  0 <= x -> 0 < k ->
  (x + 1) / k = x / k + (if Z.rem (x + 1) k =? 0 then 1 else 0).
Proof.
  intros Hx Hk. rewrite Z.rem_mod_nonneg by lia.
  pose proof (Z.div_mod x k ltac:(lia)) as Hdm.
  pose proof (Z.mod_pos_bound x k Hk) as Hr.
  destruct (decide (x mod k + 1 = k)) as [Hlast | Hlast].
  - assert (Hm : (x + 1) mod k = 0).
    { symmetry. apply (Z.mod_unique (x + 1) k (x / k + 1) 0); lia. }
    rewrite Hm. cbn [Z.eqb]. symmetry.
    apply (Z.div_unique (x + 1) k (x / k + 1) 0); lia.
  - assert (Hm : (x + 1) mod k = x mod k + 1).
    { symmetry. apply (Z.mod_unique (x + 1) k (x / k) (x mod k + 1)); lia. }
    rewrite Hm. rewrite (proj2 (Z.eqb_neq _ _)) by lia. rewrite Z.add_0_r. symmetry.
    apply (Z.div_unique (x + 1) k (x / k) (x mod k + 1)); lia.
Qed.

Lemma generator_calls_spec fault n s :
  fault <> FAULT_NONE ->
  0 <= generator_count fault s ->
  let c := generator_count fault s in
  let s' := Nat.iter n (simulate_fault fault) s in
  generator_count fault s' = c + Z.of_nat n
  /\ other_statics fault s s'
  /\ event_id <$> generator_events (appends (core s'))
     = (event_id <$> generator_events (appends (core s)))
       ++ replicate (Z.to_nat ((c + Z.of_nat n) / 5 - c / 5)) (generator_entry fault).
Proof.
  intros Hf Hc c s'. subst s'.
  assert (Hcc : generator_count fault s = c) by reflexivity. clearbody c.
  induction n as [|n IH].
  - cbn [Nat.iter nat_rect]. split; [lia|]. split; [repeat split; reflexivity|].
    replace (c + Z.of_nat 0) with c by lia. rewrite Z.sub_diag, app_nil_r. reflexivity.
  - change (Nat.iter (S n) (simulate_fault fault) s)
      with (simulate_fault fault (Nat.iter n (simulate_fault fault) s)).
    set (sn := Nat.iter n (simulate_fault fault) s) in *.
    destruct IH as (IHc & (O1 & O2 & O3 & O4) & IHe).
    destruct (simulate_fault_spec fault sn Hf) as (Sc & (P1 & P2 & P3 & P4) & Score).
    cbv zeta in Sc, Score. rewrite IHc in Sc, Score.
    split; [rewrite Sc; lia|]. split.
    { repeat split; [congruence..|]. intros g Hg. rewrite P4, O4 by exact Hg. reflexivity. }
    rewrite Score.
    replace (c + Z.of_nat (S n)) with (c + Z.of_nat n + 1) by lia.
    rewrite (div_succ (c + Z.of_nat n) 5) by lia.
    assert (Hmono : c / 5 <= (c + Z.of_nat n) / 5) by (apply Z.div_le_mono; lia).
    destruct (Z.rem (c + Z.of_nat n + 1) 5 =? 0).
    + rewrite generator_log_events by exact Hf. rewrite IHe, <- app_assoc. f_equal.
      replace (Z.to_nat ((c + Z.of_nat n) / 5 + 1 - c / 5))
        with (S (Z.to_nat ((c + Z.of_nat n) / 5 - c / 5))) by lia.
      rewrite replicate_S_end. reflexivity.
    + rewrite IHe. do 3 f_equal. lia.
Qed.

(** X13. Each of the five fault generators logs on every fifth call and
    only then.  After [n] calls from a counter at [c], the counter is at
    [c + n] and the generator has appended [(c + n) / 5 - c / 5] entries,
    each with its own level, error kind, text and line: Warning for sensor
    noise and power fluctuation, Error for actuator failure and
    communication break, Critical for memory corruption. *)
Theorem generator_logs_every_fifth_call fault (n : nat) s :
  fault <> FAULT_NONE ->
  0 <= generator_count fault s ->
  generator_count fault s + Z.of_nat n <= INT_MAX ->
  let c := generator_count fault s in
  let s' := Nat.iter n (simulate_fault fault) s in
  generator_count fault s' = c + Z.of_nat n
  /\ event_id <$> generator_events (appends (core s'))
     = (event_id <$> generator_events (appends (core s)))
       ++ replicate (Z.to_nat ((c + Z.of_nat n) / 5 - c / 5)) (generator_entry fault).
Proof.
  intros Hf Hc _ c s'.
  destruct (generator_calls_spec fault n s Hf Hc) as (H1 & _ & H2).
  split; [exact H1 | exact H2].
Qed.

Definition fresh_sim : sim := mk_sim fresh_world 0 0 0 0 0 0 0 0.

Lemma generator_logs_every_fifth_call_witness :
  generator_count FAULT_MEMORY_LEAK
                  (Nat.iter 12 (simulate_fault FAULT_MEMORY_LEAK) fresh_sim)
  = 0 + Z.of_nat 12.
Proof.
  apply (generator_logs_every_fifth_call FAULT_MEMORY_LEAK 12 fresh_sim).
  - discriminate.
  - vm_compute. discriminate.
  - vm_compute. discriminate.
Defined.

(** ** What the main loop preserves *)

Lemma do_core_preserves (I : world -> Prop) (c : M unit) s :
  preserves I c -> I (core s) -> I (core (do_core c s)).
Proof. intros Hc Hs. apply Hc, Hs. Qed.

Lemma on_core_preserves {A} (I : world -> Prop) (c : M A) s :
  preserves I c -> I (core s) -> I (core (on_core c s).2).
Proof.
  intros Hc Hs. unfold on_core. specialize (Hc (core s) Hs).
  destruct (c (core s)) as [a w]. exact Hc.
Qed.

Lemma simulate_fault_preserves (I : world -> Prop) fault s :
  preserves I (generator_log fault) ->
  I (core s) -> I (core (simulate_fault fault s)).
Proof.
  intros Hlog Hs. destruct (decide (fault = FAULT_NONE)) as [-> | Hf]; [exact Hs|].
  destruct (simulate_fault_spec fault s Hf) as (_ & _ & ->).
  destruct (_ =? 0); [apply Hlog, Hs | exact Hs].
Qed.

Lemma fault_effects_preserves (I : world -> Prop) s :
  (forall fault, preserves I (generator_log fault)) ->
  I (core s) -> I (core (fault_effects s)).
Proof.
  intros Hlog Hs. unfold fault_effects.
  destruct (fault_injection_enabled _); [|exact Hs].
  destruct (_ && _); [|exact Hs].
  apply simulate_fault_preserves; [apply Hlog | exact Hs].
Qed.

Lemma normal_operations_preserves (I : world -> Prop) s :
  preserves I rand ->
  preserves I (LOG_ERROR_ ERR_SENSOR_FAILURE "Sensor failure detected"
                          "simulate_sensor_reading" 589) ->
  preserves I (LOG_WARNING_ ERR_INVALID_STATE "Invalid actuator command"
                            "simulate_actuator_control" 602) ->
  preserves I (LOG_WARNING_ ERR_POWER_FLUCTUATION "Power fluctuation detected"
                            "simulate_power_monitoring" 619) ->
  I (core s) -> I (core (normal_operations s)).
Proof.
  intros Hrand Hsensor Hact Hpow Hs.
  unfold normal_operations, simulate_sensor_reading.
  pose proof (on_core_preserves I rand s Hrand Hs) as H1.
  destruct (on_core rand s) as [r1 s1]. cbn [snd] in H1.
  pose proof (on_core_preserves I rand s1 Hrand H1) as H2.
  destruct (on_core rand s1) as [r2 s2]. cbn [snd] in H2.
  match goal with
  | |- I (core (let (_, s) := ?sensor in _)) =>
      assert (H3 : I (core sensor.2));
      [|destruct sensor as [v s3]; cbn [snd] in H3]
  end.
  { destruct (_ <? 5); [|exact H2].
    destruct (3 <? _); [|exact H2].
    cbn [snd]. apply Hsensor. exact H2. }
  pose proof (on_core_preserves I rand s3 Hrand H3) as H4.
  destruct (on_core rand s3) as [r s4]. cbn [snd] in H4.
  unfold simulate_actuator_control.
  match goal with
  | |- I (core (let (_, s) := ?actuator in _)) =>
      assert (H5 : I (core actuator.2));
      [|destruct actuator as [v5 s5]; cbn [snd] in H5]
  end.
  { destruct (_ || _); [|exact H4]. cbn [snd]. apply Hact. exact H4. }
  unfold simulate_communication, simulate_power_monitoring.
  pose proof (on_core_preserves I rand s5 Hrand H5) as H6.
  destruct (on_core rand s5) as [r6 s6]. cbn [snd] in H6.
  destruct (_ || _); [|exact H6]. apply Hpow. exact H6.
Qed.

Section MainPreserves.
Context (I : world -> Prop).
Hypothesis I_step : forall op, preserves I (step op).
Hypothesis I_rand : preserves I rand.
Hypothesis I_printf :
  preserves I (printf (OutText "Unknown command. Use: f, r, d, q")).

Lemma log_message_preserved level error message function line :
  preserves I (log_message level error message function line).
Proof. exact (I_step (OpLog level error message function line)). Qed.

Lemma generator_log_preserved fault : preserves I (generator_log fault).
Proof. destruct fault; apply log_message_preserved. Qed.

Lemma handle_command_preserves command s :
  I (core s) -> I (core (handle_command command s).2).
Proof.
  intros Hs. unfold handle_command.
  destruct (Ascii.eqb command "q"); [apply log_message_preserved, Hs|].
  destruct (Ascii.eqb command "f").
  { pose proof (on_core_preserves I rand s I_rand Hs) as H1.
    destruct (on_core rand s) as [r s1]. cbn [snd] in *.
    exact (I_step (OpInject _) _ H1). }
  destruct (Ascii.eqb command "r"); [exact (I_step OpRecover _ Hs)|].
  destruct (Ascii.eqb command "d"); [exact (I_step OpDisplay _ Hs)|].
  apply I_printf, Hs.
Qed.

Lemma iteration_preserves key s :
  I (core s) -> I (core (iteration key s).2).
Proof.
  intros Hs. unfold iteration.
  pose proof (do_core_preserves I check_system_health s (I_step OpTick) Hs) as H1.
  pose proof (fault_effects_preserves I _ generator_log_preserved H1) as H2.
  set (s2 := fault_effects _) in *.
  assert (H3 : I (core (match key with
                        | Some command => handle_command command s2
                        | None => (true, s2)
                        end).2)).
  { destruct key; [apply handle_command_preserves, H2 | exact H2]. }
  destruct (match key with Some _ => _ | None => _ end) as [running s3].
  cbn [snd] in *.
  apply normal_operations_preserves; try apply log_message_preserved; assumption.
Qed.

Lemma main_loop_preserves keys s :
  I (core s) -> I (core (main_loop keys s).2).
Proof.
  revert s. induction keys as [|key keys IH]; intros s Hs; [exact Hs|].
  cbn [main_loop]. pose proof (iteration_preserves key s Hs) as H1.
  destruct (iteration key s) as [running s1]. cbn [snd] in H1.
  destruct running; [apply IH, H1 | exact H1].
Qed.

End MainPreserves.

(** ** The statics of the loop *)

(** The counters of the fault effects: the two of the loop and the five of
    the generators. *)
Definition same_fault_statics (s s' : sim) : Prop :=
  fault_call_count s' = fault_call_count s
  /\ last_fault_trigger s' = last_fault_trigger s
  /\ forall g, generator_count g s' = generator_count g s.

Lemma same_fault_statics_refl s : same_fault_statics s s.
Proof. repeat split. Qed.

Lemma same_fault_statics_trans s1 s2 s3 :
  same_fault_statics s1 s2 -> same_fault_statics s2 s3 -> same_fault_statics s1 s3.
Proof.
  intros (A1 & A2 & A3) (B1 & B2 & B3).
  repeat split; [congruence.. |]. intros g. rewrite B3. apply A3.
Qed.

Lemma same_fault_statics_set_core w s : same_fault_statics s (set_core w s).
Proof. repeat split. Qed.

Lemma same_fault_statics_on_core {A} (c : M A) s :
  same_fault_statics s (on_core c s).2.
Proof. unfold on_core. destruct (c (core s)). apply same_fault_statics_set_core. Qed.

Lemma same_fault_statics_failures n s :
  same_fault_statics s (set_consecutive_failures n s).
Proof. repeat split. Qed.

Lemma normal_operations_statics s : same_fault_statics s (normal_operations s).
Proof.
  unfold normal_operations, simulate_sensor_reading.
  pose proof (same_fault_statics_on_core rand s) as H1.
  destruct (on_core rand s) as [r1 s1]. cbn [snd] in H1.
  pose proof (same_fault_statics_on_core rand s1) as H2.
  destruct (on_core rand s1) as [r2 s2]. cbn [snd] in H2.
  match goal with
  | |- same_fault_statics _ (let (_, s) := ?sensor in _) =>
      assert (H3 : same_fault_statics s2 sensor.2);
      [|destruct sensor as [v s3]; cbn [snd] in H3]
  end.
  { destruct (_ <? 5); [|apply same_fault_statics_failures].
    destruct (3 <? _); cbn [snd].
    - eapply same_fault_statics_trans; [apply same_fault_statics_failures|].
      apply same_fault_statics_set_core.
    - apply same_fault_statics_failures. }
  pose proof (same_fault_statics_on_core rand s3) as H4.
  destruct (on_core rand s3) as [r s4]. cbn [snd] in H4.
  unfold simulate_actuator_control.
  match goal with
  | |- same_fault_statics _ (let (_, s) := ?actuator in _) =>
      assert (H5 : same_fault_statics s4 actuator.2);
      [|destruct actuator as [v5 s5]; cbn [snd] in H5]
  end.
  { destruct (_ || _); cbn [snd];
      [apply same_fault_statics_set_core | apply same_fault_statics_refl]. }
  unfold simulate_communication, simulate_power_monitoring.
  pose proof (same_fault_statics_on_core rand s5) as H6.
  destruct (on_core rand s5) as [r6 s6]. cbn [snd] in H6.
  assert (H7 : same_fault_statics s s6).
  { repeat (eapply same_fault_statics_trans; [eassumption|]).
    apply same_fault_statics_refl. }
  destruct (_ || _); [|exact H7].
  eapply same_fault_statics_trans; [exact H7 | apply same_fault_statics_set_core].
Qed.

Lemma handle_command_statics command s :
  same_fault_statics s (handle_command command s).2.
Proof.
  unfold handle_command.
  destruct (Ascii.eqb command "q"); [apply same_fault_statics_set_core|].
  destruct (Ascii.eqb command "f").
  { pose proof (same_fault_statics_on_core rand s) as H1.
    destruct (on_core rand s) as [r s1]. cbn [snd] in *.
    eapply same_fault_statics_trans; [exact H1 | apply same_fault_statics_set_core]. }
  destruct (Ascii.eqb command "r"); [apply same_fault_statics_set_core|].
  destruct (Ascii.eqb command "d"); apply same_fault_statics_set_core.
Qed.

(** The loop never lets the trigger mark run ahead of the call counter. *)
Definition throttle_ok (s : sim) : Prop :=
  last_fault_trigger s <= fault_call_count s.

Lemma simulate_fault_loop_statics fault s :
  fault_call_count (simulate_fault fault s) = fault_call_count s
  /\ last_fault_trigger (simulate_fault fault s) = last_fault_trigger s.
Proof.
  destruct fault; cbn [simulate_fault];
    unfold simulate_sensor_noise, simulate_actuator_failure,
      simulate_communication_break, simulate_power_fluctuation,
      simulate_memory_corruption;
    try match goal with |- context [Z.rem ?x 5 =? 0] => destruct (Z.rem x 5 =? 0) end;
    split; reflexivity.
Qed.

Lemma fault_effects_throttle s : throttle_ok s -> throttle_ok (fault_effects s).
Proof.
  unfold throttle_ok, fault_effects. intros Hs.
  destruct (fault_injection_enabled _); [|exact Hs].
  destruct (_ && _).
  - destruct (simulate_fault_loop_statics
                (active_fault (monitor (core
                   (set_last_fault_trigger
                      (fault_call_count (set_fault_call_count (fault_call_count s + 1) s))
                      (set_fault_call_count (fault_call_count s + 1) s)))))
                (set_last_fault_trigger
                   (fault_call_count (set_fault_call_count (fault_call_count s + 1) s))
                   (set_fault_call_count (fault_call_count s + 1) s))) as [-> ->].
    cbn. lia.
  - cbn. lia.
Qed.

Lemma iteration_throttle key s : throttle_ok s -> throttle_ok (iteration key s).2.
Proof.
  intros Hs. unfold iteration.
  assert (H1 : throttle_ok (fault_effects (do_core check_system_health s)))
    by (apply fault_effects_throttle; exact Hs).
  set (s2 := fault_effects _) in *.
  assert (H3 : throttle_ok (match key with
                            | Some command => handle_command command s2
                            | None => (true, s2)
                            end).2).
  { destruct key; [|exact H1].
    destruct (handle_command_statics a s2) as (E1 & E2 & _).
    unfold throttle_ok in *. rewrite E1, E2. exact H1. }
  destruct (match key with Some _ => _ | None => _ end) as [running s3].
  cbn [snd] in *.
  destruct (normal_operations_statics s3) as (E1 & E2 & _).
  unfold throttle_ok in *. rewrite E1, E2. exact H3.
Qed.

Lemma main_loop_throttle keys s : throttle_ok s -> throttle_ok (main_loop keys s).2.
Proof.
  revert s. induction keys as [|key keys IH]; intros s Hs; [exact Hs|].
  cbn [main_loop]. pose proof (iteration_throttle key s Hs) as H1.
  destruct (iteration key s) as [running s1]. cbn [snd] in H1.
  destruct running; [apply IH, H1 | exact H1].
Qed.

(** [fault_effects] without the second half of its test. *)
Definition fault_effects_every_fourth (s : sim) : sim :=
  if fault_injection_enabled (monitor (core s)) then
    let s := set_fault_call_count (fault_call_count s + 1) s in
    if Z.rem (fault_call_count s) 4 =? 0 then
      let s := set_last_fault_trigger (fault_call_count s) s in
      simulate_fault (active_fault (monitor (core s))) s
    else s
  else s.

Lemma fault_effects_eq s :
  throttle_ok s -> fault_effects s = fault_effects_every_fourth s.
Proof.
  unfold throttle_ok, fault_effects, fault_effects_every_fourth. intros Hs.
  destruct (fault_injection_enabled _); [|reflexivity].
  cbn [fault_call_count set_fault_call_count last_fault_trigger].
  rewrite (proj2 (Z.eqb_neq (fault_call_count s + 1) (last_fault_trigger s))) by lia.
  cbn [negb]. rewrite andb_true_r. reflexivity.
Qed.

(** X14. In [main] the test [fault_call_count != last_fault_trigger] never
    decides anything: at every turn of the loop the trigger mark is at most
    the call counter, which has just been incremented when the test is made.
    While fault injection is enabled the generator of the active fault runs
    on every fourth turn, exactly.  (The counter is incremented at most once
    in a turn, so it stays an [int] for [INT_MAX] turns.) *)
Theorem fault_trigger_guard_is_redundant clk rnd fopen_result write_fails keys :
  Z.of_nat (length keys) <= INT_MAX ->
  let s := (main_loop keys (main_init clk rnd fopen_result write_fails)).2 in
  last_fault_trigger s <= fault_call_count s
  /\ fault_effects (do_core check_system_health s)
     = fault_effects_every_fourth (do_core check_system_health s).
Proof.
  intros _ s.
  assert (Hs : throttle_ok s).
  { apply main_loop_throttle. unfold throttle_ok, main_init. cbn. lia. }
  split; [exact Hs|]. apply fault_effects_eq. exact Hs.
Qed.

Lemma fault_trigger_guard_is_redundant_witness :
  last_fault_trigger
    (main_loop [Some "f"%char; None; None; None; None]
               (main_init (fun _ => 0) (fun _ => 0) None false)).2
  <= fault_call_count
       (main_loop [Some "f"%char; None; None; None; None]
                  (main_init (fun _ => 0) (fun _ => 0) None false)).2.
Proof.
  apply (fault_trigger_guard_is_redundant (fun _ => 0) (fun _ => 0) None false
           [Some "f"%char; None; None; None; None]).
  vm_compute. discriminate.
Defined.

(** ** An injected fault in the log *)

(** Between [w0] and [w] the injection flags are the same and no generator
    has logged. *)
Definition quiet_for_generators (w0 w : world) : Prop :=
  fault_injection_enabled (monitor w) = fault_injection_enabled (monitor w0)
  /\ active_fault (monitor w) = active_fault (monitor w0)
  /\ generator_events (appends w) = generator_events (appends w0).

Lemma quiet_for_generators_refl w : quiet_for_generators w w.
Proof. repeat split. Qed.

Lemma quiet_log_message w0 level error message function line :
  function ∉ generator_names ->
  preserves (quiet_for_generators w0) (log_message level error message function line).
Proof.
  intros Hn w (H1 & H2 & H3). rewrite log_message_eq. cbn [snd].
  pose proof (log_effect_frame (clock w (clock_reads w)) (clock w (S (clock_reads w)))
                level error message function line (monitor w)) as Hfr.
  cbv zeta in Hfr. destruct Hfr as (_ & _ & _ & F1 & F2 & _).
  split; [|split].
  - unfold log_result; cbn [monitor]. rewrite F1. exact H1.
  - unfold log_result; cbn [monitor]. rewrite F2. exact H2.
  - rewrite log_result_appends. unfold generator_events in *.
    rewrite filter_app, H3.
    fold (generator_events (log_events level error message function line (state_of w))).
    rewrite generator_events_log_events by exact log_message_not_generator.
    rewrite bool_decide_eq_false_2 by exact Hn. apply app_nil_r.
Qed.

Ltac not_a_generator :=
  match goal with
  | |- ?f ∉ generator_names =>
      exact (bool_decide_eq_false_1 (f ∈ generator_names) eq_refl)
  end.

Ltac quiet_prim :=
  idtac;
  match goal with
  | |- preserves _ (log_message _ _ _ _ _) =>
      apply quiet_log_message; not_a_generator
  | |- preserves _ _ =>
      let w := fresh "w" in
      let H := fresh "H" in
      intros w H; exact H
  end.

Lemma quiet_check_system_health w0 :
  preserves (quiet_for_generators w0) check_system_health.
Proof.
  unfold check_system_health, monitor_gauges, watchdog_simulation,
    LOG_ERROR_, LOG_CRITICAL_.
  walk_with quiet_prim.
Qed.

Lemma quiet_normal_operations s :
  quiet_for_generators (core s) (core (normal_operations s)).
Proof.
  apply normal_operations_preserves;
    [unfold LOG_ERROR_, LOG_WARNING_; quiet_prim.. | apply quiet_for_generators_refl].
Qed.

Lemma generator_log_frame fault w :
  fault_injection_enabled (monitor (exec (generator_log fault) w))
  = fault_injection_enabled (monitor w)
  /\ active_fault (monitor (exec (generator_log fault) w)) = active_fault (monitor w).
Proof.
  destruct fault; unfold generator_log; cbn [generator_entry];
    rewrite exec_log_message; unfold log_result; cbn [monitor];
    match goal with
    | |- context [log_effect ?a ?b ?c ?d ?e ?f ?g ?m] =>
        pose proof (log_effect_frame a b c d e f g m) as Hfr
    end;
    cbv zeta in Hfr; destruct Hfr as (_ & _ & _ & F1 & F2 & _);
    split; assumption.
Qed.

(** A turn of the loop in which no key is pressed. *)
Definition idle_turn (s : sim) : sim := (iteration None s).2.

Lemma idle_turn_eq s :
  idle_turn s = normal_operations (fault_effects (do_core check_system_health s)).
Proof. unfold idle_turn, iteration. cbv beta iota zeta. cbn [snd]. reflexivity. Qed.

Definition one_if (b : bool) : Z := if b then 1 else 0.

Lemma idle_turn_spec fault s :
  fault_injection_enabled (monitor (core s)) = true ->
  active_fault (monitor (core s)) = fault ->
  fault <> FAULT_NONE ->
  throttle_ok s ->
  let fourth := Z.rem (fault_call_count s + 1) 4 =? 0 in
  let fifth := Z.rem (generator_count fault s + 1) 5 =? 0 in
  let s' := idle_turn s in
  fault_injection_enabled (monitor (core s')) = true
  /\ active_fault (monitor (core s')) = fault
  /\ throttle_ok s'
  /\ fault_call_count s' = fault_call_count s + 1
  /\ generator_count fault s' = generator_count fault s + one_if fourth
  /\ event_id <$> generator_events (appends (core s'))
     = (event_id <$> generator_events (appends (core s)))
       ++ if fourth && fifth then [generator_entry fault] else [].
Proof.
  intros Hen Hact Hf Hok fourth fifth s'.
  assert (Hok' : throttle_ok s').
  { subst s'. apply iteration_throttle. exact Hok. }
  subst s'. rewrite idle_turn_eq in *.
  set (s1 := do_core check_system_health s) in *.
  destruct (quiet_check_system_health (core s) (core s) (quiet_for_generators_refl _))
    as (Q1 & Q2 & Q3).
  change ((check_system_health (core s)).2) with (core s1) in Q1, Q2, Q3.
  rewrite Hen in Q1. rewrite Hact in Q2.
  assert (H2 : let s2 := fault_effects s1 in
               fault_injection_enabled (monitor (core s2)) = true
               /\ active_fault (monitor (core s2)) = fault
               /\ fault_call_count s2 = fault_call_count s + 1
               /\ generator_count fault s2 = generator_count fault s + one_if fourth
               /\ event_id <$> generator_events (appends (core s2))
                  = (event_id <$> generator_events (appends (core s)))
                    ++ if fourth && fifth then [generator_entry fault] else []).
  { cbv zeta. rewrite fault_effects_eq by exact Hok.
    unfold fault_effects_every_fourth. rewrite Q1.
    cbn [fault_call_count set_fault_call_count set_last_fault_trigger core].
    change (fault_call_count s1) with (fault_call_count s).
    fold fourth. destruct fourth.
    - rewrite Q2.
      match goal with
      | |- context [simulate_fault fault ?x] =>
          destruct (simulate_fault_spec fault x Hf) as (Sc & (S1 & _) & Score);
          set (s2 := simulate_fault fault x) in *
      end.
      cbv zeta in Sc, Score.
      change (generator_count fault (set_last_fault_trigger _ _))
        with (generator_count fault s) in Sc, Score.
      fold fifth in Score.
      cbn [core set_last_fault_trigger set_fault_call_count] in Score.
      cbn [fault_call_count set_last_fault_trigger set_fault_call_count] in S1.
      rewrite Score, S1, Sc. cbn [andb one_if].
      destruct fifth.
      + destruct (generator_log_frame fault (core s1)) as [-> ->].
        rewrite generator_log_events by exact Hf. rewrite Q3.
        repeat split; assumption || reflexivity.
      + rewrite Q3, app_nil_r. repeat split; assumption || reflexivity.
    - cbn [core set_fault_call_count fault_call_count andb one_if].
      change (generator_count fault (set_fault_call_count _ s1))
        with (generator_count fault s).
      rewrite Q3, app_nil_r, Z.add_0_r. repeat split; assumption || reflexivity. }
  cbv zeta in H2. set (s2 := fault_effects s1) in *.
  destruct H2 as (E1 & E2 & E3 & E4 & E5).
  destruct (quiet_normal_operations s2) as (N1 & N2 & N3).
  destruct (normal_operations_statics s2) as (M1 & M2 & M3).
  rewrite N1, N2, N3, M1, M3, E1, E2, E3, E4, E5.
  repeat split; assumption || reflexivity.
Qed.

Fixpoint turns (turn : sim -> sim) (n : nat) (s : sim) : sim :=
  match n with
  | O => s
  | S n' => turns turn n' (turn s)
  end.

Lemma turns_S turn n s : turns turn (S n) s = turns turn n (turn s).
Proof. reflexivity. Qed.

Definition idle_turns : nat -> sim -> sim := turns idle_turn.

Lemma iteration_None s : iteration None s = (true, idle_turn s).
Proof. unfold idle_turn, iteration. cbv beta iota zeta. cbn [snd]. reflexivity. Qed.

Lemma main_loop_idle n s : main_loop (replicate n None) s = (true, idle_turns n s).
Proof.
  revert s. induction n as [|n IH]; intros s; [reflexivity|].
  change (replicate (S n) None) with (@None ascii :: replicate n None).
  change (main_loop (None :: replicate n None) s)
    with (let (running, s') := iteration None s in
          if running then main_loop (replicate n None) s' else (false, s')).
  rewrite iteration_None. cbv beta iota.
  unfold idle_turns in *. rewrite turns_S. exact (IH (idle_turn s)).
Qed.

Lemma idle_turns_spec fault n s :
  fault_injection_enabled (monitor (core s)) = true ->
  active_fault (monitor (core s)) = fault ->
  fault <> FAULT_NONE ->
  throttle_ok s ->
  0 <= fault_call_count s ->
  0 <= generator_count fault s ->
  let c := fault_call_count s in
  let g := generator_count fault s in
  let calls := (c + Z.of_nat n) / 4 - c / 4 in
  let s' := idle_turns n s in
  fault_injection_enabled (monitor (core s')) = true
  /\ active_fault (monitor (core s')) = fault
  /\ fault_call_count s' = c + Z.of_nat n
  /\ generator_count fault s' = g + calls
  /\ event_id <$> generator_events (appends (core s'))
     = (event_id <$> generator_events (appends (core s)))
       ++ replicate (Z.to_nat ((g + calls) / 5 - g / 5)) (generator_entry fault).
Proof.
  revert s. induction n as [|n IH]; intros s Hen Hact Hf Hok Hc Hg; cbv zeta.
  - unfold idle_turns. cbn [turns]. replace (fault_call_count s + Z.of_nat 0) with (fault_call_count s) by lia.
    rewrite Z.sub_diag, Z.add_0_r, Z.sub_diag, app_nil_r.
    repeat split; assumption || reflexivity.
  - unfold idle_turns in *. rewrite turns_S.
    destruct (idle_turn_spec fault s Hen Hact Hf Hok) as (T1 & T2 & T3 & T4 & T5 & T6).
    cbv zeta in T5, T6.
    set (s1 := idle_turn s) in *.
    set (c := fault_call_count s) in *. set (g := generator_count fault s) in *.
    pose proof (div_succ c 4 Hc ltac:(lia)) as D4.
    pose proof (div_succ g 5 Hg ltac:(lia)) as D5.
    assert (Hg1 : 0 <= generator_count fault s1)
      by (rewrite T5; unfold one_if; destruct (_ =? 0); lia).
    destruct (IH s1 T1 T2 Hf T3 ltac:(lia) Hg1) as (I1 & I2 & I3 & I4 & I5).
    cbv zeta in I3, I4, I5. rewrite T4 in I3, I4, I5. rewrite T5 in I4, I5.
    replace (c + 1 + Z.of_nat n) with (c + Z.of_nat (S n)) in I3, I4, I5 by lia.
    set (q := (c + Z.of_nat (S n)) / 4) in *.
    assert (Hq : (c + 1) / 4 <= q) by (apply Z.div_le_mono; lia).
    split; [exact I1|]. split; [exact I2|]. split; [exact I3|].
    assert (Hcalls : g + one_if (Z.rem (c + 1) 4 =? 0) + (q - (c + 1) / 4)
                     = g + (q - c / 4)).
    { rewrite D4. unfold one_if. destruct (Z.rem (c + 1) 4 =? 0); lia. }
    rewrite Hcalls in I4, I5.
    split; [exact I4|].
    rewrite I5, T6, <- app_assoc. f_equal.
    assert (Hmono : (g + one_if (Z.rem (c + 1) 4 =? 0)) / 5 <= (g + (q - c / 4)) / 5).
    { apply Z.div_le_mono; [lia|]. rewrite <- Hcalls. lia. }
    unfold one_if in *.
    destruct (Z.rem (c + 1) 4 =? 0); cbn [andb].
    + rewrite D5 in *. destruct (Z.rem (g + 1) 5 =? 0).
      * change ([generator_entry fault] ++ ?l) with (generator_entry fault :: l).
        rewrite <- replicate_S. f_equal. lia.
      * rewrite app_nil_l. f_equal. lia.
    + rewrite app_nil_l. rewrite Z.add_0_r. reflexivity.
Qed.

(** X15. With fault injection enabled and no key pressed, the generator of
    the active fault runs on every fourth turn of the main loop and logs on
    every fifth run: after [n] turns from counters [c] and [g] it has run
    [(c + n) / 4 - c / 4] times, and the log has that many fifths more
    entries of the fault's generator.  From counters at zero this is one
    entry in every twenty turns. *)
Theorem injected_fault_logs_every_twentieth_turn fault (n : nat) s :
  fault_injection_enabled (monitor (core s)) = true ->
  active_fault (monitor (core s)) = fault ->
  fault <> FAULT_NONE ->
  0 <= last_fault_trigger s <= fault_call_count s ->
  0 <= generator_count fault s ->
  fault_call_count s + Z.of_nat n <= INT_MAX ->
  generator_count fault s + Z.of_nat n <= INT_MAX ->
  let c := fault_call_count s in
  let g := generator_count fault s in
  let calls := (c + Z.of_nat n) / 4 - c / 4 in
  let s' := (main_loop (replicate n None) s).2 in
  active_fault (monitor (core s')) = fault
  /\ fault_call_count s' = c + Z.of_nat n
  /\ generator_count fault s' = g + calls
  /\ event_id <$> generator_events (appends (core s'))
     = (event_id <$> generator_events (appends (core s)))
       ++ replicate (Z.to_nat ((g + calls) / 5 - g / 5)) (generator_entry fault)
  /\ (c = 0 -> g = 0 -> (g + calls) / 5 - g / 5 = Z.of_nat n / 20).
Proof.
  intros Hen Hact Hf [Hl Hok] Hg _ _ c g calls s'.
  subst s'. rewrite main_loop_idle. cbn [snd].
  destruct (idle_turns_spec fault n s Hen Hact Hf Hok ltac:(lia) Hg)
    as (_ & I2 & I3 & I4 & I5).
  split; [exact I2|]. split; [exact I3|]. split; [exact I4|]. split; [exact I5|].
  intros Hc0 Hg0. subst calls. rewrite Hc0, Hg0.
  change (0 / 4) with 0. change (0 / 5) with 0.
  rewrite !Z.add_0_l, !Z.sub_0_r. rewrite Z.div_div by lia. reflexivity.
Qed.

Definition injected_sim : sim :=
  mk_sim (exec (inject_fault FAULT_COMM_BREAK) fresh_world) 0 0 0 0 0 0 0 0.

Lemma injected_fault_logs_every_twentieth_turn_witness :
  fault_call_count (main_loop (replicate 40 None) injected_sim).2 = 0 + Z.of_nat 40.
Proof.
  apply (injected_fault_logs_every_twentieth_turn FAULT_COMM_BREAK 40 injected_sim).
  - vm_compute. reflexivity.
  - vm_compute. reflexivity.
  - discriminate.
  - vm_compute. split; discriminate.
  - vm_compute. discriminate.
  - vm_compute. discriminate.
  - vm_compute. discriminate.
Defined.

(** ** The sensor and its run of failures *)

Definition sensor_error_events (s : system_state_t) : list append_event :=
  log_events LOG_ERROR ERR_SENSOR_FAILURE "Sensor failure detected"
             "simulate_sensor_reading" 589 s.

Lemma simulate_sensor_reading_spec s :
  let d := rand_draws (core s) in
  let fails := Z.rem (rand_src (core s) (S d)) 100 <? 5 in
  let logs := fails && (3 <? consecutive_failures s + 1) in
  let v := (simulate_sensor_reading s).1 in
  let s' := (simulate_sensor_reading s).2 in
  v = (if logs then -1 else Z.rem (rand_src (core s) d) 100)
  /\ consecutive_failures s' = (if fails then consecutive_failures s + 1 else 0)
  /\ rand_src (core s') = rand_src (core s)
  /\ rand_draws (core s') = S (S d)
  /\ appends (core s')
     = appends (core s) ++ (if logs then sensor_error_events (state_of (core s)) else []).
Proof.
  cbv zeta. unfold simulate_sensor_reading, on_core, rand.
  cbn [core set_core rand_src rand_draws set_rand_draws fst snd].
  destruct (Z.rem _ 100 <? 5); cbn [andb].
  - cbn [consecutive_failures set_consecutive_failures core set_core].
    destruct (3 <? consecutive_failures s + 1); cbn [fst snd].
    + unfold do_core, LOG_ERROR_. rewrite exec_log_message.
      cbn [core set_core set_consecutive_failures consecutive_failures].
      rewrite log_result_appends.
      repeat split; reflexivity.
    + cbn [core set_core set_consecutive_failures consecutive_failures appends
           set_rand_draws rand_src rand_draws].
      rewrite app_nil_r. repeat split; reflexivity.
  - cbn [fst snd core set_core set_consecutive_failures consecutive_failures appends
         set_rand_draws rand_src rand_draws].
    rewrite app_nil_r. repeat split; reflexivity.
Qed.

(** The state a call of [simulate_sensor_reading] leaves. *)
Definition sensor_call (s : sim) : sim := (simulate_sensor_reading s).2.

(** Whether call number [k] (from 0) of a row of calls from [s] draws a
    failure: its second draw modulo 100 is below 5. *)
Definition sensor_fails (s : sim) (k : nat) : bool :=
  Z.rem (rand_src (core s) (rand_draws (core s) + 2 * k + 1)%nat) 100 <? 5.

(** The failures in a row when call [k] is made. *)
Fixpoint failing_run (s : sim) (k : nat) : Z :=
  match k with
  | O => consecutive_failures s
  | S k' => if sensor_fails s k' then failing_run s k' + 1 else 0
  end.

Lemma failing_run_nonneg s k : 0 <= consecutive_failures s -> 0 <= failing_run s k.
Proof.
  intros Hc. induction k as [|k IH]; cbn [failing_run]; [exact Hc|].
  destruct (sensor_fails s k); lia.
Qed.

Lemma failing_run_ge s (m k : nat) :
  consecutive_failures s = 0 ->
  Z.of_nat m <= failing_run s k
  <-> (m <= k)%nat /\ forall j, (k - m <= j < k)%nat -> sensor_fails s j = true.
Proof.
  intros Hc. revert k. induction m as [|m IH]; intros k.
  - split.
    + intros _. split; [lia|]. intros j Hj. lia.
    + intros _. apply (failing_run_nonneg s k). lia.
  - destruct k as [|k]; cbn [failing_run].
    + rewrite Hc. split; [lia | intros [H _]; lia].
    + destruct (sensor_fails s k) eqn:Hk.
      * assert (E : Z.of_nat (S m) <= failing_run s k + 1
                    <-> Z.of_nat m <= failing_run s k) by lia.
        rewrite E, IH. split.
        -- intros [Hm Hall]. split; [lia|]. intros j Hj.
           destruct (decide (j = k)) as [-> | Hne]; [exact Hk|]. apply Hall. lia.
        -- intros [Hm Hall]. split; [lia|]. intros j Hj. apply Hall. lia.
      * split; [lia|]. intros [Hm Hall].
        rewrite Hall in Hk by lia. discriminate.
Qed.

Lemma sensor_calls_spec s k :
  let sk := Nat.iter k sensor_call s in
  rand_src (core sk) = rand_src (core s)
  /\ rand_draws (core sk) = (rand_draws (core s) + 2 * k)%nat
  /\ consecutive_failures sk = failing_run s k.
Proof.
  cbv zeta. induction k as [|k IH].
  - cbn [Nat.iter nat_rect failing_run]. repeat split. lia.
  - change (Nat.iter (S k) sensor_call s) with (sensor_call (Nat.iter k sensor_call s)).
    set (sk := Nat.iter k sensor_call s) in *. destruct IH as (I1 & I2 & I3).
    destruct (simulate_sensor_reading_spec sk) as (_ & S2 & S3 & S4 & _).
    cbv zeta in S2, S4. fold (sensor_call sk) in S2, S3, S4.
    rewrite S3, S4, S2, I1, I2, I3. cbn [failing_run]. unfold sensor_fails.
    replace (S (rand_draws (core s) + 2 * k))%nat
      with (rand_draws (core s) + 2 * k + 1)%nat by lia.
    repeat split. lia.
Qed.

(** X16. [simulate_sensor_reading] reports a failure, returning -1 and
    logging at Error level, exactly from the fourth failing draw in a row:
    in a row of calls from a counter at zero, call [k] reports one if and
    only if it and the three calls before it all drew a failure.  Otherwise
    it returns the reading, the first draw modulo 100, and logs nothing. *)
Theorem sensor_reports_fourth_failure_in_a_row s (k : nat) :
  consecutive_failures s = 0 ->
  (forall i, 0 <= rand_src (core s) i) ->
  Z.of_nat k < INT_MAX ->
  let sk := Nat.iter k sensor_call s in
  let v := (simulate_sensor_reading sk).1 in
  let four_in_a_row :=
    (3 <= k)%nat /\ forall j, (k - 3 <= j <= k)%nat -> sensor_fails s j = true in
  (v = -1 <-> four_in_a_row)
  /\ (v <> -1 ->
      v = Z.rem (rand_src (core s) (rand_draws (core s) + 2 * k)%nat) 100
      /\ 0 <= v < 100
      /\ appends (core (sensor_call sk)) = appends (core sk))
  /\ (v = -1 ->
      appends (core (sensor_call sk))
      = appends (core sk) ++ sensor_error_events (state_of (core sk))).
Proof.
  intros Hc Hrand _ sk v four. subst v four.
  destruct (sensor_calls_spec s k) as (I1 & I2 & I3). cbv zeta in I1, I2, I3.
  fold sk in I1, I2, I3.
  destruct (simulate_sensor_reading_spec sk) as (S1 & _ & _ & _ & S5).
  cbv zeta in S1, S5. fold (sensor_call sk) in S5.
  rewrite I1, I2, I3 in S1. rewrite I1, I2, I3 in S5.
  replace (S (rand_draws (core s) + 2 * k))%nat
    with (rand_draws (core s) + 2 * k + 1)%nat in S1, S5 by lia.
  fold (sensor_fails s k) in S1, S5.
  pose proof (Z.rem_bound_pos (rand_src (core s) (rand_draws (core s) + 2 * k)%nat) 100
                (Hrand _) ltac:(lia)) as Hread.
  pose proof (failing_run_ge s 3 k Hc) as Hrun.
  change (Z.of_nat 3) with 3 in Hrun.
  assert (Hlogs : sensor_fails s k && (3 <? failing_run s k + 1) = true
                  <-> (3 <= k)%nat
                      /\ forall j, (k - 3 <= j <= k)%nat -> sensor_fails s j = true).
  { rewrite andb_true_iff, Z.ltb_lt.
    assert (E : 3 < failing_run s k + 1 <-> 3 <= failing_run s k) by lia.
    rewrite E, Hrun. split.
    - intros (Hk & Hm & Hall). split; [exact Hm|]. intros j Hj.
      destruct (decide (j = k)) as [-> | Hne]; [exact Hk|]. apply Hall. lia.
    - intros (Hm & Hall). split; [apply Hall; lia|]. split; [exact Hm|].
      intros j Hj. apply Hall. lia. }
  rewrite S1, S5.
  destruct (sensor_fails s k && (3 <? failing_run s k + 1)).
  - split; [|split].
    + split; [intros _; apply Hlogs; reflexivity | reflexivity].
    + intros Hne. contradiction.
    + intros _. reflexivity.
  - split; [|split].
    + split; [intros Habs; lia|]. intros H. apply Hlogs in H. discriminate.
    + intros _. rewrite app_nil_r. repeat split; lia.
    + intros Habs. lia.
Qed.

Lemma sensor_reports_fourth_failure_in_a_row_witness :
  (simulate_sensor_reading (Nat.iter 3 sensor_call fresh_sim)).1 = -1
  <-> (3 <= 3)%nat /\ forall j, (3 - 3 <= j <= 3)%nat -> sensor_fails fresh_sim j = true.
Proof.
  apply (sensor_reports_fourth_failure_in_a_row fresh_sim 3).
  - reflexivity.
  - intros i. vm_compute. discriminate.
  - vm_compute. reflexivity.
Defined.

(** ** The actuator and the power monitor in the loop *)

Lemma simulate_actuator_control_in_range command s :
  0 <= command <= 100 -> simulate_actuator_control command s = (command, s).
Proof.
  intros Hc. unfold simulate_actuator_control.
  rewrite (proj2 (Z.ltb_ge command 0)) by lia.
  rewrite (proj2 (Z.ltb_ge 100 command)) by lia. reflexivity.
Qed.

Lemma simulate_power_monitoring_nominal s :
  0 <= rand_src (core s) (rand_draws (core s)) ->
  simulate_power_monitoring s
  = (2300 + Z.rem (rand_src (core s) (rand_draws (core s))) 200,
     set_core (set_rand_draws (S (rand_draws (core s))) (core s)) s).
Proof.
  intros Hr. unfold simulate_power_monitoring, on_core, rand.
  pose proof (Z.rem_bound_pos _ 200 Hr ltac:(lia)) as Hb.
  cbv zeta.
  rewrite (proj2 (Z.ltb_ge (2400 + (Z.rem _ 200 - 100)) 2200)) by lia.
  rewrite (proj2 (Z.ltb_ge 2600 (2400 + (Z.rem _ 200 - 100)))) by lia.
  cbn [orb]. f_equal. lia.
Qed.

(** X17. In the main loop the actuator and the power monitor never log.
    [rand] is never negative, so the command [rand () % 100] is within
    [0, 100] and the voltage within 23.00 V and 24.99 V, inside the limits
    tested.  After the four simulated operations the monitor, the log and
    the console are as the sensor reading left them; two more numbers have
    been drawn. *)
Theorem actuator_and_power_never_warn s :
  (forall i, 0 <= rand_src (core s) i) ->
  consecutive_failures s < INT_MAX ->
  let s1 := sensor_call s in
  let s' := normal_operations s in
  s' = set_core (set_rand_draws (S (S (rand_draws (core s1)))) (core s1)) s1
  /\ monitor (core s') = monitor (core s1)
  /\ appends (core s') = appends (core s1)
  /\ console (core s') = console (core s1)
  /\ rand_draws (core s') = (rand_draws (core s) + 4)%nat.
Proof.
  intros Hrand _ s1 s'.
  destruct (simulate_sensor_reading_spec s) as (_ & _ & S3 & S4 & _).
  cbv zeta in S3, S4. fold (sensor_call s) in S3, S4. fold s1 in S3, S4.
  assert (Heq : s' = set_core (set_rand_draws (S (S (rand_draws (core s1)))) (core s1)) s1).
  { subst s'. unfold normal_operations.
    fold s1. destruct (simulate_sensor_reading s) as [v s1'] eqn:Hsr.
    assert (s1' = s1) as -> by (subst s1; unfold sensor_call; rewrite Hsr; reflexivity).
    unfold on_core at 1, rand at 1.
    rewrite simulate_actuator_control_in_range.
    2:{ pose proof (Z.rem_bound_pos (rand_src (core s1) (rand_draws (core s1))) 100) as Hb.
        rewrite S3 in *. specialize (Hb (Hrand _) ltac:(lia)). lia. }
    unfold simulate_communication.
    rewrite simulate_power_monitoring_nominal.
    2:{ cbn [core set_core rand_src set_rand_draws]. rewrite S3. apply Hrand. }
    cbn [core set_core rand_draws set_rand_draws]. destruct s1; reflexivity. }
  split; [exact Heq|]. rewrite Heq.
  cbn [core set_core monitor appends console rand_draws set_rand_draws].
  repeat split. rewrite S4. lia.
Qed.

Lemma actuator_and_power_never_warn_witness :
  appends (core (normal_operations fresh_sim)) = appends (core (sensor_call fresh_sim)).
Proof.
  apply (actuator_and_power_never_warn fresh_sim).
  - intros i. vm_compute. discriminate.
  - vm_compute. reflexivity.
Defined.

(** ** The sink during the run *)

Definition sink_same (file : option FILE) (fails : bool) (w : world) : Prop :=
  log_file (monitor w) = file /\ sink_write_fails w = fails.

Lemma sink_log_message file fails level error message function line :
  preserves (sink_same file fails) (log_message level error message function line).
Proof.
  intros w [H1 H2]. rewrite log_message_eq. cbn [snd].
  split; [|exact H2].
  unfold log_result; cbn [monitor]. rewrite <- H1. apply log_effect_frame.
Qed.

Ltac sink_prim :=
  idtac;
  match goal with
  | |- preserves _ (log_message _ _ _ _ _) => apply sink_log_message
  | |- preserves _ (recovery_loop _ _) => fail 1
  | |- preserves _ _ =>
      let w := fresh "w" in
      let H := fresh "H" in
      intros w H; exact H
  end.

Lemma sink_recovery_loop file fails fuel i :
  preserves (sink_same file fails) (recovery_loop fuel i).
Proof.
  revert i. induction fuel as [|fuel IH]; intros i; simpl.
  - apply preserves_ret.
  - unfold LOG_INFO_. walk_with ltac:(first [apply IH | sink_prim]).
Qed.

Lemma sink_step file fails op : preserves (sink_same file fails) (step op).
Proof.
  destruct op; cbn [step].
  - sink_prim.
  - unfold inject_fault, LOG_WARNING_. walk_with sink_prim.
  - unfold check_system_health, monitor_gauges, watchdog_simulation,
      LOG_ERROR_, LOG_CRITICAL_.
    walk_with sink_prim.
  - unfold attempt_fault_recovery, LOG_INFO_.
    walk_with ltac:(first [apply sink_recovery_loop | sink_prim]).
  - unfold display_debug_info. walk_with sink_prim.
Qed.

(** ** How [main] ends *)

Lemma iteration_running key s :
  (iteration key s).1
  = match key with
    | Some command => negb (Ascii.eqb command "q")
    | None => true
    end.
Proof.
  unfold iteration. cbv zeta.
  destruct key as [command|]; [|reflexivity].
  unfold handle_command.
  destruct (Ascii.eqb command "q"); [reflexivity|].
  destruct (Ascii.eqb command "f"); [destruct (on_core rand _); reflexivity|].
  destruct (Ascii.eqb command "r"); [reflexivity|].
  destruct (Ascii.eqb command "d"); reflexivity.
Qed.

Lemma main_loop_running keys s :
  (main_loop keys s).1 = true <-> Some "q"%char ∉ keys.
Proof.
  revert s. induction keys as [|key keys IH]; intros s.
  - split; [intros _ Hin; inversion Hin | reflexivity].
  - cbn [main_loop]. pose proof (iteration_running key s) as Hrun.
    destruct (iteration key s) as [running s1]. cbn [fst] in Hrun. subst running.
    rewrite not_elem_of_cons.
    destruct key as [command|].
    + destruct (Ascii.eqb_spec command "q") as [-> | Hne]; cbn [negb fst].
      * split; [discriminate | intros [Hq _]; contradiction].
      * rewrite IH. split; [intros H; split; [congruence | exact H] | intros [_ H]; exact H].
    + rewrite IH. split; [intros H; split; [discriminate | exact H] | intros [_ H]; exact H].
Qed.

Lemma main_init_fields clk rnd fopen_result write_fails :
  let w := core (main_init clk rnd fopen_result write_fails) in
  state_of w = STATE_RUNNING
  /\ log_file (monitor w) = fopen_result
  /\ sink_write_fails w = write_fails.
Proof. destruct fopen_result; vm_compute; repeat split; reflexivity. Qed.

Lemma main_loop_settled clk rnd fopen_result write_fails keys :
  let w := core (main_loop keys (main_init clk rnd fopen_result write_fails)).2 in
  settled (state_of w)
  /\ sink_same fopen_result write_fails w.
Proof.
  intros w. subst w.
  destruct (main_init_fields clk rnd fopen_result write_fails) as (Hrun & Hfile & Hfails).
  cbv zeta in Hrun, Hfile, Hfails. split.
  - apply (main_loop_preserves (fun w => settled (state_of w))).
    + intros op w. apply settled_step.
    + intros w H. exact H.
    + intros w H. exact H.
    + left. exact Hrun.
  - apply (main_loop_preserves (sink_same fopen_result write_fails)).
    + apply sink_step.
    + intros w H. exact H.
    + intros w H. exact H.
    + split; assumption.
Qed.

(** Whether the end marker can be written to what [fopen] returned. *)
Definition sink_usable (fopen_result : option FILE) (write_fails : bool) : bool :=
  match fopen_result with
  | None => false
  | Some f => negb (f_error f || write_fails)
  end.

(** X18. How [main] ends.  It leaves the loop if and only if the key [q] is
    read.  It then returns 0, after printing "System shutdown complete.",
    exactly when the state at that turn is Running and the log file was
    opened and takes the end marker; in every other case, the state being
    Fault or the file missing or failing, the assertion of [debug_shutdown]
    aborts the program in the Fault state. *)
Theorem main_returns_iff_running_and_sink_usable clk rnd fopen_result write_fails keys :
  Z.of_nat (length keys) <= INT_MAX ->
  let s := (main_loop keys (main_init clk rnd fopen_result write_fails)).2 in
  let clean := bool_decide (state_of (core s) = STATE_RUNNING)
               && sink_usable fopen_result write_fails in
  match main clk rnd fopen_result write_fails keys with
  | Looping s' => s' = s /\ Some "q"%char ∉ keys
  | Exit code w =>
      Some "q"%char ∈ keys /\ clean = true /\ code = 0
      /\ state_of w = STATE_RUNNING
      /\ last (console w) = Some (OutText "System shutdown complete.")
  | Abort w =>
      Some "q"%char ∈ keys /\ clean = false /\ state_of w = STATE_FAULT
  end.
Proof.
  intros _ s clean.
  destruct (main_loop_settled clk rnd fopen_result write_fails keys) as [Hset [Hfile Hfails]].
  cbv zeta in Hset, Hfile, Hfails. fold s in Hset, Hfile, Hfails.
  pose proof (main_loop_running keys (main_init clk rnd fopen_result write_fails)) as Hrun.
  unfold main. subst s.
  destruct (main_loop keys (main_init clk rnd fopen_result write_fails)) as [running s].
  cbn [fst snd] in *.
  destruct running.
  - split; [reflexivity | apply Hrun; reflexivity].
  - assert (Hq : Some "q"%char ∈ keys).
    { destruct (decide (Some "q"%char ∈ keys)) as [Hin | Hnin]; [exact Hin|].
      apply Hrun in Hnin. discriminate. }
    destruct (debug_shutdown_spec (core s)) as (w' & Hres & Hst & _).
    cbv zeta in Hres, Hst.
    assert (Hbad : sink_bad (core s) = negb (sink_usable fopen_result write_fails)).
    { unfold sink_bad, sink_usable. rewrite Hfile, Hfails.
      destruct fopen_result; [rewrite negb_involutive|]; reflexivity. }
    rewrite Hbad in Hres, Hst. rewrite Hres. subst clean.
    destruct Hset as [Hs | Hs]; rewrite Hs in *.
    + rewrite (bool_decide_eq_true_2 (STATE_RUNNING = STATE_RUNNING)) in * by reflexivity.
      destruct (sink_usable fopen_result write_fails); cbn [negb andb] in *.
      * rewrite bool_decide_eq_false_2 by discriminate.
        repeat split; [exact Hq | exact Hst |].
        cbn [exec printf snd console set_console]. apply last_snoc.
      * rewrite bool_decide_eq_true_2 by reflexivity.
        repeat split; [exact Hq | exact Hst].
    + rewrite (bool_decide_eq_false_2 (STATE_FAULT = STATE_RUNNING)) in * by discriminate.
      rewrite andb_false_r in *. cbn [andb] in *.
      rewrite bool_decide_eq_true_2 by reflexivity.
      repeat split; [exact Hq | exact Hst].
Qed.

Lemma main_returns_iff_running_and_sink_usable_witness :
  exists w, main (fun _ => 0) (fun _ => 0) None false [None; Some "q"%char] = Abort w
            /\ state_of w = STATE_FAULT.
Proof.
  assert (Hlen : Z.of_nat (length [@None ascii; Some "q"%char]) <= INT_MAX)
    by (vm_compute; discriminate).
  pose proof (main_returns_iff_running_and_sink_usable
                (fun _ => 0) (fun _ => 0) None false [None; Some "q"%char] Hlen) as H.
  cbv zeta in H.
  destruct (main (fun _ => 0) (fun _ => 0) None false [None; Some "q"%char]) as [code w|w|s].
  - destruct H as (_ & Hclean & _). rewrite andb_false_r in Hclean. discriminate.
  - exists w. split; [reflexivity | apply H].
  - destruct H as [_ Hq]. exfalso. apply Hq. right. left.
Defined.

(** ** The invariants of the monitor, in [main] *)

Lemma main_init_invariants clk rnd fopen_result write_fails :
  let w := core (main_init clk rnd fopen_result write_fails) in
  wf w /\ log_mirrors w /\ counts_faults w /\ console_mirrors w /\ no_error_kinds w.
Proof.
  cbv zeta. split; [|split; [|split; [|split]]].
  - unfold main_init; cbn [core].
    apply (preserves_exec wf (main_start fopen_result)); [|apply wf_zero_monitor].
    unfold main_start, debug_init, LOG_INFO_.
    walk_with ltac:(first [ apply wf_modify; intros ? _; apply wf_zero_monitor
                          | wf_prim ]).
  - unfold log_mirrors, mirrors, log_view, newest.
    destruct fopen_result; vm_compute; repeat split; reflexivity.
  - unfold counts_faults. destruct fopen_result; vm_compute; reflexivity.
  - unfold console_mirrors. destruct fopen_result; vm_compute; reflexivity.
  - unfold no_error_kinds.
    replace (fault_history (monitor (core (main_init clk rnd fopen_result write_fails))))
      with (replicate (Z.to_nat MAX_FAULT_HISTORY) zero_fault_record)
      by (destruct fopen_result; vm_compute; reflexivity).
    apply Forall_replicate. reflexivity.
Qed.

(** X19. What holds of the monitor after any sequence of operations holds
    at every turn of [main], whatever keys are pressed: the buffers keep
    their sizes and the counts their bounds; the log buffer holds the newest
    appends; the health fault counter counts the Error-or-higher appends
    modulo 65536; the console carries a line for each append of level
    Warning or higher and for no other; no fault record has an error kind;
    the state is Running or Fault; the log file is the one opened at the
    start. *)
Theorem main_loop_keeps_monitor_invariants clk rnd fopen_result write_fails keys :
  Z.of_nat (length keys) <= INT_MAX ->
  let w := core (main_loop keys (main_init clk rnd fopen_result write_fails)).2 in
  wf w
  /\ log_count (monitor w) = Z.min (Z.of_nat (length (appends w))) MAX_LOG_ENTRIES
  /\ entry_fields <$> log_view (monitor w)
     = event_fields <$> newest (Z.to_nat (log_count (monitor w))) (appends w)
  /\ h_fault_count (health (monitor w))
     = Z.of_nat (length (fault_events (appends w))) mod 65536
  /\ mirrored_lines w = mirror_line <$> loud_events (appends w)
  /\ Forall (fun r => fr_error_code r = ERR_NONE) (fault_history (monitor w))
  /\ (state_of w = STATE_RUNNING \/ state_of w = STATE_FAULT)
  /\ log_file (monitor w) = fopen_result.
Proof.
  intros _ w.
  destruct (main_init_invariants clk rnd fopen_result write_fails)
    as (Hwf & Hmir & Hcnt & Hcon & Hkinds).
  cbv zeta in Hwf, Hmir, Hcnt, Hcon, Hkinds.
  destruct (main_loop_settled clk rnd fopen_result write_fails keys) as [Hset [Hfile _]].
  cbv zeta in Hset, Hfile. fold w in Hset, Hfile.
  assert (Hwf' : wf w).
  { apply (main_loop_preserves wf); [apply wf_step | | | exact Hwf].
    - intros x H. exact H.
    - intros x H. exact H. }
  assert (Hmir' : log_mirrors w).
  { apply (main_loop_preserves log_mirrors); [apply mirrors_step | | | exact Hmir].
    - intros x H. exact H.
    - intros x H. exact H. }
  assert (Hcnt' : counts_faults w).
  { apply (main_loop_preserves counts_faults); [apply counts_faults_step | | | exact Hcnt].
    - intros x H. exact H.
    - intros x H. exact H. }
  assert (Hcon' : console_mirrors w).
  { apply (main_loop_preserves console_mirrors); [apply console_mirrors_step | | | exact Hcon].
    - intros x H. exact H.
    - apply console_mirrors_printf. reflexivity. }
  assert (Hkinds' : no_error_kinds w).
  { apply (main_loop_preserves no_error_kinds); [apply no_error_kinds_step | | | exact Hkinds].
    - intros x H. exact H.
    - intros x H. exact H. }
  destruct Hmir' as (_ & Hc & Hv).
  repeat split; try assumption; apply Hwf'.
Qed.

Lemma main_loop_keeps_monitor_invariants_witness :
  wf (core (main_loop [Some "f"%char; None; Some "r"%char; Some "d"%char]
                      (main_init (fun _ => 0) (fun _ => 0) None false)).2).
Proof.
  assert (Hlen : Z.of_nat (length [Some "f"%char; None; Some "r"%char; Some "d"%char])
                 <= INT_MAX) by (vm_compute; discriminate).
  destruct (main_loop_keeps_monitor_invariants
              (fun _ => 0) (fun _ => 0) None false
              [Some "f"%char; None; Some "r"%char; Some "d"%char] Hlen) as [H _].
  exact H.
Defined.

(** ** What reaches the log file *)

Lemma save_log_to_file_file w f :
  log_file (monitor w) = Some f ->
  log_file (monitor (exec save_log_to_file w))
  = Some (mk_FILE (f_written f ++ ["=== Log Session End ==="]) false).
Proof.
  intros Hf. unfold save_log_to_file.
  rewrite exec_bind. cbn [get_monitor fst snd]. rewrite Hf.
  rewrite exec_bind. cbn [get_sink_write_fails fst snd].
  rewrite exec_seq.
  destruct (f_error f || sink_write_fails w) eqn:Herr.
  - rewrite exec_when_true, exec_seq. unfold LOG_ERROR_. rewrite exec_log_message.
    cbn [exec modify snd set_monitor monitor].
    unfold log_result; cbn [monitor].
    rewrite (proj1 (proj2 (proj2 (log_effect_frame _ _ _ _ _ _ _ _)))).
    reflexivity.
  - rewrite exec_when_false. reflexivity.
Qed.

(** X20. The log file never receives a log entry.  Whatever keys are
    pressed, the stream is at every turn of [main] as [fopen] returned it:
    [log_message] writes to the buffer and the console only.  All that
    [save_log_to_file] writes is the end marker, and it leaves the stream
    with its error indicator cleared. *)
Theorem log_file_receives_only_end_marker clk rnd f write_fails keys :
  Z.of_nat (length keys) <= INT_MAX ->
  let w := core (main_loop keys (main_init clk rnd (Some f) write_fails)).2 in
  log_file (monitor w) = Some f
  /\ log_file (monitor (exec save_log_to_file w))
     = Some (mk_FILE (f_written f ++ ["=== Log Session End ==="]) false).
Proof.
  intros _ w.
  destruct (main_loop_settled clk rnd (Some f) write_fails keys) as [_ [Hfile _]].
  cbv zeta in Hfile. fold w in Hfile.
  split; [exact Hfile | apply save_log_to_file_file, Hfile].
Qed.

Lemma log_file_receives_only_end_marker_witness :
  log_file (monitor (core (main_loop [Some "f"%char; None; Some "q"%char]
                             (main_init (fun _ => 0) (fun _ => 0)
                                        (Some (mk_FILE [] false)) false)).2))
  = Some (mk_FILE [] false).
Proof.
  assert (Hlen : Z.of_nat (length [Some "f"%char; None; Some "q"%char]) <= INT_MAX)
    by (vm_compute; discriminate).
  destruct (log_file_receives_only_end_marker
              (fun _ => 0) (fun _ => 0) (mk_FILE [] false) false
              [Some "f"%char; None; Some "q"%char] Hlen) as [H _].
  exact H.
Defined.

(** ** debug_init *)

(** X21. [debug_init] starts afresh from any world: whatever the monitor
    held, it is left Running with exactly two entries, both Info, an empty
    fault history, fault injection off, all counters and gauges zero and
    [last_health_check] at the clock (as a [uint32_t]).  The clock is read
    four times.  The two statics of the watchdog are not reset. *)
Theorem debug_init_resets_monitor fopen_result w :
  let w' := exec (debug_init fopen_result) w in
  let m' := monitor w' in
  current_state (health m') = STATE_RUNNING
  /\ log_count m' = 2
  /\ (entry_fields <$> take 2 (log_buffer m')
      = [(LOG_INFO, ERR_NONE, "Debug monitoring system initialized", "debug_init", 333);
         (LOG_INFO, ERR_NONE, "System transitioned to RUNNING state", "debug_init", 337)])
  /\ fault_count m' = 0
  /\ fault_history m' = replicate (Z.to_nat MAX_FAULT_HISTORY) zero_fault_record
  /\ fault_injection_enabled m' = false
  /\ active_fault m' = FAULT_NONE
  /\ log_file m' = fopen_result
  /\ (h_fault_count (health m'), recovery_count (health m'), uptime_seconds (health m'),
      cpu_usage_percent (health m'), memory_usage_percent (health m')) = (0, 0, 0, 0, 0)
  /\ last_health_check (health m') = uint32 (clock w (clock_reads w))
  /\ clock_reads w' = (4 + clock_reads w)%nat
  /\ last_watchdog_feed w' = last_watchdog_feed w
  /\ watchdog_logged w' = watchdog_logged w.
Proof.
  cbv zeta.
  assert (Hcheck : last_health_check
                     (health (monitor (exec (debug_init fopen_result) w)))
                   = uint32 (clock w (clock_reads w))).
  { unfold debug_init, LOG_INFO_.
    rewrite !exec_seq, exec_bind. cbn [time fst snd].
    rewrite !exec_seq, !exec_log_message.
    unfold log_result; cbn [monitor exec modify_health modify snd set_monitor].
    rewrite !log_effect_quiet by reflexivity.
    destruct fopen_result; reflexivity. }
  split; [destruct fopen_result; vm_compute; reflexivity|].
  split; [destruct fopen_result; vm_compute; reflexivity|].
  split; [destruct fopen_result; vm_compute; reflexivity|].
  split; [destruct fopen_result; vm_compute; reflexivity|].
  split; [destruct fopen_result; vm_compute; reflexivity|].
  split; [destruct fopen_result; vm_compute; reflexivity|].
  split; [destruct fopen_result; vm_compute; reflexivity|].
  split; [destruct fopen_result; vm_compute; reflexivity|].
  split; [destruct fopen_result; vm_compute; reflexivity|].
  split; [exact Hcheck|].
  split; [destruct fopen_result; vm_compute; reflexivity|].
  split; destruct fopen_result; reflexivity.
Qed.

(** ** From the key [f] to the log *)













